(** * movie-api: a shallow embedding of the catalog backend

    The Go packages [models], [repository], [services], [utils] and
    [handlers] are embedded as modules of the same names.  Everything the
    program reaches through a client library (the relational store behind
    GORM, the TMDB HTTP API, the object store behind the MinIO client, the
    wall clock) is collected in one record, [World], which every operation
    threads explicitly. *)

From Stdlib Require Import ZArith String Ascii List Floats Lia.
From stdpp Require Import base option list gmap strings pretty sorting.

Open Scope Z_scope.

(** ** Go values *)

(** A Go [error] value is modelled by its message; [option error] is an
    [error] that may be [nil]. *)
Definition error := string.

(** The two-valued returns [(T, error)] of Go. *)
Inductive Result (A : Type) : Type :=
| Ok (a : A)
| Err (e : error).
Arguments Ok {A} a.
Arguments Err {A} e.

(** A call either returns or ends in a run-time panic. *)
Inductive Outcome (A : Type) : Type :=
| Done (a : A)
| Panic (msg : string).
Arguments Done {A} a.
Arguments Panic {A} msg.

(** [time.Time], as a number of clock ticks; the zero time is 0. *)
Definition Time := Z.

(** Go's [int] and [int64] on the 64-bit targets of the service. *)
Definition minInt64 : Z := - 2 ^ 63.
Definition maxInt64 : Z := 2 ^ 63 - 1.
Definition wrap64 (z : Z) : Z := (z + 2 ^ 63) mod 2 ^ 64 - 2 ^ 63.

(** ** Package [strings] (the functions the program calls) *)
Module Strings.

(** [strings.HasPrefix]. *)
Definition HasPrefix (s pre : string) : bool := String.prefix pre s.

(** [strings.Contains]. *)
Fixpoint Contains (s substr : string) : bool :=
  HasPrefix s substr ||
  match s with
  | EmptyString => false
  | String _ s' => Contains s' substr
  end.

(** [strings.Index]: the byte offset of the first occurrence, or -1. *)
Fixpoint Index (s substr : string) : Z :=
  if HasPrefix s substr then 0
  else match s with
       | EmptyString => -1
       | String _ s' => let i := Index s' substr in
                        if i <? 0 then -1 else i + 1
       end.

(** The slice expression [s[:idx]]. *)
Definition slice_to (s : string) (idx : Z) : string :=
  String.substring 0 (Z.to_nat idx) s.

(** [strings.TrimPrefix]. *)
Definition TrimPrefix (s pre : string) : string :=
  if HasPrefix s pre
  then String.substring (String.length pre) (String.length s - String.length pre) s
  else s.

(** [strings.Split] for a one-byte separator (the program only splits on
    ["/"]).  The result is never empty: [Split "" sep = [""]]. *)
Fixpoint Split (s : string) (sep : ascii) : list string :=
  match s with
  | EmptyString => [EmptyString]
  | String c s' =>
      if Ascii.eqb c sep then EmptyString :: Split s' sep
      else match Split s' sep with
           | hd :: tl => String c hd :: tl
           | [] => [String c EmptyString]
           end
  end.

(** [parts[len(parts)-1]], read under the guard [len(parts) > 0]. *)
Definition last_part (parts : list string) : string :=
  List.last parts EmptyString.

(** [strings.HasSuffix] and [strings.TrimSuffix]. *)
Definition HasSuffix (s suffix : string) : bool :=
  (String.length suffix <=? String.length s)%nat
  && String.eqb (String.substring (String.length s - String.length suffix)
                                  (String.length suffix) s) suffix.

Definition TrimSuffix (s suffix : string) : string :=
  if HasSuffix s suffix
  then String.substring 0 (String.length s - String.length suffix) s
  else s.

End Strings.

(** ** Package [path/filepath] *)
Module Filepath.

(** [filepath.Ext]: the suffix that starts at the last dot of the last
    element of the path (the text after the last ["/"]), or the empty
    string when that element has no dot. *)
Fixpoint Ext (path : string) : string :=
  match path with
  | EmptyString => EmptyString
  | String c rest =>
      match Ext rest with
      | EmptyString =>
          if Ascii.eqb c "." && negb (Strings.Contains rest "/") then path else EmptyString
      | ext => ext
      end
  end.

End Filepath.

(** ** Package [strconv] *)
Module Strconv.

Definition ErrSyntax : error := "invalid syntax".
Definition ErrRange : error := "value out of range".

Definition digit (c : ascii) : option Z :=
  let n := Z.of_nat (nat_of_ascii c) in
  if (48 <=? n) && (n <=? 57) then Some (n - 48) else None.

(** The loop of the fast path of [strconv.Atoi] over the bytes of [s]: the
    value of a run of decimal digits, or nothing at a byte that is no
    digit. *)
Fixpoint digits (s : string) (acc : Z) : option Z :=
  match s with
  | EmptyString => Some acc
  | String c s' =>
      match digit c with
      | Some d => digits s' (10 * acc + d)
      | None => None
      end
  end.

(** The largest [uint64], and the least number whose tenfold exceeds it. *)
Definition maxUint64 : Z := 2 ^ 64 - 1.
Definition cutoff : Z := maxUint64 / 10 + 1.

(** The loop of [strconv.ParseUint] in base 10 over the bytes of [s], [n]
    being the value read so far.  A byte that is no digit ends it with a
    syntax error and the value 0.  A digit that takes the value over
    [maxVal] ends it with a range error and the value [maxVal], before the
    bytes after it are looked at. *)
Fixpoint parseDigits (maxVal : Z) (s : string) (n : Z) : Z * option error :=
  match s with
  | EmptyString => (n, None)
  | String c s' =>
      match digit c with
      | None => (0, Some ErrSyntax)
      | Some d =>
          if cutoff <=? n then (maxVal, Some ErrRange)
          else
            let n := n * 10 in
            let n1 := (n + d) mod 2 ^ 64 in
            if (n1 <? n) || (maxVal <? n1) then (maxVal, Some ErrRange)
            else parseDigits maxVal s' n1
      end
  end.

(** [strconv.ParseUint(s, 10, bitSize)]: decimal digits only, no sign. *)
Definition ParseUint (s : string) (bitSize : Z) : Z * option error :=
  match s with
  | EmptyString => (0, Some ErrSyntax)
  | _ => parseDigits (2 ^ bitSize - 1) s 0
  end.

(** [strconv.ParseInt(s, 10, 0)] where [int] has 64 bits: an optional sign
    and the digits read by [ParseUint].  A syntax error returns 0; a range
    error of [ParseUint] comes with the largest [uint64] and so, like every
    value outside [int64], returns the nearest bound of [int64]. *)
Definition ParseInt (s : string) : Z * option error :=
  match s with
  | EmptyString => (0, Some ErrSyntax)
  | String c s' =>
      let '(neg, body) :=
        if Ascii.eqb c "+" then (false, s')
        else if Ascii.eqb c "-" then (true, s')
        else (false, s) in
      let '(un, err) := ParseUint body 64 in
      let syntax :=
        match err with
        | Some e => negb (String.eqb e ErrRange)
        | None => false
        end in
      if syntax then (0, err)
      else if negb neg && (2 ^ 63 <=? un) then (maxInt64, Some ErrRange)
      else if neg && (2 ^ 63 <? un) then (minInt64, Some ErrRange)
      else (if neg then - un else un, None)
  end.

(** [strconv.Atoi].  A text of 1 to 18 bytes takes the fast path: an
    optional sign and a run of digits, which cannot overflow, and 0 with a
    syntax error otherwise.  Every other text goes to [ParseInt]; both
    errors come with a value, which the handlers that drop the error use. *)
Definition Atoi (s : string) : Z * option error :=
  let sLen := Z.of_nat (String.length s) in
  if (0 <? sLen) && (sLen <? 19) then
    let '(neg, body) :=
      match s with
      | String "-" s' => (true, s')
      | String "+" s' => (false, s')
      | _ => (false, s)
      end in
    match body with
    | EmptyString => (0, Some ErrSyntax)
    | _ =>
        match digits body 0 with
        | None => (0, Some ErrSyntax)
        | Some n => (if neg then - n else n, None)
        end
    end
  else ParseInt s.

(** [strconv.ParseUint(s, 10, 32)]. *)
Definition ParseUint32 (s : string) : Z * option error := ParseUint s 32.

End Strconv.

(** ** Package [models] *)

Module Language.
Record t := mk {
  ID : Z;
  Code : string;
  Name : string;
  CreatedAt : Time;
  UpdatedAt : Time
}.
End Language.

Module Genre.
Record t := mk {
  ID : Z;
  TMDBID : Z;
  Name : string;
  CreatedAt : Time;
  UpdatedAt : Time
}.
End Genre.

Module Movie.
Record t := mk {
  ID : Z;
  TMDBID : Z;
  Title : string;
  OriginalTitle : string;
  Overview : string;
  ReleaseDate : string;
  PosterPath : string;
  BackdropPath : string;
  VoteAverage : float;
  VoteCount : Z;
  Popularity : float;
  Adult : bool;
  LanguageID : option Z;
  Language : option Language.t;
  Genres : list Genre.t;
  CreatedAt : Time;
  UpdatedAt : Time
}.

(** The assignments [movie.ID = ...], [movie.TMDBID = ...],
    [movie.CreatedAt = ...], [movie.Genres = ...] on a [*models.Movie]. *)
Definition set_ID (v : Z) (m : t) : t :=
  mk v (TMDBID m) (Title m) (OriginalTitle m) (Overview m) (ReleaseDate m)
     (PosterPath m) (BackdropPath m) (VoteAverage m) (VoteCount m)
     (Popularity m) (Adult m) (LanguageID m) (Language m) (Genres m)
     (CreatedAt m) (UpdatedAt m).
Definition set_TMDBID (v : Z) (m : t) : t :=
  mk (ID m) v (Title m) (OriginalTitle m) (Overview m) (ReleaseDate m)
     (PosterPath m) (BackdropPath m) (VoteAverage m) (VoteCount m)
     (Popularity m) (Adult m) (LanguageID m) (Language m) (Genres m)
     (CreatedAt m) (UpdatedAt m).
Definition set_CreatedAt (v : Time) (m : t) : t :=
  mk (ID m) (TMDBID m) (Title m) (OriginalTitle m) (Overview m) (ReleaseDate m)
     (PosterPath m) (BackdropPath m) (VoteAverage m) (VoteCount m)
     (Popularity m) (Adult m) (LanguageID m) (Language m) (Genres m)
     v (UpdatedAt m).
Definition set_UpdatedAt (v : Time) (m : t) : t :=
  mk (ID m) (TMDBID m) (Title m) (OriginalTitle m) (Overview m) (ReleaseDate m)
     (PosterPath m) (BackdropPath m) (VoteAverage m) (VoteCount m)
     (Popularity m) (Adult m) (LanguageID m) (Language m) (Genres m)
     (CreatedAt m) v.
Definition set_Genres (v : list Genre.t) (m : t) : t :=
  mk (ID m) (TMDBID m) (Title m) (OriginalTitle m) (Overview m) (ReleaseDate m)
     (PosterPath m) (BackdropPath m) (VoteAverage m) (VoteCount m)
     (Popularity m) (Adult m) (LanguageID m) (Language m) v
     (CreatedAt m) (UpdatedAt m).
Definition set_Language (v : option Language.t) (m : t) : t :=
  mk (ID m) (TMDBID m) (Title m) (OriginalTitle m) (Overview m) (ReleaseDate m)
     (PosterPath m) (BackdropPath m) (VoteAverage m) (VoteCount m)
     (Popularity m) (Adult m) (LanguageID m) v (Genres m)
     (CreatedAt m) (UpdatedAt m).
End Movie.

Module TMDBMovieResponse.
Record t := mk {
  ID : Z;
  Title : string;
  OriginalTitle : string;
  Overview : string;
  ReleaseDate : string;
  PosterPath : string;
  BackdropPath : string;
  VoteAverage : float;
  VoteCount : Z;
  Popularity : float;
  Adult : bool;
  OriginalLanguage : string;
  GenreIDs : list Z
}.
End TMDBMovieResponse.

Module SyncLog.
Record t := mk {
  ID : Z;
  SyncType : string;
  Status : string;
  MoviesAdded : Z;
  MoviesUpdated : Z;
  ErrorMessage : string;
  SyncedAt : Time;
  CreatedAt : Time
}.
End SyncLog.

Module ColumnChartData.
Record t := mk {
  Label : string;
  Value : Z
}.
End ColumnChartData.

(** ** The world outside the process *)

(** Rows of the [movies] table hold the columns of [Movie.t]; the
    associations ([Language], [Genres]) are not columns: a stored row has
    them empty, and the many-to-many relation lives in [movie_genres]. *)
Record Database := mkDatabase {
  movies : list Movie.t;
  languages : list Language.t;
  genres : list Genre.t;
  movie_genres : list (Z * Z);       (* (movie id, genre id) *)
  sync_logs : list SyncLog.t;
  next_movie_id : Z;
  next_language_id : Z;
  next_genre_id : Z;
  next_sync_log_id : Z
}.

(** The calls the process makes to the store and to the object store; the
    world decides, per call and per instant, whether a call fails. *)
Inductive Op :=
| OpMovieCreate (tmdbID : Z)
| OpMovieSave (id : Z)
| OpMovieDelete (id : Z)
| OpMovieFirstByID (id : Z)
| OpMovieFirstByTMDBID (tmdbID : Z)
| OpMovieCount
| OpMovieFind
| OpMovieMonthCounts (yearStr : string)
| OpSyncLogCreate
| OpLanguageFirst (code : string)
| OpLanguageFirstOrCreate (code : string)
| OpGenreFirstOrCreate (tmdbID : Z)
| OpRemoveObject (key : string).

(** What the process did to the outside, oldest first: requests to TMDB,
    writes to [movies] and [sync_logs], removals from the bucket. *)
Inductive Event :=
| EvFetch (page : Z)
| EvMovieInserted (id : Z)
| EvMovieUpdated (id : Z)
| EvMovieDeleted (id : Z)
| EvSyncLogInserted (id : Z)
| EvObjectRemoved (key : string).

(** The list query [FindAll] hands to the store. *)
Record ListQuery := mkListQuery {
  q_search : string;         (* ILIKE pattern, empty when there is no filter *)
  q_startDate : string;
  q_endDate : string;
  q_order : string;          (* "<column> <ASC|DESC>" *)
  q_offset : Z;
  q_limit : Z
}.

Record World := mkWorld {
  db : Database;
  objects : gset string;                                 (* keys in the bucket *)
  clock : Time;
  trace : list Event;
  tmdb : Z -> Result (list TMDBMovieResponse.t);         (* popular page -> response *)
  fault : Op -> Time -> option error;                    (* calls that fail *)
  count_movies : ListQuery -> Database -> Z;             (* the store's COUNT of a list query *)
  select_movies : ListQuery -> Database -> list Movie.t  (* and the page it selects *)
}.

Definition set_db (d : Database) (w : World) : World :=
  mkWorld d (objects w) (clock w) (trace w) (tmdb w) (fault w)
          (count_movies w) (select_movies w).
Definition set_objects (o : gset string) (w : World) : World :=
  mkWorld (db w) o (clock w) (trace w) (tmdb w) (fault w)
          (count_movies w) (select_movies w).
Definition tick (w : World) : World :=
  mkWorld (db w) (objects w) (clock w + 1) (trace w) (tmdb w) (fault w)
          (count_movies w) (select_movies w).
Definition emit (e : Event) (w : World) : World :=
  mkWorld (db w) (objects w) (clock w) (trace w ++ [e]) (tmdb w) (fault w)
          (count_movies w) (select_movies w).

(** ** Effects: state passing over [World] *)

Definition IO (A : Type) : Type := World -> A * World.

Definition ret {A} (a : A) : IO A := fun w => (a, w).
Definition bind {A B} (m : IO A) (k : A -> IO B) : IO B :=
  fun w => let '(a, w') := m w in k a w'.

Notation "x <- m ;; k" := (bind m (fun x => k))
  (at level 20, m at level 99, k at level 200, only parsing).
Notation "' pat <- m ;; k" := (bind m (fun x => match x with pat => k end))
  (at level 20, pat pattern, m at level 99, k at level 200, only parsing).

(** [time.Now()]. *)
Definition Now : IO Time := fun w => (clock w, tick w).

(** One call to the store or the object store: time passes, and either the
    world makes the call fail or [body] runs. *)
Definition call {A} (op : Op) (body : IO (Result A)) : IO (Result A) :=
  fun w =>
    match fault w op (clock w) with
    | Some e => (Err e, tick w)
    | None => body (tick w)
    end.

(** ** The relational store, as the GORM calls of the repositories see it

    Tables are lists of rows in insertion order; primary keys come from a
    per-table sequence; [movies.tmdb_id] carries a unique index; GORM fills
    [CreatedAt]/[UpdatedAt] from the clock ([NowFunc]).  Foreign keys are
    not enforced ([DisableForeignKeyConstraintWhenMigrating]). *)
Module Gorm.

Definition ErrRecordNotFound : error := "record not found".
Definition ErrDuplicateKey : error := "duplicate key value violates unique constraint".
Definition ErrInvalidInteger : error := "invalid input syntax for type integer".

(** The columns of a movie, as stored. *)
Definition row_of (m : Movie.t) : Movie.t :=
  Movie.set_Language None (Movie.set_Genres [] m).

(** Saving the [Genres] association adds the missing rows of the join
    table (ON CONFLICT DO NOTHING); it never removes one. *)
Definition has_link (mid gid : Z) (links : list (Z * Z)) : bool :=
  existsb (fun l => (fst l =? mid) && (snd l =? gid)) links.
Definition add_links (mid : Z) (gs : list Genre.t) (links : list (Z * Z)) : list (Z * Z) :=
  fold_left (fun acc g => if has_link mid (Genre.ID g) acc then acc
                          else acc ++ [(mid, Genre.ID g)]) gs links.

Definition set_movies (rows : list Movie.t) (links : list (Z * Z)) (next : Z)
           (d : Database) : Database :=
  mkDatabase rows (languages d) (genres d) links (sync_logs d)
             next (next_language_id d) (next_genre_id d) (next_sync_log_id d).

(** [db.Create(movie)]: the struct handed over comes back with its key and
    timestamps filled. *)
Definition CreateMovie (m : Movie.t) : IO (Result Movie.t) :=
  call (OpMovieCreate (Movie.TMDBID m)) (fun w =>
    let d := db w in
    let id := if Movie.ID m =? 0 then next_movie_id d else Movie.ID m in
    if existsb (fun r => (Movie.ID r =? id) || (Movie.TMDBID r =? Movie.TMDBID m)) (movies d)
    then (Err ErrDuplicateKey, w)
    else
      let created := if Movie.CreatedAt m =? 0 then clock w else Movie.CreatedAt m in
      let updated := if Movie.UpdatedAt m =? 0 then clock w else Movie.UpdatedAt m in
      let m' := Movie.set_ID id (Movie.set_CreatedAt created (Movie.set_UpdatedAt updated m)) in
      let next := if Movie.ID m =? 0 then next_movie_id d + 1 else next_movie_id d in
      let d' := set_movies (movies d ++ [row_of m'])
                           (add_links id (Movie.Genres m) (movie_genres d)) next d in
      (Ok m', emit (EvMovieInserted id) (set_db d' w))).

(** [db.Save(movie)]: with a zero key it is [Create]; otherwise every
    column of the row with that key is written ([UpdatedAt] from the
    clock), and a key that matches no row is inserted. *)
Definition SaveMovie (m : Movie.t) : IO (Result Movie.t) :=
  if Movie.ID m =? 0 then CreateMovie m
  else
    call (OpMovieSave (Movie.ID m)) (fun w =>
      let d := db w in
      if existsb (fun r => negb (Movie.ID r =? Movie.ID m)
                           && (Movie.TMDBID r =? Movie.TMDBID m)) (movies d)
      then (Err ErrDuplicateKey, w)
      else
        let m' := Movie.set_UpdatedAt (clock w) m in
        let links := add_links (Movie.ID m) (Movie.Genres m) (movie_genres d) in
        if existsb (fun r => Movie.ID r =? Movie.ID m) (movies d)
        then
          let rows := map (fun r => if Movie.ID r =? Movie.ID m then row_of m' else r)
                          (movies d) in
          (Ok m', emit (EvMovieUpdated (Movie.ID m))
                       (set_db (set_movies rows links (next_movie_id d) d) w))
        else
          (Ok m', emit (EvMovieInserted (Movie.ID m))
                       (set_db (set_movies (movies d ++ [row_of m']) links
                                           (next_movie_id d) d) w))).

(** [db.Delete(&Movie{}, id)]. *)
Definition DeleteMovie (id : Z) : IO (Result unit) :=
  call (OpMovieDelete id) (fun w =>
    let d := db w in
    let rows := List.filter (fun r => negb (Movie.ID r =? id)) (movies d) in
    (Ok tt, emit (EvMovieDeleted id)
                 (set_db (set_movies rows (movie_genres d) (next_movie_id d) d) w))).

Definition first_by_id (id : Z) (rows : list Movie.t) : option Movie.t :=
  List.find (fun r => Movie.ID r =? id) rows.
Definition first_by_tmdb_id (tmdbID : Z) (rows : list Movie.t) : option Movie.t :=
  List.find (fun r => Movie.TMDBID r =? tmdbID) rows.

(** [Preload("Language").Preload("Genres")]. *)
Definition preload (d : Database) (r : Movie.t) : Movie.t :=
  let lang :=
    match Movie.LanguageID r with
    | Some lid => List.find (fun l => Language.ID l =? lid) (languages d)
    | None => None
    end in
  let gs := List.filter (fun g => has_link (Movie.ID r) (Genre.ID g) (movie_genres d))
                        (genres d) in
  Movie.set_Language lang (Movie.set_Genres gs r).

(** [Preload(...).First(&movie, id)]. *)
Definition FirstMovieByID (id : Z) : IO (Result Movie.t) :=
  call (OpMovieFirstByID id) (fun w =>
    match first_by_id id (movies (db w)) with
    | Some r => (Ok (preload (db w) r), w)
    | None => (Err ErrRecordNotFound, w)
    end).

(** [Where("tmdb_id = ?", tmdbID).First(&movie)]. *)
Definition FirstMovieByTMDBID (tmdbID : Z) : IO (Result Movie.t) :=
  call (OpMovieFirstByTMDBID tmdbID) (fun w =>
    match first_by_tmdb_id tmdbID (movies (db w)) with
    | Some r => (Ok r, w)
    | None => (Err ErrRecordNotFound, w)
    end).

(** [query.Count(&total)] and [query.Order(..).Offset(..).Limit(..).Find(&movies)]
    of the list query. *)
Definition CountMovies (q : ListQuery) : IO (Result Z) :=
  call OpMovieCount (fun w => (Ok (count_movies w q (db w)), w)).
Definition FindMovies (q : ListQuery) : IO (Result (list Movie.t)) :=
  call OpMovieFind (fun w => (Ok (select_movies w q (db w)), w)).

(** [Where("code = ?", code).First(&language)]. *)
Definition FirstLanguage (code : string) : IO (Result Language.t) :=
  call (OpLanguageFirst code) (fun w =>
    match List.find (fun l => String.eqb (Language.Code l) code) (languages (db w)) with
    | Some l => (Ok l, w)
    | None => (Err ErrRecordNotFound, w)
    end).

(** [Where("code = ?", code).FirstOrCreate(&language, Language{Code, Name})]. *)
Definition FirstOrCreateLanguage (code name : string) : IO (Result Language.t) :=
  call (OpLanguageFirstOrCreate code) (fun w =>
    let d := db w in
    match List.find (fun l => String.eqb (Language.Code l) code) (languages d) with
    | Some l => (Ok l, w)
    | None =>
        let l := Language.mk (next_language_id d) code name (clock w) (clock w) in
        let d' := mkDatabase (movies d) (languages d ++ [l]) (genres d) (movie_genres d)
                             (sync_logs d) (next_movie_id d) (next_language_id d + 1)
                             (next_genre_id d) (next_sync_log_id d) in
        (Ok l, set_db d' w)
    end).

(** [Where("tmdb_id = ?", tmdbID).FirstOrCreate(&genre, Genre{TMDBID, Name})]. *)
Definition FirstOrCreateGenre (tmdbID : Z) (name : string) : IO (Result Genre.t) :=
  call (OpGenreFirstOrCreate tmdbID) (fun w =>
    let d := db w in
    match List.find (fun g => Genre.TMDBID g =? tmdbID) (genres d) with
    | Some g => (Ok g, w)
    | None =>
        let g := Genre.mk (next_genre_id d) tmdbID name (clock w) (clock w) in
        let d' := mkDatabase (movies d) (languages d) (genres d ++ [g]) (movie_genres d)
                             (sync_logs d) (next_movie_id d) (next_language_id d)
                             (next_genre_id d + 1) (next_sync_log_id d) in
        (Ok g, set_db d' w)
    end).

(** [db.Create(log)]. *)
Definition CreateSyncLog (l : SyncLog.t) : IO (Result SyncLog.t) :=
  call OpSyncLogCreate (fun w =>
    let d := db w in
    let created := if SyncLog.CreatedAt l =? 0 then clock w else SyncLog.CreatedAt l in
    let l' := SyncLog.mk (next_sync_log_id d) (SyncLog.SyncType l) (SyncLog.Status l)
                         (SyncLog.MoviesAdded l) (SyncLog.MoviesUpdated l)
                         (SyncLog.ErrorMessage l) (SyncLog.SyncedAt l) created in
    let d' := mkDatabase (movies d) (languages d) (genres d) (movie_genres d)
                         (sync_logs d ++ [l']) (next_movie_id d) (next_language_id d)
                         (next_genre_id d) (next_sync_log_id d + 1) in
    (Ok l', emit (EvSyncLogInserted (SyncLog.ID l')) (set_db d' w))).

(** PostgreSQL's text-to-integer cast: blanks around an optionally signed
    run of digits; anything else is an error. *)
Definition is_blank (c : ascii) : bool :=
  let n := nat_of_ascii c in
  (Nat.eqb n 32) || ((Nat.leb 9 n) && (Nat.leb n 13)).
Fixpoint skip_blanks (s : string) : string :=
  match s with
  | String c s' => if is_blank c then skip_blanks s' else s
  | EmptyString => EmptyString
  end.
(** digits, then only blanks *)
Fixpoint digits_then_blanks (s : string) (acc : Z) (seen : bool) : option Z :=
  match s with
  | EmptyString => if seen then Some acc else None
  | String c s' =>
      match Strconv.digit c with
      | Some d => digits_then_blanks s' (10 * acc + d) true
      | None =>
          if seen && is_blank c
          then match skip_blanks s' with
               | EmptyString => Some acc
               | _ => None
               end
          else None
      end
  end.
Definition cast_integer (s : string) : option Z :=
  match skip_blanks s with
  | String "-" s' => option_map Z.opp (digits_then_blanks s' 0 false)
  | String "+" s' => digits_then_blanks s' 0 false
  | s' => digits_then_blanks s' 0 false
  end.

(** [SUBSTRING(release_date, 6, 2)]. *)
Definition month_text (r : Movie.t) : string :=
  String.substring 5 2 (Movie.ReleaseDate r).

(** [release_date LIKE yearStr || '%' AND LENGTH(release_date) >= 7]
    (for a [yearStr] of digits, which has no pattern character). *)
Definition in_year (yearStr : string) (r : Movie.t) : bool :=
  Strings.HasPrefix (Movie.ReleaseDate r) yearStr
  && (7 <=? Z.of_nat (String.length (Movie.ReleaseDate r))).

Fixpoint cast_groups (keys groups : list string) : option (list (Z * Z)) :=
  match groups with
  | [] => Some []
  | k :: ks =>
      match cast_integer k, cast_groups keys ks with
      | Some m, Some rest =>
          Some ((m, Z.of_nat (length (List.filter (String.eqb k) keys))) :: rest)
      | _, _ => None
      end
  end.

(** ORDER BY month. *)
Definition month_le (a b : Z * Z) : Prop := fst a <= fst b.
#[global] Instance month_le_dec : RelDecision month_le.
Proof. intros a b. unfold month_le. apply Z_le_dec. Defined.

(** SELECT CAST(SUBSTRING(release_date, 6, 2) AS INTEGER) AS month, COUNT( * )
    ... GROUP BY SUBSTRING(release_date, 6, 2) ORDER BY month. *)
Definition FindMonthCounts (yearStr : string) : IO (Result (list (Z * Z))) :=
  call (OpMovieMonthCounts yearStr) (fun w =>
    let keys := map month_text (List.filter (in_year yearStr) (movies (db w))) in
    match cast_groups keys (List.nodup string_dec keys) with
    | Some rows => (Ok (merge_sort month_le rows), w)
    | None => (Err ErrInvalidInteger, w)
    end).

End Gorm.

(** ** The object store and the TMDB API *)
Module Minio.

(** [client.RemoveObject(ctx, bucket, key, opts)]: removing a key that is
    not there succeeds. *)
Definition RemoveObject (key : string) : IO (Result unit) :=
  call (OpRemoveObject key) (fun w =>
    (Ok tt, emit (EvObjectRemoved key) (set_objects (objects w ∖ {[ key ]}) w))).

End Minio.

(** [s.httpClient.Do(req)] on the popular-movies URL of a page, with the
    status check and the JSON decoding of [fetchPopularMoviesFromTMDB]. *)
Module Tmdb.

Definition GetPopular (page : Z) : IO (Result (list TMDBMovieResponse.t)) :=
  fun w => (tmdb w page, emit (EvFetch page) (tick w)).

End Tmdb.

(** ** Package [repository]

    A Go return [( *T, error)] is a [Result (option T)]: [Err e] for
    [(nil, e)], [Ok None] for [(nil, nil)], [Ok (Some v)] for [(&v, nil)];
    where the function never returns [(nil, nil)] it is a [Result T]. *)

Module movieRepository.

Definition Create (movie : Movie.t) : IO (option error) :=
  r <- Gorm.CreateMovie movie ;;
  ret (match r with Ok _ => None | Err e => Some e end).

Definition Update (movie : Movie.t) : IO (option error) :=
  r <- Gorm.SaveMovie movie ;;
  ret (match r with Ok _ => None | Err e => Some e end).

Definition Delete (id : Z) : IO (option error) :=
  r <- Gorm.DeleteMovie id ;;
  ret (match r with Ok _ => None | Err e => Some e end).

Definition FindByID (id : Z) : IO (Result (option Movie.t)) :=
  r <- Gorm.FirstMovieByID id ;;
  match r with
  | Err err =>
      if String.eqb err Gorm.ErrRecordNotFound
      then ret (Err "movie not found"%string)
      else ret (Err err)
  | Ok movie => ret (Ok (Some movie))
  end.

Definition FindByTMDBID (tmdbID : Z) : IO (Result (option Movie.t)) :=
  r <- Gorm.FirstMovieByTMDBID tmdbID ;;
  match r with
  | Err err =>
      if String.eqb err Gorm.ErrRecordNotFound
      then ret (Ok None)
      else ret (Err err)
  | Ok movie => ret (Ok (Some movie))
  end.

Definition validSortFields : gmap string bool :=
  list_to_map [("id"%string, true); ("title"%string, true); ("release_date"%string, true);
               ("vote_average"%string, true); ("popularity"%string, true);
               ("created_at"%string, true); ("updated_at"%string, true)].

Definition FindAll (page limit : Z) (search sortBy order startDate endDate : string)
  : IO (list Movie.t * Z * option error) :=
  let searchPattern :=
    if negb (String.eqb search "") then ("%" +:+ search +:+ "%")%string else ""%string in
  let sortBy := if negb (default false (validSortFields !! sortBy))
                then "updated_at"%string else sortBy in
  let order := if negb (String.eqb order "ASC") && negb (String.eqb order "asc")
               then "DESC"%string else order in
  let offset := wrap64 (wrap64 (page - 1) * limit) in
  let q := mkListQuery searchPattern startDate endDate (sortBy +:+ " " +:+ order)
                       offset limit in
  r <- Gorm.CountMovies q ;;
  match r with
  | Err err => ret ([], 0, Some err)
  | Ok total =>
      r <- Gorm.FindMovies q ;;
      match r with
      | Err err => ret ([], 0, Some err)
      | Ok movies => ret (movies, total, None)
      end
  end.

Definition CreateSyncLog (log : SyncLog.t) : IO (SyncLog.t * option error) :=
  r <- Gorm.CreateSyncLog log ;;
  ret (match r with Ok log' => (log', None) | Err e => (log, Some e) end).

Definition months : list string :=
  ["Jan"; "Feb"; "Mar"; "Apr"; "May"; "Jun"; "Jul"; "Aug"; "Sep"; "Oct"; "Nov"; "Dec"]%string.

(** [string(rune(r))] for a rune below 128, a single byte. *)
Definition rune_string (r : Z) : string :=
  String (ascii_of_nat (Z.to_nat r)) EmptyString.

Definition yearStr (year : Z) : string :=
  (rune_string (48 + Z.quot year 1000)
   +:+ rune_string (48 + Z.rem (Z.quot year 100) 10)
   +:+ rune_string (48 + Z.rem (Z.quot year 10) 10)
   +:+ rune_string (48 + Z.rem year 10))%string.

Definition GetMoviesByMonth (year : Z) : IO (list ColumnChartData.t * option error) :=
  r <- Gorm.FindMonthCounts (yearStr year) ;;
  match r with
  | Err err => ret ([], Some err)
  | Ok monthCounts =>
      let monthMap : gmap Z Z :=
        fold_left (fun (m : gmap Z Z) mc => <[fst mc := snd mc]> m) monthCounts ∅ in
      let results :=
        imap (fun i month =>
                ColumnChartData.mk month (default 0 (monthMap !! (Z.of_nat i + 1))))
             months in
      ret (results, None)
  end.

End movieRepository.

Module languageRepository.

Definition FindByCode (code : string) : IO (Result (option Language.t)) :=
  r <- Gorm.FirstLanguage code ;;
  match r with
  | Err err =>
      if String.eqb err Gorm.ErrRecordNotFound
      then ret (Ok None)
      else ret (Err err)
  | Ok language => ret (Ok (Some language))
  end.

Definition FindOrCreate (code name : string) : IO (Result Language.t) :=
  Gorm.FirstOrCreateLanguage code name.

End languageRepository.

Module genreRepository.

Definition FindOrCreate (tmdbID : Z) (name : string) : IO (Result Genre.t) :=
  Gorm.FirstOrCreateGenre tmdbID name.

End genreRepository.

(** ** Package [services] *)

Module MinIOService.

Record t := mk {
  bucket : string;
  publicURL : string
}.

Definition DeleteFile (s : t) (objectPath : string) : IO (option error) :=
  let objectPath :=
    if Strings.Contains objectPath "http"
    then
      let parts := Strings.Split objectPath "/" in
      if 0 <? Z.of_nat (length parts) then Strings.last_part parts else objectPath
    else objectPath in
  let objectPath := Strings.TrimPrefix objectPath (bucket s +:+ "/") in
  r <- Minio.RemoveObject objectPath ;;
  match r with
  | Err err => ret (Some ("failed to delete file: " +:+ err)%string)
  | Ok _ => ret None
  end.

(** [uuid] is the text of [uuid.New()] (36 characters: hexadecimal digits
    and dashes) and [presign] what the client's [PresignedPutObject] answers
    for an object key of the bucket. *)
Definition GeneratePresignedURL (s : t) (filename contentType : string)
           (uuid : string) (presign : string -> Result string)
  : string * string * option error :=
  let ext := Filepath.Ext filename in
  let nameWithoutExt := Strings.TrimSuffix filename ext in
  let uniqueFilename := (nameWithoutExt +:+ "_" +:+ Strings.slice_to uuid 8 +:+ ext)%string in
  let objectPath := uniqueFilename in
  match presign objectPath with
  | Err err => (""%string, ""%string, Some ("failed to generate presigned URL: " +:+ err)%string)
  | Ok presignedURL =>
      let publicBase := Strings.TrimPrefix (publicURL s) "https://" in
      let publicBase := Strings.TrimPrefix publicBase "http://" in
      let idx := Strings.Index publicBase "/" in
      let publicBase := if negb (idx =? -1) then Strings.slice_to publicBase idx
                        else publicBase in
      let protocol := if Strings.Contains (publicURL s) "https://"
                      then "https://"%string else "http://"%string in
      let publicURL :=
        (protocol +:+ publicBase +:+ "/" +:+ bucket s +:+ "/" +:+ objectPath)%string in
      (presignedURL, publicURL, None)
  end.

End MinIOService.

Module movieService.

Record t := mk {
  config_MinIO_BucketName : string;
  minioService : option MinIOService.t
}.

Definition CreateMovie (s : t) (movie : Movie.t) : IO (option error) :=
  if String.eqb (Movie.Title movie) ""
  then ret (Some "movie title is required"%string)
  else
    refused <-
      (if 0 <? Movie.TMDBID movie
       then
         r <- movieRepository.FindByTMDBID (Movie.TMDBID movie) ;;
         match r with
         | Err err => ret (Some ("failed to check existing movie: " +:+ err)%string)
         | Ok (Some _) =>
             ret (Some ("movie with TMDB ID " +:+ pretty (Movie.TMDBID movie)
                        +:+ " already exists")%string)
         | Ok None => ret None
         end
       else ret None) ;;
    match refused with
    | Some err => ret (Some err)
    | None => movieRepository.Create movie
    end.

(** What [UpdateMovie] and [DeleteMovie] do with an old poster or backdrop
    path once their own guard has passed: a URL of the bucket has its last
    segment, cut at the first ["?"], deleted; a failure is only logged. *)
Definition deleteStoredImage (s : t) (minio : MinIOService.t) (oldPath : string) : IO unit :=
  if Strings.Contains oldPath "http"
     && Strings.Contains oldPath (config_MinIO_BucketName s)
  then
    let parts := Strings.Split oldPath "/" in
    if 0 <? Z.of_nat (length parts)
    then
      let filename := Strings.last_part parts in
      let idx := Strings.Index filename "?" in
      let filename := if negb (idx =? -1) then Strings.slice_to filename idx else filename in
      _ <- MinIOService.DeleteFile minio filename ;;
      ret tt
    else ret tt
  else ret tt.

(** The block [if s.minioService != nil { ... }] of [UpdateMovie]: an old
    poster or backdrop that the request replaces is deleted. *)
Definition deleteReplacedImages (s : t) (movie existing : Movie.t) : IO unit :=
  match minioService s with
  | Some minio =>
      _ <- (if negb (String.eqb (Movie.PosterPath movie) "")
               && negb (String.eqb (Movie.PosterPath movie) (Movie.PosterPath existing))
            then deleteStoredImage s minio (Movie.PosterPath existing)
            else ret tt) ;;
      if negb (String.eqb (Movie.BackdropPath movie) "")
         && negb (String.eqb (Movie.BackdropPath movie) (Movie.BackdropPath existing))
      then deleteStoredImage s minio (Movie.BackdropPath existing)
      else ret tt
  | None => ret tt
  end.

Definition UpdateMovie (s : t) (id : Z) (movie : Movie.t) : IO (option error) :=
  r <- movieRepository.FindByID id ;;
  match r with
  | Err err => ret (Some err)
  | Ok None => ret (Some ("movie with ID " +:+ pretty id +:+ " not found")%string)
  | Ok (Some existing) =>
      _ <- deleteReplacedImages s movie existing ;;
      let movie := Movie.set_ID id movie in
      let movie := Movie.set_CreatedAt (Movie.CreatedAt existing) movie in
      let movie := Movie.set_TMDBID (Movie.TMDBID existing) movie in
      movieRepository.Update movie
  end.

(** The block [if s.minioService != nil { ... }] of [DeleteMovie]. *)
Definition deleteImages (s : t) (existing : Movie.t) : IO unit :=
  match minioService s with
  | Some minio =>
      _ <- (if negb (String.eqb (Movie.PosterPath existing) "")
            then deleteStoredImage s minio (Movie.PosterPath existing)
            else ret tt) ;;
      if negb (String.eqb (Movie.BackdropPath existing) "")
      then deleteStoredImage s minio (Movie.BackdropPath existing)
      else ret tt
  | None => ret tt
  end.

Definition DeleteMovie (s : t) (id : Z) : IO (option error) :=
  r <- movieRepository.FindByID id ;;
  match r with
  | Err err => ret (Some err)
  | Ok None => ret (Some ("movie with ID " +:+ pretty id +:+ " not found")%string)
  | Ok (Some existing) =>
      _ <- deleteImages s existing ;;
      movieRepository.Delete id
  end.

Definition GetMovieByID (s : t) (id : Z) : IO (Result (option Movie.t)) :=
  movieRepository.FindByID id.

Definition GetAllMovies (s : t) (page limit : Z)
           (search sortBy order startDate endDate : string)
  : IO (list Movie.t * Z * option error) :=
  let page := if page <? 1 then 1 else page in
  let limit := if limit <? 1 then 20 else limit in
  let limit := if 100 <? limit then 100 else limit in
  movieRepository.FindAll page limit search sortBy order startDate endDate.

Definition genreMap : gmap Z string :=
  list_to_map
    [(28, "Action"); (12, "Adventure"); (16, "Animation"); (35, "Comedy"); (80, "Crime");
     (99, "Documentary"); (18, "Drama"); (10751, "Family"); (14, "Fantasy"); (36, "History");
     (27, "Horror"); (10402, "Music"); (9648, "Mystery"); (10749, "Romance");
     (878, "Science Fiction"); (10770, "TV Movie"); (53, "Thriller"); (10752, "War");
     (37, "Western")]%string.

Definition getGenreName (genreID : Z) : string :=
  match genreMap !! genreID with
  | Some name => name
  | None => ("Genre " +:+ pretty genreID)%string
  end.

Definition langMap : gmap string string :=
  list_to_map
    [("en", "English"); ("ja", "Japanese"); ("ko", "Korean"); ("zh", "Chinese");
     ("es", "Spanish"); ("fr", "French"); ("de", "German"); ("it", "Italian");
     ("pt", "Portuguese"); ("ru", "Russian"); ("hi", "Hindi"); ("th", "Thai");
     ("id", "Indonesian"); ("tr", "Turkish"); ("ar", "Arabic"); ("pl", "Polish");
     ("nl", "Dutch"); ("sv", "Swedish"); ("no", "Norwegian"); ("da", "Danish");
     ("fi", "Finnish"); ("cs", "Czech"); ("hu", "Hungarian"); ("ro", "Romanian")]%string.

Definition getLanguageName (langCode : string) : string :=
  match langMap !! langCode with
  | Some name => name
  | None => langCode
  end.

(** [for _, genreID := range tmdbMovie.GenreIDs]: a genre that cannot be
    resolved is left out ([continue] of this inner loop). *)
Fixpoint resolveGenres (genreIDs : list Z) (genres : list Genre.t) : IO (list Genre.t) :=
  match genreIDs with
  | [] => ret genres
  | genreID :: rest =>
      let genreName := getGenreName genreID in
      r <- genreRepository.FindOrCreate genreID genreName ;;
      match r with
      | Err _ => resolveGenres rest genres
      | Ok genre => resolveGenres rest (genres ++ [genre])
      end
  end.

(** The body of [for _, tmdbMovie := range movies], on the counters
    [(moviesAdded, moviesUpdated)].  The counters count fetched items, so
    they stay far below [maxInt64]. *)
Definition syncMovie (tmdbMovie : TMDBMovieResponse.t) (counts : Z * Z) : IO (Z * Z) :=
  let '(moviesAdded, moviesUpdated) := counts in
  let langCode := TMDBMovieResponse.OriginalLanguage tmdbMovie in
  let langName := getLanguageName langCode in
  r <- languageRepository.FindOrCreate langCode langName ;;
  match r with
  | Err _ => ret (moviesAdded, moviesUpdated)
  | Ok language =>
      let movie :=
        Movie.mk 0
          (TMDBMovieResponse.ID tmdbMovie)
          (TMDBMovieResponse.Title tmdbMovie)
          (TMDBMovieResponse.OriginalTitle tmdbMovie)
          (TMDBMovieResponse.Overview tmdbMovie)
          (TMDBMovieResponse.ReleaseDate tmdbMovie)
          (TMDBMovieResponse.PosterPath tmdbMovie)
          (TMDBMovieResponse.BackdropPath tmdbMovie)
          (TMDBMovieResponse.VoteAverage tmdbMovie)
          (TMDBMovieResponse.VoteCount tmdbMovie)
          (TMDBMovieResponse.Popularity tmdbMovie)
          (TMDBMovieResponse.Adult tmdbMovie)
          (Some (Language.ID language))
          None [] 0 0 in
      genres <- resolveGenres (TMDBMovieResponse.GenreIDs tmdbMovie) [] ;;
      let movie := Movie.set_Genres genres movie in
      r <- movieRepository.FindByTMDBID (Movie.TMDBID movie) ;;
      match r with
      | Err _ => ret (moviesAdded, moviesUpdated)
      | Ok None =>
          err <- movieRepository.Create movie ;;
          match err with
          | Some _ => ret (moviesAdded, moviesUpdated)
          | None => ret (moviesAdded + 1, moviesUpdated)
          end
      | Ok (Some existing) =>
          let movie := Movie.set_ID (Movie.ID existing) movie in
          let movie := Movie.set_CreatedAt (Movie.CreatedAt existing) movie in
          err <- movieRepository.Update movie ;;
          match err with
          | Some _ => ret (moviesAdded, moviesUpdated)
          | None => ret (moviesAdded, moviesUpdated + 1)
          end
      end
  end.

Fixpoint syncMovies (movies : list TMDBMovieResponse.t) (counts : Z * Z) : IO (Z * Z) :=
  match movies with
  | [] => ret counts
  | tmdbMovie :: rest =>
      counts' <- syncMovie tmdbMovie counts ;;
      syncMovies rest counts'
  end.

Definition set_failure (msg : string) (l : SyncLog.t) : SyncLog.t :=
  SyncLog.mk (SyncLog.ID l) (SyncLog.SyncType l) (SyncLog.Status l)
             (SyncLog.MoviesAdded l) (SyncLog.MoviesUpdated l) msg
             (SyncLog.SyncedAt l) (SyncLog.CreatedAt l).

Definition set_success (added updated : Z) (l : SyncLog.t) : SyncLog.t :=
  SyncLog.mk (SyncLog.ID l) (SyncLog.SyncType l) "success"
             added updated (SyncLog.ErrorMessage l)
             (SyncLog.SyncedAt l) (SyncLog.CreatedAt l).

(** [for page := 1; page <= pages; page++], over the page numbers still to
    fetch.  [inl] is the early [return syncLog, err] of a failed fetch,
    [inr] the counters when the loop runs to its end. *)
Fixpoint syncPages (pageNumbers : list Z) (syncLog : SyncLog.t) (counts : Z * Z)
  : IO ((SyncLog.t * error) + (Z * Z)) :=
  match pageNumbers with
  | [] => ret (inr counts)
  | page :: rest =>
      r <- Tmdb.GetPopular page ;;
      match r with
      | Err err =>
          let syncLog :=
            set_failure ("failed to fetch page " +:+ pretty page +:+ ": " +:+ err)%string
                        syncLog in
          '(syncLog, _) <- movieRepository.CreateSyncLog syncLog ;;
          ret (inl (syncLog, err))
      | Ok movies =>
          counts' <- syncMovies movies counts ;;
          syncPages rest syncLog counts'
      end
  end.

Definition SyncMoviesFromTMDB (s : t) (pages : Z) : IO (SyncLog.t * option error) :=
  now <- Now ;;
  let syncLog := SyncLog.mk 0 "manual" "failed" 0 0 "" now 0 in
  let pages := if pages <? 1 then 1 else pages in
  let pages := if 10 <? pages then 10 else pages in
  r <- syncPages (seqZ 1 pages) syncLog (0, 0) ;;
  match r with
  | inl (syncLog, err) => ret (syncLog, Some err)
  | inr (moviesAdded, moviesUpdated) =>
      let syncLog := set_success moviesAdded moviesUpdated syncLog in
      '(syncLog, _) <- movieRepository.CreateSyncLog syncLog ;;
      ret (syncLog, None)
  end.

Definition GetMoviesByMonth (s : t) (year : Z) : IO (list ColumnChartData.t * option error) :=
  if (year <? 1900) || (2100 <? year)
  then ret ([], Some ("invalid year: " +:+ pretty year)%string)
  else movieRepository.GetMoviesByMonth year.

Definition GetLanguageByCode (s : t) (code : string) : IO (Result (option Language.t)) :=
  languageRepository.FindByCode code.

Definition CreateLanguage (s : t) (code name : string) : IO (Result Language.t) :=
  languageRepository.FindOrCreate code name.

End movieService.

(** ** Package [utils] *)

Module PaginationMeta.
Record t := mk {
  Page : Z;
  Limit : Z;
  Total : Z;
  TotalPages : Z;
  HasNext : bool;
  HasPrevious : bool
}.
End PaginationMeta.

Module utils.

(** The JSON envelope; the payload under [data] is left out. *)
Record StandardResponse := mkStandardResponse {
  Status : string;
  Code : Z;
  Message : string;
  Meta : option PaginationMeta.t
}.

(** What [c.Status(code).JSON(body)] sends. *)
Record Response := mkResponse {
  StatusCode : Z;
  Body : StandardResponse
}.

Definition SuccessResponse (code : Z) (message : string) : Response :=
  mkResponse code (mkStandardResponse "success" code message None).

Definition SuccessWithMetaResponse (code : Z) (message : string) (meta : PaginationMeta.t)
  : Response :=
  mkResponse code (mkStandardResponse "success" code message (Some meta)).

Definition ErrorResponse (code : Z) (message : string) : Response :=
  let status := if 500 <=? code then "fail"%string else "error"%string in
  mkResponse code (mkStandardResponse status code message None).

Definition ErrorWithDataResponse (code : Z) (message : string) : Response :=
  let status := if 500 <=? code then "fail"%string else "error"%string in
  mkResponse code (mkStandardResponse status code message None).

(** Go's integer division panics on a zero divisor and truncates toward
    zero otherwise. *)
Definition CreatePaginationMeta (page limit total : Z) : Outcome PaginationMeta.t :=
  if limit =? 0 then Panic "runtime error: integer divide by zero"
  else
    let totalPages := wrap64 (Z.quot (wrap64 (wrap64 (total + limit) - 1)) limit) in
    let totalPages := if totalPages =? 0 then 1 else totalPages in
    Done (PaginationMeta.mk page limit total totalPages (page <? totalPages) (1 <? page)).

End utils.

(** ** Package [handlers] *)

Module MovieRequest.
Record t := mk {
  TMDBID : Z;
  Title : string;
  OriginalTitle : string;
  Overview : string;
  ReleaseDate : string;
  PosterPath : string;
  BackdropPath : string;
  VoteAverage : float;
  VoteCount : Z;
  Popularity : float;
  Adult : bool;
  OriginalLanguage : string
}.
End MovieRequest.

(** The part of a [*fiber.Ctx] the handlers read: route parameters, query
    parameters, and what [c.BodyParser(&req)] yields ([None] when it
    returns an error). *)
Module fiber.

Record Ctx := mkCtx {
  params : gmap string string;
  queries : gmap string string;
  body : option MovieRequest.t
}.

Definition Params (c : Ctx) (key : string) : string :=
  default EmptyString (params c !! key).

(** [c.Query(key, defaultValue)]: the default replaces an absent or empty
    value. *)
Definition Query (c : Ctx) (key defaultValue : string) : string :=
  let value := default EmptyString (queries c !! key) in
  if Nat.eqb (String.length value) 0 then defaultValue else value.

Definition StatusOK : Z := 200.
Definition StatusCreated : Z := 201.
Definition StatusBadRequest : Z := 400.
Definition StatusNotFound : Z := 404.
Definition StatusInternalServerError : Z := 500.

End fiber.

Module MovieHandler.

Record t := mk {
  service : movieService.t
}.

Definition getLanguageName (langCode : string) : string :=
  match movieService.langMap !! langCode with
  | Some name => name
  | None => langCode
  end.

(** The type assertion on [h.service] succeeds: [movieService] has both
    methods. *)
Definition convertRequestToMovie (h : t) (req : MovieRequest.t) : IO (Result Movie.t) :=
  languageID <-
    (if negb (String.eqb (MovieRequest.OriginalLanguage req) "")
     then
       r <- movieService.GetLanguageByCode (service h) (MovieRequest.OriginalLanguage req) ;;
       match r with
       | Ok (Some lang) => ret (Some (Language.ID lang))
       | _ =>
           let langName := getLanguageName (MovieRequest.OriginalLanguage req) in
           r <- movieService.CreateLanguage (service h)
                  (MovieRequest.OriginalLanguage req) langName ;;
           match r with
           | Ok lang => ret (Some (Language.ID lang))
           | Err _ => ret None
           end
       end
     else ret None) ;;
  ret (Ok (Movie.mk 0
             (MovieRequest.TMDBID req)
             (MovieRequest.Title req)
             (MovieRequest.OriginalTitle req)
             (MovieRequest.Overview req)
             (MovieRequest.ReleaseDate req)
             (MovieRequest.PosterPath req)
             (MovieRequest.BackdropPath req)
             (MovieRequest.VoteAverage req)
             (MovieRequest.VoteCount req)
             (MovieRequest.Popularity req)
             (MovieRequest.Adult req)
             languageID None [] 0 0)).

Definition GetAllMovies (h : t) (c : fiber.Ctx) : IO (Outcome utils.Response) :=
  let '(page, _) := Strconv.Atoi (fiber.Query c "page" "1") in
  let '(limit, _) := Strconv.Atoi (fiber.Query c "limit" "20") in
  let search := fiber.Query c "search" "" in
  let sortBy := fiber.Query c "sort_by" "updated_at" in
  let order := fiber.Query c "order" "DESC" in
  let startDate := fiber.Query c "start_date" "" in
  let endDate := fiber.Query c "end_date" "" in
  '(movies, total, err) <-
     movieService.GetAllMovies (service h) page limit search sortBy order startDate endDate ;;
  match err with
  | Some _ =>
      ret (Done (utils.ErrorResponse fiber.StatusInternalServerError
                                     "Failed to retrieve movies"))
  | None =>
      match utils.CreatePaginationMeta page limit total with
      | Panic msg => ret (Panic msg)
      | Done meta =>
          ret (Done (utils.SuccessWithMetaResponse fiber.StatusOK
                       "Movies retrieved successfully" meta))
      end
  end.

Definition GetMovieByID (h : t) (c : fiber.Ctx) : IO (Outcome utils.Response) :=
  let '(id, err) := Strconv.ParseUint32 (fiber.Params c "id") in
  match err with
  | Some _ => ret (Done (utils.ErrorResponse fiber.StatusBadRequest "Invalid movie ID"))
  | None =>
      r <- movieService.GetMovieByID (service h) id ;;
      match r with
      | Err _ => ret (Done (utils.ErrorResponse fiber.StatusNotFound "Movie not found"))
      | Ok _ =>
          ret (Done (utils.SuccessResponse fiber.StatusOK "Movie retrieved successfully"))
      end
  end.

Definition UpdateMovie (h : t) (c : fiber.Ctx) : IO (Outcome utils.Response) :=
  let '(id, err) := Strconv.ParseUint32 (fiber.Params c "id") in
  match err with
  | Some _ => ret (Done (utils.ErrorResponse fiber.StatusBadRequest "Invalid movie ID"))
  | None =>
      match fiber.body c with
      | None => ret (Done (utils.ErrorResponse fiber.StatusBadRequest "Invalid request body"))
      | Some req =>
          r <- convertRequestToMovie h req ;;
          match r with
          | Err err => ret (Done (utils.ErrorResponse fiber.StatusBadRequest err))
          | Ok movie =>
              err <- movieService.UpdateMovie (service h) id movie ;;
              match err with
              | Some err =>
                  ret (Done (utils.ErrorResponse fiber.StatusInternalServerError err))
              | None =>
                  ret (Done (utils.SuccessResponse fiber.StatusOK
                                                   "Movie updated successfully"))
              end
          end
      end
  end.

Definition DeleteMovie (h : t) (c : fiber.Ctx) : IO (Outcome utils.Response) :=
  let '(id, err) := Strconv.ParseUint32 (fiber.Params c "id") in
  match err with
  | Some _ => ret (Done (utils.ErrorResponse fiber.StatusBadRequest "Invalid movie ID"))
  | None =>
      err <- movieService.DeleteMovie (service h) id ;;
      match err with
      | Some err => ret (Done (utils.ErrorResponse fiber.StatusInternalServerError err))
      | None => ret (Done (utils.SuccessResponse fiber.StatusOK "Movie deleted successfully"))
      end
  end.

Definition CreateMovie (h : t) (c : fiber.Ctx) : IO (Outcome utils.Response) :=
  match fiber.body c with
  | None => ret (Done (utils.ErrorResponse fiber.StatusBadRequest "Invalid request body"))
  | Some req =>
      r <- convertRequestToMovie h req ;;
      match r with
      | Err err => ret (Done (utils.ErrorResponse fiber.StatusBadRequest err))
      | Ok movie =>
          err <- movieService.CreateMovie (service h) movie ;;
          match err with
          | Some err =>
              ret (Done (utils.ErrorResponse fiber.StatusInternalServerError err))
          | None =>
              ret (Done (utils.SuccessResponse fiber.StatusCreated
                                               "Movie created successfully"))
          end
      end
  end.

Definition SyncMoviesFromTMDB (h : t) (c : fiber.Ctx) : IO (Outcome utils.Response) :=
  let '(pages, _) := Strconv.Atoi (fiber.Query c "pages" "1") in
  '(syncLog, err) <- movieService.SyncMoviesFromTMDB (service h) pages ;;
  match err with
  | Some _ =>
      ret (Done (utils.ErrorWithDataResponse fiber.StatusInternalServerError
                                             "Failed to sync movies"))
  | None => ret (Done (utils.SuccessResponse fiber.StatusOK "Movies synced successfully"))
  end.

Definition GetMonthlyChartData (h : t) (c : fiber.Ctx) : IO (Outcome utils.Response) :=
  let '(year, err) := Strconv.Atoi (fiber.Params c "year") in
  match err with
  | Some _ => ret (Done (utils.ErrorResponse fiber.StatusBadRequest "Invalid year format"))
  | None =>
      '(data, err) <- movieService.GetMoviesByMonth (service h) year ;;
      match err with
      | Some _ =>
          ret (Done (utils.ErrorResponse fiber.StatusInternalServerError
                                         "Failed to retrieve monthly chart data"))
      | None =>
          ret (Done (utils.SuccessResponse fiber.StatusOK
                                           "Monthly chart data retrieved successfully"))
      end
  end.

End MovieHandler.

Module UploadHandler.

Record t := mk {
  minioService : MinIOService.t
}.

(** The handler reads the request only; the fresh UUID and the signing
    client are those of [MinIOService.GeneratePresignedURL]. *)
Definition GetPresignedURL (h : t) (c : fiber.Ctx)
           (uuid : string) (presign : string -> Result string) : Outcome utils.Response :=
  let filename := fiber.Query c "filename" "" in
  if String.eqb filename ""
  then Done (utils.ErrorResponse fiber.StatusBadRequest "filename is required")
  else
    let contentType := fiber.Query c "contentType" "image/jpeg" in
    let '(presignedURL, publicURL, err) :=
      MinIOService.GeneratePresignedURL (minioService h) filename contentType uuid presign in
    match err with
    | Some _ =>
        Done (utils.ErrorResponse fiber.StatusInternalServerError
                                  "Failed to generate presigned URL")
    | None =>
        Done (utils.SuccessResponse fiber.StatusOK "Presigned URL generated successfully")
    end.

End UploadHandler.

(** ** Vocabulary of the statements *)

(** What a stretch of the trace did. *)
Definition fetched_pages (evs : list Event) : list Z :=
  omap (fun e => match e with EvFetch p => Some p | _ => None end) evs.
Definition inserted_movies (evs : list Event) : list Z :=
  omap (fun e => match e with EvMovieInserted i => Some i | _ => None end) evs.
Definition updated_movies (evs : list Event) : list Z :=
  omap (fun e => match e with EvMovieUpdated i => Some i | _ => None end) evs.
Definition inserted_logs (evs : list Event) : list Z :=
  omap (fun e => match e with EvSyncLogInserted i => Some i | _ => None end) evs.

(** [w'] is [w] after some calls: the outside is the same, time has not
    gone back, and [evs] is what was done. *)
Definition steps (w w' : World) (evs : list Event) : Prop :=
  trace w' = trace w ++ evs
  /\ fault w' = fault w /\ tmdb w' = tmdb w
  /\ count_movies w' = count_movies w /\ select_movies w' = select_movies w
  /\ clock w <= clock w'.

Definition keeps_movies (w w' : World) : Prop :=
  movies (db w') = movies (db w)
  /\ movie_genres (db w') = movie_genres (db w)
  /\ next_movie_id (db w') = next_movie_id (db w).

Definition keeps_logs (w w' : World) : Prop :=
  sync_logs (db w') = sync_logs (db w)
  /\ next_sync_log_id (db w') = next_sync_log_id (db w).

(** A call that leaves the tables of movies and logs alone and does nothing
    the trace records. *)
Definition quiet (w w' : World) : Prop :=
  steps w w' [] /\ keeps_movies w w' /\ keeps_logs w w'.

(** A stretch of the trace that holds writes to [movies] only. *)
Definition only_movie_writes (evs : list Event) : Prop :=
  fetched_pages evs = [] /\ inserted_logs evs = [].

(** The counters [c'] are the counters [c] plus the inserts and updates of
    [evs], and the table has grown by the inserts. *)
Definition counted (c c' : Z * Z) (w w' : World) (evs : list Event) : Prop :=
  fst c' = fst c + Z.of_nat (length (inserted_movies evs))
  /\ snd c' = snd c + Z.of_nat (length (updated_movies evs))
  /\ Z.of_nat (length (movies (db w')))
     = Z.of_nat (length (movies (db w))) + Z.of_nat (length (inserted_movies evs)).

(** No call to the store or the object store fails. *)
Definition no_faults (w : World) : Prop := forall op t, fault w op t = None.

(** The invariants of the [movies] table: primary keys are positive, below
    the (positive) sequence and distinct; external ids are distinct (unique
    index). *)
Definition wf_db (d : Database) : Prop :=
  NoDup (map Movie.ID (movies d))
  /\ NoDup (map Movie.TMDBID (movies d))
  /\ Forall (fun r => 0 < Movie.ID r < next_movie_id d) (movies d)
  /\ 0 < next_movie_id d.

Definition rows_with_tmdb_id (x : Z) (d : Database) : list Movie.t :=
  List.filter (fun r => Movie.TMDBID r =? x) (movies d).

(** The stored row [row] carries the payload of the TMDB item [it], with the
    language resolved to [lid]. *)
Definition carries_item (row : Movie.t) (it : TMDBMovieResponse.t) : Prop :=
  Movie.TMDBID row = TMDBMovieResponse.ID it
  /\ Movie.Title row = TMDBMovieResponse.Title it
  /\ Movie.OriginalTitle row = TMDBMovieResponse.OriginalTitle it
  /\ Movie.Overview row = TMDBMovieResponse.Overview it
  /\ Movie.ReleaseDate row = TMDBMovieResponse.ReleaseDate it
  /\ Movie.PosterPath row = TMDBMovieResponse.PosterPath it
  /\ Movie.BackdropPath row = TMDBMovieResponse.BackdropPath it
  /\ Movie.VoteAverage row = TMDBMovieResponse.VoteAverage it
  /\ Movie.VoteCount row = TMDBMovieResponse.VoteCount it
  /\ Movie.Popularity row = TMDBMovieResponse.Popularity it
  /\ Movie.Adult row = TMDBMovieResponse.Adult it.

(** The language column of [row] is the key of a stored language whose code
    is the original language of [it]. *)
Definition language_resolved (row : Movie.t) (it : TMDBMovieResponse.t) (d : Database)
  : Prop :=
  exists lang,
    In lang (languages d)
    /\ Language.Code lang = TMDBMovieResponse.OriginalLanguage it
    /\ Movie.LanguageID row = Some (Language.ID lang).

(** The genre with external id [gid] is stored and linked to [row] in the
    join table. *)
Definition genre_linked (row : Movie.t) (gid : Z) (d : Database) : Prop :=
  exists g,
    In g (genres d) /\ Genre.TMDBID g = gid
    /\ Gorm.has_link (Movie.ID row) (Genre.ID g) (movie_genres d) = true.

(** Each genre id of [it] that the world lets resolve is linked to [row]. *)
Definition genres_linked (row : Movie.t) (it : TMDBMovieResponse.t) (w : World)
           (d : Database) : Prop :=
  forall gid,
    In gid (TMDBMovieResponse.GenreIDs it) ->
    (forall t, fault w (OpGenreFirstOrCreate gid) t = None) ->
    genre_linked row gid d.

(** The stored row [row] carries the values supplied in [m], key, external
    id and timestamps apart. *)
Definition carries_supplied (row m : Movie.t) : Prop :=
  Movie.Title row = Movie.Title m
  /\ Movie.OriginalTitle row = Movie.OriginalTitle m
  /\ Movie.Overview row = Movie.Overview m
  /\ Movie.ReleaseDate row = Movie.ReleaseDate m
  /\ Movie.PosterPath row = Movie.PosterPath m
  /\ Movie.BackdropPath row = Movie.BackdropPath m
  /\ Movie.VoteAverage row = Movie.VoteAverage m
  /\ Movie.VoteCount row = Movie.VoteCount m
  /\ Movie.Popularity row = Movie.Popularity m
  /\ Movie.Adult row = Movie.Adult m
  /\ Movie.LanguageID row = Movie.LanguageID m.

(** The movie [m] is what a request [req] asks for: its fields, and no key,
    associations or timestamps yet. *)
Definition carries_request (m : Movie.t) (req : MovieRequest.t) : Prop :=
  Movie.ID m = 0
  /\ Movie.TMDBID m = MovieRequest.TMDBID req
  /\ Movie.Title m = MovieRequest.Title req
  /\ Movie.OriginalTitle m = MovieRequest.OriginalTitle req
  /\ Movie.Overview m = MovieRequest.Overview req
  /\ Movie.ReleaseDate m = MovieRequest.ReleaseDate req
  /\ Movie.PosterPath m = MovieRequest.PosterPath req
  /\ Movie.BackdropPath m = MovieRequest.BackdropPath req
  /\ Movie.VoteAverage m = MovieRequest.VoteAverage req
  /\ Movie.VoteCount m = MovieRequest.VoteCount req
  /\ Movie.Popularity m = MovieRequest.Popularity req
  /\ Movie.Adult m = MovieRequest.Adult req
  /\ Movie.Language m = None /\ Movie.Genres m = []
  /\ Movie.CreatedAt m = 0 /\ Movie.UpdatedAt m = 0.

(** What identifies a stored movie over time: its key, its external id and
    its creation time. *)
Definition identity (r : Movie.t) : Z * Z * Time :=
  (Movie.ID r, Movie.TMDBID r, Movie.CreatedAt r).

(** The items TMDB serves on the pages 1..[n]. *)
Definition served_items (w : World) (n : Z) : list TMDBMovieResponse.t :=
  flat_map (fun p => match tmdb w p with Ok ms => ms | Err _ => [] end) (seqZ 1 n).

(** The status code of what a handler sent, if it sent anything. *)
Definition status_code (o : Outcome utils.Response) : option Z :=
  match o with
  | Done r => Some (utils.StatusCode r)
  | Panic _ => None
  end.

(** A response is well formed: the envelope repeats the HTTP status, which
    is one the API documents, and names its class. *)
Definition envelope_ok (r : utils.Response) : Prop :=
  utils.Code (utils.Body r) = utils.StatusCode r
  /\ utils.Status (utils.Body r)
     = (if utils.StatusCode r <? 400 then "success"%string
        else if utils.StatusCode r <? 500 then "error"%string else "fail"%string)
  /\ In (utils.StatusCode r) [200; 201; 400; 404; 500].

(** A stored movie counts for month [m] of the year written [ys]. *)
Definition in_month (ys : string) (m : Z) (r : Movie.t) : bool :=
  Gorm.in_year ys r
  && match Gorm.cast_integer (Gorm.month_text r) with
     | Some m' => m' =? m
     | None => false
     end.

(** The invariants of the reference tables [languages] and [genres]: keys
    are distinct and below the sequence; language codes and external genre
    ids are distinct (unique indexes). *)
Definition wf_refs (d : Database) : Prop :=
  NoDup (map Language.ID (languages d))
  /\ NoDup (map Language.Code (languages d))
  /\ Forall (fun l => Language.ID l < next_language_id d) (languages d)
  /\ NoDup (map Genre.ID (genres d))
  /\ NoDup (map Genre.TMDBID (genres d))
  /\ Forall (fun g => Genre.ID g < next_genre_id d) (genres d).

(** The reference tables of [d'] are those of [d] with rows added at the
    end. *)
Definition grows (d d' : Database) : Prop :=
  (exists ls, languages d' = languages d ++ ls)
  /\ (exists gs, genres d' = genres d ++ gs).

(** An operation that, run from any world, keeps the invariants of the
    reference tables and only adds rows to them. *)
Definition keeps_refs {A} (m : IO A) : Prop :=
  forall w, (wf_refs (db w) -> wf_refs (db (snd (m w))))
            /\ grows (db w) (db (snd (m w))).

(** The instant of the lookup by external id in the loop body for [it]
    started in [w]: every store call takes one tick, and the language call
    and one call per genre id come first. *)
Definition lookup_time (it : TMDBMovieResponse.t) (w : World) : Time :=
  clock w + 1 + Z.of_nat (length (TMDBMovieResponse.GenreIDs it)).

(** The call that resolves genre [gid] of [it], at one of the positions of
    [gid] among the genre ids of the item, does not fail. *)
Definition genre_resolves (it : TMDBMovieResponse.t) (w : World) (gid : Z) : Prop :=
  exists i : nat,
    TMDBMovieResponse.GenreIDs it !! i = Some gid
    /\ fault w (OpGenreFirstOrCreate gid) (clock w + 1 + Z.of_nat i) = None.

(** What the write of [row] for the item [it], started in [w], did to the
    join table: the links stored before are kept, every genre of the item
    that resolves is linked to the row, and no other link is added. *)
Definition links_written (row : Movie.t) (it : TMDBMovieResponse.t) (w : World)
           (d : Database) : Prop :=
  (forall l, In l (movie_genres (db w)) -> In l (movie_genres d))
  /\ (forall gid, genre_resolves it w gid -> genre_linked row gid d)
  /\ (forall mid g,
         In (mid, g) (movie_genres d) ->
         In (mid, g) (movie_genres (db w))
         \/ (mid = Movie.ID row
             /\ exists genre, In genre (genres d) /\ Genre.ID genre = g
                              /\ genre_resolves it w (Genre.TMDBID genre))).

(** A call of the loop body for [it] fails at its instant: the language
    call, the lookup, the insert of an item that is not stored, or the save
    of the row stored under its external id. *)
Definition skip_cause (it : TMDBMovieResponse.t) (w : World) : Prop :=
  fault w (OpLanguageFirstOrCreate (TMDBMovieResponse.OriginalLanguage it)) (clock w) <> None
  \/ fault w (OpMovieFirstByTMDBID (TMDBMovieResponse.ID it)) (lookup_time it w) <> None
  \/ (Gorm.first_by_tmdb_id (TMDBMovieResponse.ID it) (movies (db w)) = None
      /\ fault w (OpMovieCreate (TMDBMovieResponse.ID it)) (lookup_time it w + 1) <> None)
  \/ (exists e, Gorm.first_by_tmdb_id (TMDBMovieResponse.ID it) (movies (db w)) = Some e
                /\ fault w (OpMovieSave (Movie.ID e)) (lookup_time it w + 1) <> None).

(** None of the calls the loop body makes for [it] itself, the genre calls
    apart, ever fails. *)
Definition calls_succeed (w : World) (it : TMDBMovieResponse.t) : Prop :=
  forall t,
    fault w (OpLanguageFirstOrCreate (TMDBMovieResponse.OriginalLanguage it)) t = None
    /\ fault w (OpMovieFirstByTMDBID (TMDBMovieResponse.ID it)) t = None
    /\ fault w (OpMovieCreate (TMDBMovieResponse.ID it)) t = None
    /\ forall i, fault w (OpMovieSave i) t = None.

(** A month text of two decimal digits, as in a date YYYY-MM-DD. *)
Definition two_digits (s : string) : bool :=
  match s with
  | String a (String b EmptyString) =>
      match Strconv.digit a, Strconv.digit b with
      | Some _, Some _ => true
      | _, _ => false
      end
  | _ => false
  end.

(** ** Worlds and inputs of the examples *)
Module Examples.

Definition empty_db : Database := mkDatabase [] [] [] [] [] 1 1 1 1.

Definition fight_club : TMDBMovieResponse.t :=
  TMDBMovieResponse.mk 550 "Fight Club" "Fight Club" "An insurance clerk." "1999-10-15"
    "/pB8BM7.jpg" "/52AfXW.jpg" 8.5%float 26280 61.5%float false "en" [18; 53].

Definition fight_club_again : TMDBMovieResponse.t :=
  TMDBMovieResponse.mk 550 "Fight Club (1999)" "Fight Club" "Remastered." "1999-10-15"
    "/new.jpg" "/52AfXW.jpg" 8.75%float 26300 70.25%float false "en" [18].

Definition dune : TMDBMovieResponse.t :=
  TMDBMovieResponse.mk 693134 "Dune: Part Two" "Dune: Part Two" "Paul Atreides." "2024-02-27"
    "/dune.jpg" "/dune_b.jpg" 8.25%float 5000 300.5%float false "en" [878; 12].

Definition never_fails : Op -> Time -> option error := fun _ _ => None.

(** TMDB serves one page of two movies and fails on every other page. *)
Definition one_page (page : Z) : Result (list TMDBMovieResponse.t) :=
  if page =? 1 then Ok [fight_club; dune] else Err "TMDB API returned status 503: busy"%string.

Definition world (d : Database) (f : Op -> Time -> option error) : World :=
  mkWorld d ∅ 1000 [] one_page f (fun _ _ => 0) (fun _ _ => []).

Definition fresh : World := world empty_db never_fails.

Definition svc : movieService.t :=
  movieService.mk "movies" (Some (MinIOService.mk "movies" "https://storage.example/movies")).

Definition handler : MovieHandler.t := MovieHandler.mk svc.

(** A store that already holds Fight Club, as an earlier sync left it. *)
Definition stored_fight_club : Movie.t :=
  Movie.mk 1 550 "Fight Club" "Fight Club" "An insurance clerk." "1999-10-15"
    "/pB8BM7.jpg" "/52AfXW.jpg" 8.5%float 26280 61.5%float false (Some 1) None [] 907 907.

Definition stocked_db : Database :=
  mkDatabase [stored_fight_club]
             [Language.mk 1 "en" "English" 903 903]
             [Genre.mk 1 18 "Drama" 904 904; Genre.mk 2 53 "Thriller" 905 905]
             [(1, 1); (1, 2)] [] 2 2 3 1.

Definition stocked : World := world stocked_db never_fails.

(** A store in which the resolution of genre 18 always fails. *)
Definition genre_18_fails : Op -> Time -> option error :=
  fun op _ => match op with
              | OpGenreFirstOrCreate 18 => Some "connection reset"%string
              | _ => None
              end.

(** Stores whose language resolution, lookup by external id, or writes to
    [movies] always fail. *)
Definition language_fails : Op -> Time -> option error :=
  fun op _ => match op with
              | OpLanguageFirstOrCreate _ => Some "connection reset"%string
              | _ => None
              end.
Definition lookup_fails : Op -> Time -> option error :=
  fun op _ => match op with
              | OpMovieFirstByTMDBID _ => Some "connection reset"%string
              | _ => None
              end.
Definition writes_fail : Op -> Time -> option error :=
  fun op _ => match op with
              | OpMovieCreate _ | OpMovieSave _ => Some "connection reset"%string
              | _ => None
              end.

(** A store in which the lookup of Fight Club by its external id always
    fails. *)
Definition fight_club_lookup_fails : Op -> Time -> option error :=
  fun op _ => match op with
              | OpMovieFirstByTMDBID 550 => Some "connection reset"%string
              | _ => None
              end.

(** A movie entered by hand whose release date has no numeric month. *)
Definition odd_date : Movie.t :=
  Movie.mk 1 0 "Untitled" "" "" "2024-ab-01" "" "" 0%float 0 0%float false None None [] 10 10.

Definition odd_db : Database := mkDatabase [odd_date] [] [] [] [] 2 1 1 1.

(** What a client supplies to update the stored Fight Club, with an external
    id of its own choosing. *)
Definition supplied : Movie.t :=
  Movie.mk 0 999 "Fight Club (director's cut)" "Fight Club" "Longer." "1999-11-01"
    "/cut.jpg" "" 9.5%float 12 1.5%float false (Some 1) None [] 0 0.

Definition request : MovieRequest.t :=
  MovieRequest.mk 999 "Fight Club (director's cut)" "Fight Club" "Longer." "1999-11-01"
    "/cut.jpg" "" 9.5%float 12 1.5%float false "en".

Definition ctx (id : string) (q : gmap string string) : fiber.Ctx :=
  fiber.mkCtx {[ "id"%string := id ]} q (Some request).

(** GET /movies?limit=0. *)
Definition zero_limit : fiber.Ctx := ctx "1" {[ "limit"%string := "0"%string ]}.

(** GET /movies?limit=99999999999999999999x and
    POST /sync/movies?pages=99999999999999999999x: a run of digits that
    leaves the range of [int], followed by a letter. *)
Definition overflowing_limit : fiber.Ctx :=
  ctx "1" {[ "limit"%string := "99999999999999999999x"%string ]}.
Definition overflowing_pages : fiber.Ctx :=
  ctx "1" {[ "pages"%string := "99999999999999999999x"%string ]}.

(** A bucket that holds one uploaded poster. *)
Definition with_poster : World :=
  mkWorld empty_db {[ "poster_1a2b3c4d.jpg"%string ]} 1000 [] one_page never_fails
          (fun _ _ => 0) (fun _ _ => []).

Definition minio : MinIOService.t :=
  MinIOService.mk "movies" "https://storage.example/movies".

(** An upload: the UUID drawn, and the signing client. *)
Definition uuid : string := "1a2b3c4d-0000-4000-8000-000000000000".

Definition presign (key : string) : Result string :=
  Ok ("https://storage.example/movies/" +:+ key +:+ "?X-Amz-Expires=900")%string.

(** Fight Club with an uploaded poster, whose object is in the bucket. *)
Definition uploaded_fight_club : Movie.t :=
  Movie.mk 1 550 "Fight Club" "Fight Club" "An insurance clerk." "1999-10-15"
    "https://storage.example/movies/poster_1a2b3c4d.jpg" "/52AfXW.jpg"
    8.5%float 26280 61.5%float false (Some 1) None [] 907 907.

Definition uploaded : World :=
  mkWorld (mkDatabase [uploaded_fight_club]
                      [Language.mk 1 "en" "English" 903 903]
                      [Genre.mk 1 18 "Drama" 904 904; Genre.mk 2 53 "Thriller" 905 905]
                      [(1, 1); (1, 2)] [] 2 2 3 1)
          {[ "poster_1a2b3c4d.jpg"%string ]} 1000 [] one_page never_fails
          (fun _ _ => 0) (fun _ _ => []).

End Examples.

(** * Properties *)

(** ** Stepping the world *)

Lemma steps_refl (w : World) : steps w w [].
Proof. unfold steps. rewrite app_nil_r. repeat split; try reflexivity; try lia. Qed.

Lemma steps_trans (w1 w2 w3 : World) (e1 e2 : list Event) :
  steps w1 w2 e1 -> steps w2 w3 e2 -> steps w1 w3 (e1 ++ e2).
Proof.
  unfold steps. intros (T1 & F1 & M1 & C1 & S1 & K1) (T2 & F2 & M2 & C2 & S2 & K2).
  rewrite T2, T1, F2, F1, M2, M1, C2, C1, S2, S1, app_assoc.
  repeat split; try reflexivity; try lia.
Qed.

Lemma steps_tick (w : World) : steps w (tick w) [].
Proof. unfold steps; simpl. rewrite app_nil_r. repeat split; try reflexivity; try lia. Qed.

Lemma steps_fault (w w' : World) (evs : list Event) :
  steps w w' evs -> fault w' = fault w.
Proof. intros H. apply H. Qed.

Lemma steps_tmdb (w w' : World) (evs : list Event) :
  steps w w' evs -> tmdb w' = tmdb w.
Proof. intros H. apply H. Qed.

Lemma steps_no_faults (w w' : World) (evs : list Event) :
  steps w w' evs -> no_faults w -> no_faults w'.
Proof. intros H N op t. rewrite (steps_fault _ _ _ H). apply N. Qed.

Lemma keeps_movies_trans (w1 w2 w3 : World) :
  keeps_movies w1 w2 -> keeps_movies w2 w3 -> keeps_movies w1 w3.
Proof. unfold keeps_movies. intros (A1 & B1 & C1) (A2 & B2 & C2). repeat split; congruence. Qed.

Lemma keeps_logs_trans (w1 w2 w3 : World) :
  keeps_logs w1 w2 -> keeps_logs w2 w3 -> keeps_logs w1 w3.
Proof. unfold keeps_logs. intros (A1 & B1) (A2 & B2). split; congruence. Qed.

Lemma quiet_refl (w : World) : quiet w w.
Proof. repeat split; try apply steps_refl. Qed.

Lemma quiet_trans (w1 w2 w3 : World) : quiet w1 w2 -> quiet w2 w3 -> quiet w1 w3.
Proof.
  intros (S1 & M1 & L1) (S2 & M2 & L2). split; [|split].
  - apply (steps_trans _ _ _ [] [] S1 S2).
  - eapply keeps_movies_trans; eassumption.
  - eapply keeps_logs_trans; eassumption.
Qed.

Lemma quiet_tick (w : World) : quiet w (tick w).
Proof. split; [apply steps_tick | repeat split]. Qed.

Lemma call_fault {A} (op : Op) (body : IO (Result A)) (w : World) (e : error) :
  fault w op (clock w) = Some e -> call op body w = (Err e, tick w).
Proof. intros H. unfold call. rewrite H. reflexivity. Qed.

Lemma call_ok {A} (op : Op) (body : IO (Result A)) (w : World) :
  fault w op (clock w) = None -> call op body w = body (tick w).
Proof. intros H. unfold call. rewrite H. reflexivity. Qed.

(** ** The store calls *)

Lemma FirstOrCreateLanguage_quiet (code name : string) (w w' : World) r :
  Gorm.FirstOrCreateLanguage code name w = (r, w') -> quiet w w'.
Proof.
  unfold Gorm.FirstOrCreateLanguage, call.
  destruct (fault w _ _); [intros [= <- <-]; apply quiet_tick|].
  destruct (List.find _ _); intros [= <- <-]; apply quiet_tick.
Qed.

Lemma FirstOrCreateGenre_quiet (tmdbID : Z) (name : string) (w w' : World) r :
  Gorm.FirstOrCreateGenre tmdbID name w = (r, w') -> quiet w w'.
Proof.
  unfold Gorm.FirstOrCreateGenre, call.
  destruct (fault w _ _); [intros [= <- <-]; apply quiet_tick|].
  destruct (List.find _ _); intros [= <- <-]; apply quiet_tick.
Qed.

Lemma FirstLanguage_quiet (code : string) (w w' : World) r :
  Gorm.FirstLanguage code w = (r, w') -> quiet w w'.
Proof.
  unfold Gorm.FirstLanguage, call.
  destruct (fault w _ _); [intros [= <- <-]; apply quiet_tick|].
  destruct (List.find _ _); intros [= <- <-]; apply quiet_tick.
Qed.

Lemma FirstMovieByTMDBID_eq (tmdbID : Z) (w : World) :
  Gorm.FirstMovieByTMDBID tmdbID w =
  (match fault w (OpMovieFirstByTMDBID tmdbID) (clock w) with
   | Some e => Err e
   | None => match Gorm.first_by_tmdb_id tmdbID (movies (db w)) with
             | Some r => Ok r
             | None => Err Gorm.ErrRecordNotFound
             end
   end, tick w).
Proof.
  unfold Gorm.FirstMovieByTMDBID, call. destruct (fault w _ _); [reflexivity|].
  simpl. destruct (Gorm.first_by_tmdb_id _ _); reflexivity.
Qed.

Lemma FirstMovieByID_eq (id : Z) (w : World) :
  Gorm.FirstMovieByID id w =
  (match fault w (OpMovieFirstByID id) (clock w) with
   | Some e => Err e
   | None => match Gorm.first_by_id id (movies (db w)) with
             | Some r => Ok (Gorm.preload (db w) r)
             | None => Err Gorm.ErrRecordNotFound
             end
   end, tick w).
Proof.
  unfold Gorm.FirstMovieByID, call. destruct (fault w _ _); [reflexivity|].
  simpl. destruct (Gorm.first_by_id _ _); reflexivity.
Qed.

(** ** Rows and keys *)

Lemma NoDup_map_inj {A} (f : A -> Z) (l : list A) (a b : A) :
  NoDup (map f l) -> In a l -> In b l -> f a = f b -> a = b.
Proof.
  induction l as [|x l IH]; simpl; [tauto|].
  intros N Ha Hb E. apply NoDup_cons in N as [Nx N].
  destruct Ha as [<-|Ha], Hb as [<-|Hb]; try reflexivity.
  - exfalso. apply Nx. rewrite list_elem_of_In, E. apply in_map, Hb.
  - exfalso. apply Nx. rewrite list_elem_of_In, <- E. apply in_map, Ha.
  - apply IH; assumption.
Qed.

Lemma first_by_tmdb_id_Some (x : Z) (rows : list Movie.t) (e : Movie.t) :
  Gorm.first_by_tmdb_id x rows = Some e -> In e rows /\ Movie.TMDBID e = x.
Proof.
  unfold Gorm.first_by_tmdb_id. intros H. apply find_some in H as [H1 H2].
  split; [assumption | lia].
Qed.

Lemma first_by_tmdb_id_None (x : Z) (rows : list Movie.t) (r : Movie.t) :
  Gorm.first_by_tmdb_id x rows = None -> In r rows -> Movie.TMDBID r <> x.
Proof.
  unfold Gorm.first_by_tmdb_id. intros H Hr E.
  pose proof (find_none _ _ H _ Hr) as F. simpl in F. lia.
Qed.

Lemma first_by_id_Some (i : Z) (rows : list Movie.t) (e : Movie.t) :
  Gorm.first_by_id i rows = Some e -> In e rows /\ Movie.ID e = i.
Proof.
  unfold Gorm.first_by_id. intros H. apply find_some in H as [H1 H2].
  split; [assumption | lia].
Qed.

Lemma wf_id_pos (d : Database) (r : Movie.t) :
  wf_db d -> In r (movies d) -> 0 < Movie.ID r < next_movie_id d.
Proof. intros (_ & _ & F & _) H. rewrite Forall_forall in F. apply F, list_elem_of_In, H. Qed.

(** In a well-formed table a key that is not there, with an external id that
    is not there, passes the uniqueness checks of an insert. *)
Lemma wf_insert_check (d : Database) (x : Z) :
  wf_db d -> Gorm.first_by_tmdb_id x (movies d) = None ->
  existsb (fun r => (Movie.ID r =? next_movie_id d) || (Movie.TMDBID r =? x)) (movies d)
  = false.
Proof.
  intros W N. apply not_true_is_false. intros H.
  apply existsb_exists in H as (r & Hr & Hc).
  pose proof (wf_id_pos _ _ W Hr). pose proof (first_by_tmdb_id_None _ _ _ N Hr). lia.
Qed.

(** The row found under an external id is the only one with that id, so
    saving it under its own key passes the uniqueness check of an update. *)
Lemma wf_update_check (d : Database) (e : Movie.t) :
  wf_db d -> In e (movies d) ->
  existsb (fun r => negb (Movie.ID r =? Movie.ID e) && (Movie.TMDBID r =? Movie.TMDBID e))
          (movies d) = false.
Proof.
  intros W He. apply not_true_is_false. intros H.
  apply existsb_exists in H as (r & Hr & Hc).
  destruct W as (_ & N & _ & _).
  assert (r = e) by (apply (NoDup_map_inj Movie.TMDBID (movies d)); auto; lia).
  subst r. lia.
Qed.

Lemma existsb_id_In (rows : list Movie.t) (e : Movie.t) :
  In e rows -> existsb (fun r => Movie.ID r =? Movie.ID e) rows = true.
Proof. intros H. apply existsb_exists. exists e. split; [assumption | lia]. Qed.

(** Writing [y] over the rows keyed like [e] changes exactly the place of
    [e] when keys are distinct. *)
Lemma replace_row_split (rows : list Movie.t) (e y : Movie.t) :
  NoDup (map Movie.ID rows) -> In e rows ->
  exists l1 l2,
    rows = l1 ++ e :: l2
    /\ map (fun r => if Movie.ID r =? Movie.ID e then y else r) rows = l1 ++ y :: l2.
Proof.
  intros N He. destruct (in_split _ _ He) as (l1 & l2 & ->).
  exists l1, l2. split; [reflexivity|].
  assert (K : forall r, In r (l1 ++ l2) -> Movie.ID r <> Movie.ID e).
  { intros r Hr E. rewrite map_app in N. simpl in N.
    apply NoDup_app in N as (_ & N12 & N2). apply NoDup_cons in N2 as [Ne _].
    apply in_app_iff in Hr as [Hr|Hr].
    - apply (N12 (Movie.ID r)).
      + apply list_elem_of_In, in_map, Hr.
      + rewrite E. apply list_elem_of_here.
    - apply Ne. rewrite <- E. apply list_elem_of_In, in_map, Hr. }
  rewrite map_app. simpl. rewrite Z.eqb_refl. f_equal; [|f_equal].
  - rewrite <- (map_id l1) at 2. apply map_ext_in. intros r Hr.
    destruct (Z.eqb_spec (Movie.ID r) (Movie.ID e)) as [E|]; [|reflexivity].
    exfalso. apply (K r); [apply in_app_iff; auto | exact E].
  - rewrite <- (map_id l2) at 2. apply map_ext_in. intros r Hr.
    destruct (Z.eqb_spec (Movie.ID r) (Movie.ID e)) as [E|]; [|reflexivity].
    exfalso. apply (K r); [apply in_app_iff; auto | exact E].
Qed.

Lemma filter_none {A} (f : A -> bool) (l : list A) :
  (forall x, In x l -> f x = false) -> List.filter f l = [].
Proof.
  induction l as [|a l IH]; simpl; [reflexivity|]. intros H.
  rewrite (H a (or_introl eq_refl)). apply IH. intros x Hx. apply H. right. exact Hx.
Qed.

(** With distinct external ids, a row is the only one under its id. *)
Lemma rows_with_tmdb_id_unique (d : Database) (r : Movie.t) :
  NoDup (map Movie.TMDBID (movies d)) -> In r (movies d) ->
  rows_with_tmdb_id (Movie.TMDBID r) d = [r].
Proof.
  unfold rows_with_tmdb_id. generalize (movies d). intros rows.
  induction rows as [|a rows IH]; simpl; [tauto|].
  intros N Hr. apply NoDup_cons in N as [Na N].
  rewrite list_elem_of_In in Na.
  destruct Hr as [->|Hr].
  - rewrite Z.eqb_refl. f_equal. apply filter_none. intros x Hx.
    apply Z.eqb_neq. intros E. apply Na. rewrite <- E. apply in_map, Hx.
  - destruct (Z.eqb_spec (Movie.TMDBID a) (Movie.TMDBID r)) as [E|_]; [|apply IH; assumption].
    exfalso. apply Na. rewrite E. apply in_map, Hr.
Qed.

Lemma wf_db_ext (d d' : Database) :
  movies d' = movies d -> next_movie_id d' = next_movie_id d -> wf_db d -> wf_db d'.
Proof. unfold wf_db. intros -> ->. tauto. Qed.

Lemma wf_quiet (w w' : World) : quiet w w' -> wf_db (db w) -> wf_db (db w').
Proof. intros (_ & (M & _ & N) & _). apply wf_db_ext; assumption. Qed.

Lemma wf_insert (d : Database) (row : Movie.t) (links : list (Z * Z)) :
  wf_db d ->
  Movie.ID row = next_movie_id d ->
  (forall r, In r (movies d) -> Movie.TMDBID r <> Movie.TMDBID row) ->
  wf_db (Gorm.set_movies (movies d ++ [row]) links (next_movie_id d + 1) d).
Proof.
  intros (N1 & N2 & F & P) Hid Hx. unfold wf_db; simpl. rewrite !map_app; simpl.
  split; [|split; [|split]]; [| | |lia].
  - apply NoDup_app. split; [exact N1|]. split; [|apply NoDup_singleton].
    intros i Hi Hi'. apply list_elem_of_singleton in Hi'. subst i.
    apply list_elem_of_In, in_map_iff in Hi as (r & E & Hr).
    rewrite Forall_forall in F. specialize (F r (proj2 (list_elem_of_In _ _) Hr)).
    simpl in F. lia.
  - apply NoDup_app. split; [exact N2|]. split; [|apply NoDup_singleton].
    intros i Hi Hi'. apply list_elem_of_singleton in Hi'. subst i.
    apply list_elem_of_In, in_map_iff in Hi as (r & E & Hr). apply (Hx r Hr E).
  - apply Forall_app. split.
    + eapply Forall_impl; [exact F|]. simpl. intros; lia.
    + apply Forall_singleton. lia.
Qed.

Lemma wf_replace (d : Database) (l1 l2 : list Movie.t) (e y : Movie.t) (links : list (Z * Z)) :
  wf_db d -> movies d = l1 ++ e :: l2 ->
  Movie.ID y = Movie.ID e -> Movie.TMDBID y = Movie.TMDBID e ->
  wf_db (Gorm.set_movies (l1 ++ y :: l2) links (next_movie_id d) d).
Proof.
  unfold wf_db; simpl. intros (N1 & N2 & F & P) Hm Hi Hx. rewrite Hm in N1, N2, F.
  rewrite !map_app in *. simpl in *. rewrite Hi, Hx.
  split; [exact N1|]. split; [exact N2|]. split; [|exact P].
  apply Forall_app in F as [F1 F2]. apply Forall_cons in F2 as [Fe F2].
  apply Forall_app. split; [exact F1|]. apply Forall_cons. split; [lia | exact F2].
Qed.

Lemma CreateMovie_eq (m : Movie.t) (w : World) :
  Movie.ID m = 0 -> Movie.CreatedAt m = 0 -> Movie.UpdatedAt m = 0 ->
  Gorm.CreateMovie m w =
  match fault w (OpMovieCreate (Movie.TMDBID m)) (clock w) with
  | Some e => (Err e, tick w)
  | None =>
      if existsb (fun r => (Movie.ID r =? next_movie_id (db w))
                           || (Movie.TMDBID r =? Movie.TMDBID m)) (movies (db w))
      then (Err Gorm.ErrDuplicateKey, tick w)
      else
        let m' := Movie.set_ID (next_movie_id (db w))
                    (Movie.set_CreatedAt (clock w + 1)
                       (Movie.set_UpdatedAt (clock w + 1) m)) in
        (Ok m',
         emit (EvMovieInserted (next_movie_id (db w)))
              (set_db (Gorm.set_movies (movies (db w) ++ [Gorm.row_of m'])
                         (Gorm.add_links (next_movie_id (db w)) (Movie.Genres m)
                                         (movie_genres (db w)))
                         (next_movie_id (db w) + 1) (db w))
                      (tick w)))
  end.
Proof.
  intros H1 H2 H3. unfold Gorm.CreateMovie, call.
  destruct (fault w _ _); [reflexivity|]. simpl. rewrite H1, H2, H3. simpl. reflexivity.
Qed.

Lemma SaveMovie_eq (m : Movie.t) (w : World) :
  Movie.ID m <> 0 ->
  Gorm.SaveMovie m w =
  match fault w (OpMovieSave (Movie.ID m)) (clock w) with
  | Some e => (Err e, tick w)
  | None =>
      if existsb (fun r => negb (Movie.ID r =? Movie.ID m)
                           && (Movie.TMDBID r =? Movie.TMDBID m)) (movies (db w))
      then (Err Gorm.ErrDuplicateKey, tick w)
      else
        let m' := Movie.set_UpdatedAt (clock w + 1) m in
        let links := Gorm.add_links (Movie.ID m) (Movie.Genres m) (movie_genres (db w)) in
        if existsb (fun r => Movie.ID r =? Movie.ID m) (movies (db w))
        then
          (Ok m',
           emit (EvMovieUpdated (Movie.ID m))
                (set_db (Gorm.set_movies
                           (map (fun r => if Movie.ID r =? Movie.ID m then Gorm.row_of m' else r)
                                (movies (db w)))
                           links (next_movie_id (db w)) (db w))
                        (tick w)))
        else
          (Ok m',
           emit (EvMovieInserted (Movie.ID m))
                (set_db (Gorm.set_movies (movies (db w) ++ [Gorm.row_of m']) links
                                         (next_movie_id (db w)) (db w))
                        (tick w)))
  end.
Proof.
  intros H. unfold Gorm.SaveMovie. apply Z.eqb_neq in H. rewrite H. unfold call.
  destruct (fault w _ _); [reflexivity|]. simpl. reflexivity.
Qed.

Lemma resolveGenres_quiet (ids : list Z) (acc gs : list Genre.t) (w w' : World) :
  movieService.resolveGenres ids acc w = (gs, w') -> quiet w w'.
Proof.
  revert acc w. induction ids as [|g ids IH]; simpl; intros acc w H.
  - inversion H. apply quiet_refl.
  - unfold bind, genreRepository.FindOrCreate in H.
    destruct (Gorm.FirstOrCreateGenre _ _ w) as [r w1] eqn:E.
    apply FirstOrCreateGenre_quiet in E.
    destruct r; apply IH in H; eapply quiet_trans; eassumption.
Qed.

Lemma FirstOrCreateLanguage_Err (code name : string) (w w' : World) (e : error) :
  Gorm.FirstOrCreateLanguage code name w = (Err e, w') ->
  fault w (OpLanguageFirstOrCreate code) (clock w) = Some e.
Proof.
  unfold Gorm.FirstOrCreateLanguage, call.
  destruct (fault w _ _); [intros [= <- _]; reflexivity|].
  destruct (List.find _ _); intros [=].
Qed.

Lemma faulty (w : World) (op : Op) (t : Time) (e : error) :
  fault w op t = Some e -> ~ no_faults w.
Proof. intros H N. rewrite N in H. discriminate. Qed.

Lemma quiet_faulty (w w' : World) : quiet w w' -> ~ no_faults w' -> ~ no_faults w.
Proof. intros (S & _) H N. apply H. eapply steps_no_faults; eassumption. Qed.

(** One insert through the repository, for a struct that is new ([ID] and
    timestamps zero): it fails when the call fails at its instant or the
    external id is taken. *)
Lemma Create_step_at (m : Movie.t) (w w' : World) (err : option error) :
  Movie.ID m = 0 -> Movie.CreatedAt m = 0 -> Movie.UpdatedAt m = 0 ->
  wf_db (db w) ->
  movieRepository.Create m w = (err, w') ->
  wf_db (db w')
  /\ ((exists e, err = Some e /\ quiet w w'
                 /\ (fault w (OpMovieCreate (Movie.TMDBID m)) (clock w) <> None
                     \/ Gorm.first_by_tmdb_id (Movie.TMDBID m) (movies (db w)) <> None))
      \/ (err = None
          /\ fault w (OpMovieCreate (Movie.TMDBID m)) (clock w) = None
          /\ Gorm.first_by_tmdb_id (Movie.TMDBID m) (movies (db w)) = None
          /\ steps w w' [EvMovieInserted (next_movie_id (db w))]
          /\ keeps_logs w w'
          /\ movies (db w') =
             movies (db w) ++
             [Gorm.row_of (Movie.set_ID (next_movie_id (db w))
                             (Movie.set_CreatedAt (clock w + 1)
                                (Movie.set_UpdatedAt (clock w + 1) m)))])).
Proof.
  intros H1 H2 H3 W. unfold movieRepository.Create, bind.
  rewrite (CreateMovie_eq _ _ H1 H2 H3).
  destruct (fault w _ _) eqn:F.
  - intros [= <- <-]. split; [exact W|]. left. eexists. split; [reflexivity|].
    split; [apply quiet_tick|]. left. discriminate.
  - destruct (existsb _ _) eqn:X.
    + intros [= <- <-]. split; [exact W|]. left. eexists. split; [reflexivity|].
      split; [apply quiet_tick|]. right. intros N.
      rewrite (wf_insert_check _ _ W N) in X. discriminate.
    + cbv zeta. intros [= <- <-].
      assert (N : forall r, In r (movies (db w)) -> Movie.TMDBID r <> Movie.TMDBID m).
      { intros r Hr E. rewrite <- not_true_iff_false in X. apply X.
        apply existsb_exists. exists r. split; [exact Hr|]. lia. }
      split.
      * apply wf_insert; [exact W | reflexivity | exact N].
      * right. split; [reflexivity|]. split; [reflexivity|]. split.
        { unfold Gorm.first_by_tmdb_id. destruct (List.find _ _) eqn:Fd; [|reflexivity].
          apply find_some in Fd as [Hin Hc]. exfalso. apply (N t Hin). lia. }
        split; [|split; [split; reflexivity | reflexivity]].
        unfold steps; simpl. repeat split; try reflexivity; try lia.
Qed.

Lemma Create_step (m : Movie.t) (w w' : World) (err : option error) :
  Movie.ID m = 0 -> Movie.CreatedAt m = 0 -> Movie.UpdatedAt m = 0 ->
  wf_db (db w) ->
  movieRepository.Create m w = (err, w') ->
  wf_db (db w')
  /\ ((exists e, err = Some e /\ quiet w w'
                 /\ (~ no_faults w
                     \/ Gorm.first_by_tmdb_id (Movie.TMDBID m) (movies (db w)) <> None))
      \/ (err = None
          /\ Gorm.first_by_tmdb_id (Movie.TMDBID m) (movies (db w)) = None
          /\ steps w w' [EvMovieInserted (next_movie_id (db w))]
          /\ keeps_logs w w'
          /\ movies (db w') =
             movies (db w) ++
             [Gorm.row_of (Movie.set_ID (next_movie_id (db w))
                             (Movie.set_CreatedAt (clock w + 1)
                                (Movie.set_UpdatedAt (clock w + 1) m)))])).
Proof.
  intros H1 H2 H3 W E.
  destruct (Create_step_at _ _ _ _ H1 H2 H3 W E)
    as (W' & [(e & -> & Q & Hwhy)|(-> & _ & H)]); (split; [exact W'|]).
  - left. exists e. split; [reflexivity|]. split; [exact Q|].
    destruct Hwhy as [Hf|Hf]; [left; intros N; apply Hf, N | right; exact Hf].
  - right. split; [reflexivity | exact H].
Qed.

(** One save through the repository, of a struct keyed and externally
    identified like the stored row [e]: it fails only when the call fails
    at its instant. *)
Lemma Update_step_at (m e : Movie.t) (w w' : World) (err : option error) :
  wf_db (db w) -> In e (movies (db w)) ->
  Movie.ID m = Movie.ID e -> Movie.TMDBID m = Movie.TMDBID e ->
  movieRepository.Update m w = (err, w') ->
  wf_db (db w')
  /\ ((exists x, err = Some x /\ quiet w w'
                 /\ fault w (OpMovieSave (Movie.ID e)) (clock w) <> None)
      \/ (err = None
          /\ fault w (OpMovieSave (Movie.ID e)) (clock w) = None
          /\ steps w w' [EvMovieUpdated (Movie.ID e)]
          /\ keeps_logs w w'
          /\ exists l1 l2,
               movies (db w) = l1 ++ e :: l2
               /\ movies (db w') =
                  l1 ++ Gorm.row_of (Movie.set_UpdatedAt (clock w + 1) m) :: l2)).
Proof.
  intros W He Hi Hx. unfold movieRepository.Update, bind.
  pose proof (wf_id_pos _ _ W He) as P.
  rewrite SaveMovie_eq by lia. rewrite Hi, Hx.
  destruct (fault w _ _) eqn:F.
  - intros [= <- <-]. split; [exact W|]. left. eexists. split; [reflexivity|].
    split; [apply quiet_tick | discriminate].
  - rewrite (wf_update_check _ _ W He), (existsb_id_In _ _ He). cbv zeta.
    intros [= <- <-].
    destruct (replace_row_split (movies (db w)) e
                (Gorm.row_of (Movie.set_UpdatedAt (clock w + 1) m))
                (proj1 W) He) as (l1 & l2 & E1 & E2).
    split.
    + simpl. rewrite E2. apply (wf_replace _ l1 l2 e); [exact W | exact E1 | exact Hi | exact Hx].
    + right. split; [reflexivity|]. split; [reflexivity|]. split.
      { unfold steps; simpl. repeat split; try reflexivity; try lia. }
      split; [split; reflexivity|]. exists l1, l2. split; [exact E1|]. simpl. exact E2.
Qed.

Lemma Update_step (m e : Movie.t) (w w' : World) (err : option error) :
  wf_db (db w) -> In e (movies (db w)) ->
  Movie.ID m = Movie.ID e -> Movie.TMDBID m = Movie.TMDBID e ->
  movieRepository.Update m w = (err, w') ->
  wf_db (db w')
  /\ ((exists x, err = Some x /\ quiet w w' /\ ~ no_faults w)
      \/ (err = None
          /\ steps w w' [EvMovieUpdated (Movie.ID e)]
          /\ keeps_logs w w'
          /\ exists l1 l2,
               movies (db w) = l1 ++ e :: l2
               /\ movies (db w') =
                  l1 ++ Gorm.row_of (Movie.set_UpdatedAt (clock w + 1) m) :: l2)).
Proof.
  intros W He Hi Hx E.
  destruct (Update_step_at _ _ _ _ _ W He Hi Hx E)
    as (W' & [(x & -> & Q & Hf)|(-> & _ & H)]); (split; [exact W'|]).
  - left. exists x. split; [reflexivity|]. split; [exact Q|]. intros N. apply Hf, N.
  - right. split; [reflexivity | exact H].
Qed.

Lemma FirstOrCreateLanguage_Ok (code name : string) (w w' : World) (l : Language.t) :
  Gorm.FirstOrCreateLanguage code name w = (Ok l, w') ->
  In l (languages (db w')) /\ Language.Code l = code.
Proof.
  unfold Gorm.FirstOrCreateLanguage, call.
  destruct (fault w _ _); [intros [=]|].
  destruct (List.find _ _) as [l0|] eqn:F; intros [= <- <-].
  - apply find_some in F as [Hin Hc]. split; [exact Hin|]. apply String.eqb_eq, Hc.
  - simpl. split; [apply in_app_iff; right; left; reflexivity | reflexivity].
Qed.

Lemma resolveGenres_languages (ids : list Z) (acc gs : list Genre.t) (w w' : World) :
  movieService.resolveGenres ids acc w = (gs, w') -> languages (db w') = languages (db w).
Proof.
  revert acc w. induction ids as [|g ids IH]; simpl; intros acc w H.
  - injection H as _ <-. reflexivity.
  - unfold bind, genreRepository.FindOrCreate, Gorm.FirstOrCreateGenre, call in H.
    destruct (fault w _ _); [apply IH in H; exact H|].
    destruct (List.find _ _); apply IH in H; exact H.
Qed.

Lemma Create_languages (m : Movie.t) (w w' : World) (err : option error) :
  movieRepository.Create m w = (err, w') -> languages (db w') = languages (db w).
Proof.
  unfold movieRepository.Create, bind, Gorm.CreateMovie, call.
  destruct (fault w _ _); [intros [= _ <-]; reflexivity|]. cbv zeta.
  destruct (existsb _ _); intros [= _ <-]; reflexivity.
Qed.

Lemma Update_languages (m : Movie.t) (w w' : World) (err : option error) :
  movieRepository.Update m w = (err, w') -> languages (db w') = languages (db w).
Proof.
  unfold movieRepository.Update, bind, Gorm.SaveMovie.
  destruct (Movie.ID m =? 0); [apply Create_languages|]. unfold call.
  destruct (fault w _ _); [intros [= _ <-]; reflexivity|]. cbv zeta.
  destruct (existsb _ _); [intros [= _ <-]; reflexivity|].
  destruct (existsb _ _); intros [= _ <-]; reflexivity.
Qed.

(** ** Genres of an item *)

Lemma FirstOrCreateGenre_Ok (tmdbID : Z) (name : string) (w w' : World) (g : Genre.t) :
  Gorm.FirstOrCreateGenre tmdbID name w = (Ok g, w') ->
  In g (genres (db w')) /\ Genre.TMDBID g = tmdbID.
Proof.
  unfold Gorm.FirstOrCreateGenre, call.
  destruct (fault w _ _); [intros [=]|].
  destruct (List.find _ _) as [g0|] eqn:F; intros [= <- <-].
  - apply find_some in F as [Hin Hc]. split; [exact Hin | lia].
  - simpl. split; [apply in_app_iff; right; left; reflexivity | reflexivity].
Qed.

Lemma FirstOrCreateGenre_mono (tmdbID : Z) (name : string) (w w' : World) r (g : Genre.t) :
  Gorm.FirstOrCreateGenre tmdbID name w = (r, w') ->
  In g (genres (db w)) -> In g (genres (db w')).
Proof.
  unfold Gorm.FirstOrCreateGenre, call.
  destruct (fault w _ _); [intros [= _ <-]; exact id|].
  destruct (List.find _ _); intros [= _ <-]; [exact id|].
  simpl. intros H. apply in_app_iff. left. exact H.
Qed.

Lemma FirstOrCreateGenre_Err (tmdbID : Z) (name : string) (w w' : World) (e : error) :
  Gorm.FirstOrCreateGenre tmdbID name w = (Err e, w') ->
  fault w (OpGenreFirstOrCreate tmdbID) (clock w) = Some e.
Proof.
  unfold Gorm.FirstOrCreateGenre, call.
  destruct (fault w _ _); [intros [= <- _]; reflexivity|].
  destruct (List.find _ _); intros [=].
Qed.

Lemma resolveGenres_mono (ids : list Z) (acc gs : list Genre.t) (w w' : World) (g : Genre.t) :
  movieService.resolveGenres ids acc w = (gs, w') ->
  In g (genres (db w)) -> In g (genres (db w')).
Proof.
  revert acc w. induction ids as [|i ids IH]; simpl; intros acc w H Hg.
  - injection H as _ <-. exact Hg.
  - unfold bind, genreRepository.FindOrCreate in H.
    destruct (Gorm.FirstOrCreateGenre _ _ w) as [r w1] eqn:E.
    pose proof (FirstOrCreateGenre_mono _ _ _ _ _ g E Hg) as Hg1.
    destruct r; eapply IH; eassumption.
Qed.

(** The loop keeps what it has collected and collects every genre whose
    resolution does not fail. *)
Lemma resolveGenres_resolved (ids : list Z) (acc gs : list Genre.t) (w w' : World) :
  movieService.resolveGenres ids acc w = (gs, w') ->
  (forall g, In g acc -> In g gs)
  /\ (forall gid, In gid ids ->
                  (forall t, fault w (OpGenreFirstOrCreate gid) t = None) ->
                  exists g, In g gs /\ In g (genres (db w')) /\ Genre.TMDBID g = gid).
Proof.
  revert acc w. induction ids as [|i ids IH]; simpl; intros acc w H.
  - injection H as <- <-. split; [exact (fun g H => H) | intros gid []].
  - unfold bind, genreRepository.FindOrCreate in H.
    destruct (Gorm.FirstOrCreateGenre _ _ w) as [r w1] eqn:E.
    pose proof (FirstOrCreateGenre_quiet _ _ _ _ _ E) as (S1 & _).
    destruct r as [g0|e0].
    + destruct (FirstOrCreateGenre_Ok _ _ _ _ _ E) as (Hin0 & Hid0).
      pose proof (resolveGenres_mono _ _ _ _ _ g0 H Hin0) as Hin0'.
      destruct (IH _ _ H) as (Hacc & Hids). split.
      * intros g Hg. apply Hacc, in_app_iff. left. exact Hg.
      * intros gid [<-|Hgid] Hf.
        -- exists g0. split; [apply Hacc, in_app_iff; right; left; reflexivity|].
           split; assumption.
        -- apply Hids; [exact Hgid|]. intros t. rewrite (steps_fault _ _ _ S1). apply Hf.
    + destruct (IH _ _ H) as (Hacc & Hids). split; [exact Hacc|].
      intros gid [<-|Hgid] Hf.
      * apply FirstOrCreateGenre_Err in E. rewrite Hf in E. discriminate.
      * apply Hids; [exact Hgid|]. intros t. rewrite (steps_fault _ _ _ S1). apply Hf.
Qed.

Lemma add_links_mono (mid gid : Z) (gs : list Genre.t) (links : list (Z * Z)) :
  Gorm.has_link mid gid links = true ->
  Gorm.has_link mid gid (Gorm.add_links mid gs links) = true.
Proof.
  unfold Gorm.add_links. revert links. induction gs as [|g gs IH]; simpl; intros links H.
  - exact H.
  - apply IH. destruct (Gorm.has_link mid (Genre.ID g) links); [exact H|].
    unfold Gorm.has_link in *. rewrite existsb_app, H. reflexivity.
Qed.

Lemma add_links_has (mid : Z) (gs : list Genre.t) (links : list (Z * Z)) (g : Genre.t) :
  In g gs -> Gorm.has_link mid (Genre.ID g) (Gorm.add_links mid gs links) = true.
Proof.
  revert links. induction gs as [|a gs IH]; intros links Hg; [destruct Hg|].
  unfold Gorm.add_links in *. simpl. destruct Hg as [<-|Hg].
  - apply (add_links_mono mid (Genre.ID a) gs).
    destruct (Gorm.has_link mid (Genre.ID a) links) eqn:L; [exact L|].
    unfold Gorm.has_link. rewrite existsb_app. simpl. rewrite !Z.eqb_refl.
    apply orb_true_iff. right. reflexivity.
  - apply IH, Hg.
Qed.

Lemma FirstOrCreateLanguage_clock (code name : string) (w w' : World) r :
  Gorm.FirstOrCreateLanguage code name w = (r, w') -> clock w' = clock w + 1.
Proof.
  unfold Gorm.FirstOrCreateLanguage, call.
  destruct (fault w _ _); [intros [= _ <-]; reflexivity|].
  destruct (List.find _ _); intros [= _ <-]; reflexivity.
Qed.

Lemma FirstOrCreateGenre_at (tmdbID : Z) (name : string) (w w' : World) r :
  Gorm.FirstOrCreateGenre tmdbID name w = (r, w') ->
  clock w' = clock w + 1
  /\ match r with
     | Ok g => fault w (OpGenreFirstOrCreate tmdbID) (clock w) = None
     | Err e => fault w (OpGenreFirstOrCreate tmdbID) (clock w) = Some e
     end.
Proof.
  unfold Gorm.FirstOrCreateGenre, call.
  destruct (fault w _ _); [intros [= <- <-]; split; reflexivity|].
  destruct (List.find _ _); intros [= <- <-]; split; reflexivity.
Qed.

(** The loop over the genre ids makes one call per id, in order; it
    collects the genres whose call does not fail, and no others. *)
Lemma resolveGenres_at (ids : list Z) (acc gs : list Genre.t) (w w' : World) :
  movieService.resolveGenres ids acc w = (gs, w') ->
  clock w' = clock w + Z.of_nat (length ids)
  /\ (forall g, In g gs ->
        In g acc
        \/ (In g (genres (db w'))
            /\ exists i : nat,
                 ids !! i = Some (Genre.TMDBID g)
                 /\ fault w (OpGenreFirstOrCreate (Genre.TMDBID g)) (clock w + Z.of_nat i)
                    = None))
  /\ (forall (i : nat) gid,
         ids !! i = Some gid ->
         fault w (OpGenreFirstOrCreate gid) (clock w + Z.of_nat i) = None ->
         exists g, In g gs /\ In g (genres (db w')) /\ Genre.TMDBID g = gid).
Proof.
  revert acc w. induction ids as [|gid ids IH]; intros acc w H.
  - simpl in H. injection H as <- <-. split; [simpl; lia|].
    split; [intros g Hg; left; exact Hg | intros i g0 Hi; discriminate Hi].
  - simpl in H. unfold bind, genreRepository.FindOrCreate in H.
    destruct (Gorm.FirstOrCreateGenre _ _ w) as [r w1] eqn:E.
    pose proof (FirstOrCreateGenre_quiet _ _ _ _ _ E) as (S1 & _).
    pose proof (steps_fault _ _ _ S1) as F1.
    destruct (FirstOrCreateGenre_at _ _ _ _ _ E) as (C1 & R1).
    assert (T : forall i : nat, clock w1 + Z.of_nat i = clock w + Z.of_nat (S i))
      by (intros i; lia).
    destruct r as [g0|e0].
    + destruct (FirstOrCreateGenre_Ok _ _ _ _ _ E) as (Hin0 & Hid0).
      pose proof (resolveGenres_mono _ _ _ _ _ g0 H Hin0) as Hin0'.
      destruct (resolveGenres_resolved _ _ _ _ _ H) as (Hacc & _).
      destruct (IH _ _ H) as (C & Only & All).
      split; [simpl length; lia|]. split.
      * intros g Hg. destruct (Only g Hg) as [Ha|(Hin & i & Hi & Hf)].
        -- apply in_app_iff in Ha as [Ha|[<-|[]]]; [left; exact Ha|].
           right. split; [exact Hin0'|]. exists 0%nat. rewrite Hid0.
           split; [reflexivity|]. rewrite Z.add_0_r. exact R1.
        -- right. split; [exact Hin|]. exists (S i). split; [exact Hi|].
           rewrite <- T, <- F1. exact Hf.
      * intros [|i] g1 Hi Hf.
        -- injection Hi as <-. exists g0.
           split; [apply Hacc, in_app_iff; right; left; reflexivity|].
           split; assumption.
        -- apply (All i g1 Hi). rewrite F1, T. exact Hf.
    + destruct (IH _ _ H) as (C & Only & All).
      split; [simpl length; lia|]. split.
      * intros g Hg. destruct (Only g Hg) as [Ha|(Hin & i & Hi & Hf)]; [left; exact Ha|].
        right. split; [exact Hin|]. exists (S i). split; [exact Hi|].
        rewrite <- T, <- F1. exact Hf.
      * intros [|i] g1 Hi Hf.
        -- injection Hi as <-. rewrite Z.add_0_r, R1 in Hf. discriminate.
        -- apply (All i g1 Hi). rewrite F1, T. exact Hf.
Qed.

Lemma add_links_keeps (mid : Z) (gs : list Genre.t) (links : list (Z * Z)) (l : Z * Z) :
  In l links -> In l (Gorm.add_links mid gs links).
Proof.
  unfold Gorm.add_links. revert links. induction gs as [|g gs IH]; simpl; intros links H.
  - exact H.
  - apply IH. destruct (Gorm.has_link _ _ _); [exact H|]. apply in_app_iff. left. exact H.
Qed.

Lemma add_links_only (mid : Z) (gs : list Genre.t) (links : list (Z * Z)) (l : Z * Z) :
  In l (Gorm.add_links mid gs links) ->
  In l links \/ exists g, In g gs /\ l = (mid, Genre.ID g).
Proof.
  unfold Gorm.add_links. revert links. induction gs as [|g gs IH]; simpl; intros links H.
  - left. exact H.
  - apply IH in H as [H|(g' & Hg & ->)].
    + destruct (Gorm.has_link _ _ _); [left; exact H|].
      apply in_app_iff in H as [H|[<-|[]]]; [left; exact H|].
      right. exists g. split; [left; reflexivity | reflexivity].
    + right. exists g'. split; [right; exact Hg | reflexivity].
Qed.

Lemma Create_links (m : Movie.t) (w w' : World) :
  Movie.ID m = 0 ->
  movieRepository.Create m w = (None, w') ->
  genres (db w') = genres (db w)
  /\ movie_genres (db w')
     = Gorm.add_links (next_movie_id (db w)) (Movie.Genres m) (movie_genres (db w)).
Proof.
  intros H0. unfold movieRepository.Create, bind, Gorm.CreateMovie, call.
  destruct (fault w _ _); [intros [=]|]. cbv zeta. rewrite H0. simpl.
  destruct (existsb _ _); intros [= <-]. split; reflexivity.
Qed.

Lemma Update_links (m : Movie.t) (w w' : World) :
  Movie.ID m <> 0 ->
  movieRepository.Update m w = (None, w') ->
  genres (db w') = genres (db w)
  /\ movie_genres (db w')
     = Gorm.add_links (Movie.ID m) (Movie.Genres m) (movie_genres (db w)).
Proof.
  intros H0. unfold movieRepository.Update, bind. rewrite (SaveMovie_eq _ _ H0).
  destruct (fault w _ _); [intros [=]|].
  destruct (existsb _ _); [intros [=]|]. cbv zeta.
  destruct (existsb _ _); intros [= <-]; split; reflexivity.
Qed.

(** ** One fetched item *)

(** What the loop body can do to a well-formed store: skip the item (only
    when one of its calls failed at its instant), insert it, or update the
    row found under its external id. *)
Lemma syncMovie_outcome_at (it : TMDBMovieResponse.t) (c c' : Z * Z) (w w' : World) :
  wf_db (db w) ->
  movieService.syncMovie it c w = (c', w') ->
  wf_db (db w')
  /\ ((c' = c /\ quiet w w' /\ skip_cause it w)
      \/ (c' = (fst c + 1, snd c)
          /\ Gorm.first_by_tmdb_id (TMDBMovieResponse.ID it) (movies (db w)) = None
          /\ fault w (OpMovieCreate (TMDBMovieResponse.ID it)) (lookup_time it w + 1) = None
          /\ exists row,
               steps w w' [EvMovieInserted (Movie.ID row)] /\ keeps_logs w w'
               /\ movies (db w') = movies (db w) ++ [row]
               /\ Movie.ID row = next_movie_id (db w)
               /\ clock w < Movie.CreatedAt row
               /\ carries_item row it /\ language_resolved row it (db w')
               /\ genres_linked row it w (db w')
               /\ links_written row it w (db w'))
      \/ (c' = (fst c, snd c + 1)
          /\ exists e row l1 l2,
               Gorm.first_by_tmdb_id (TMDBMovieResponse.ID it) (movies (db w)) = Some e
               /\ fault w (OpMovieSave (Movie.ID e)) (lookup_time it w + 1) = None
               /\ steps w w' [EvMovieUpdated (Movie.ID e)] /\ keeps_logs w w'
               /\ movies (db w) = l1 ++ e :: l2 /\ movies (db w') = l1 ++ row :: l2
               /\ Movie.ID row = Movie.ID e
               /\ Movie.CreatedAt row = Movie.CreatedAt e
               /\ carries_item row it /\ language_resolved row it (db w')
               /\ genres_linked row it w (db w')
               /\ links_written row it w (db w'))).
Proof.
  intros W. destruct c as [a u]. cbn [fst snd].
  unfold movieService.syncMovie, bind.
  unfold languageRepository.FindOrCreate.
  destruct (Gorm.FirstOrCreateLanguage _ _ w) as [r1 w1] eqn:E1.
  pose proof (FirstOrCreateLanguage_quiet _ _ _ _ _ E1) as Q1.
  pose proof (FirstOrCreateLanguage_clock _ _ _ _ _ E1) as C1.
  destruct r1 as [language|e1].
  2:{ intros [= <- <-]. split; [eapply wf_quiet; eassumption|]. left.
      split; [reflexivity|]. split; [exact Q1|]. left.
      rewrite (FirstOrCreateLanguage_Err _ _ _ _ _ E1). discriminate. }
  destruct (FirstOrCreateLanguage_Ok _ _ _ _ _ E1) as (Lin & Lcode).
  destruct (movieService.resolveGenres _ _ w1) as [gs w2] eqn:E2.
  pose proof (resolveGenres_quiet _ _ _ _ _ E2) as Q2.
  pose proof (resolveGenres_languages _ _ _ _ _ E2) as LG2.
  destruct (resolveGenres_resolved _ _ _ _ _ E2) as (_ & RG).
  destruct (resolveGenres_at _ _ _ _ _ E2) as (C2 & Only & All).
  pose proof (quiet_trans _ _ _ Q1 Q2) as Q12.
  pose proof (quiet_trans _ _ _ Q12 (quiet_tick w2)) as Q3.
  pose proof (wf_quiet _ _ Q3 W) as W3.
  pose proof (steps_fault _ _ _ (proj1 Q1)) as F1.
  pose proof (steps_fault _ _ _ (proj1 Q12)) as F2.
  assert (T2 : clock w2 = lookup_time it w) by (unfold lookup_time; lia).
  assert (M3 : movies (db (tick w2)) = movies (db w)) by apply Q3.
  assert (N3 : next_movie_id (db (tick w2)) = next_movie_id (db w)) by apply Q3.
  assert (L3 : movie_genres (db (tick w2)) = movie_genres (db w)) by apply Q3.
  assert (K3 : clock w <= clock (tick w2)) by apply Q3.
  assert (Res : forall g, In g gs ->
                  In g (genres (db w2)) /\ genre_resolves it w (Genre.TMDBID g)).
  { intros g Hg. destruct (Only g Hg) as [[]|(Hin & i & Hi & Hf)].
    split; [exact Hin|]. exists i. split; [exact Hi|].
    rewrite <- C1, <- F1. exact Hf. }
  assert (Lk : forall key (d : Database),
             genres d = genres (db w2) ->
             movie_genres d = Gorm.add_links key gs (movie_genres (db w)) ->
             forall row, Movie.ID row = key -> links_written row it w d).
  { intros key d G K row Hrow. split; [|split].
    - intros l Hl. rewrite K. apply add_links_keeps, Hl.
    - intros gid (i & Hi & Hf).
      destruct (All i gid Hi) as (g & Hg & Hin & Hid).
      { rewrite F1, C1. exact Hf. }
      exists g. rewrite G, K, Hrow. split; [exact Hin|]. split; [exact Hid|].
      apply add_links_has, Hg.
    - intros mid g Hl. rewrite K in Hl.
      apply add_links_only in Hl as [Hl|(genre & Hg & [= -> ->])]; [left; exact Hl|].
      right. split; [symmetry; exact Hrow|]. exists genre. rewrite G.
      destruct (Res genre Hg) as (Hin & Hr). split; [exact Hin|]. split; [reflexivity|exact Hr]. }
  unfold movieRepository.FindByTMDBID, bind. rewrite FirstMovieByTMDBID_eq.
  cbn [Movie.TMDBID Movie.set_Genres Movie.set_ID Movie.set_CreatedAt].
  set (movie := Movie.set_Genres gs _).
  assert (Create_case :
    forall err w4, movieRepository.Create movie (tick w2) = (err, w4) ->
      (fault w (OpMovieFirstByTMDBID (TMDBMovieResponse.ID it)) (lookup_time it w) <> None
       \/ Gorm.first_by_tmdb_id (TMDBMovieResponse.ID it) (movies (db w)) = None) ->
      forall c' w',
      (match err with Some _ => ret (a, u) | None => ret (a + 1, u) end) w4 = (c', w') ->
      wf_db (db w') /\
      ((c' = (a, u) /\ quiet w w' /\ skip_cause it w)
       \/ (c' = (a + 1, u)
           /\ Gorm.first_by_tmdb_id (TMDBMovieResponse.ID it) (movies (db w)) = None
           /\ fault w (OpMovieCreate (TMDBMovieResponse.ID it)) (lookup_time it w + 1) = None
           /\ exists row,
                steps w w' [EvMovieInserted (Movie.ID row)] /\ keeps_logs w w'
                /\ movies (db w') = movies (db w) ++ [row]
                /\ Movie.ID row = next_movie_id (db w)
                /\ clock w < Movie.CreatedAt row
                /\ carries_item row it /\ language_resolved row it (db w')
                /\ genres_linked row it w (db w')
                /\ links_written row it w (db w'))
       \/ (c' = (a, u + 1)
           /\ exists e row l1 l2,
                Gorm.first_by_tmdb_id (TMDBMovieResponse.ID it) (movies (db w)) = Some e
                /\ fault w (OpMovieSave (Movie.ID e)) (lookup_time it w + 1) = None
                /\ steps w w' [EvMovieUpdated (Movie.ID e)] /\ keeps_logs w w'
                /\ movies (db w) = l1 ++ e :: l2 /\ movies (db w') = l1 ++ row :: l2
                /\ Movie.ID row = Movie.ID e
                /\ Movie.CreatedAt row = Movie.CreatedAt e
                /\ carries_item row it /\ language_resolved row it (db w')
                /\ genres_linked row it w (db w')
                /\ links_written row it w (db w')))).
  { intros err w4 E4 Hwhy0 c2 w5 E5.
    pose proof (Create_languages _ _ _ _ E4) as LG4.
    pose proof E4 as E4'.
    apply Create_step_at in E4; [|reflexivity|reflexivity|reflexivity|exact W3].
    destruct E4 as (W4 & [(e & -> & Q4 & Hwhy)|(-> & Hc & Hn & S4 & L4 & M4)]);
      injection E5 as <- <-; (split; [exact W4|]).
    - left. split; [reflexivity|]. split; [eapply quiet_trans; eassumption|].
      destruct Hwhy0 as [Hl|Hnone]; [right; left; exact Hl|].
      destruct Hwhy as [Hf|Hf].
      + right. right. left. split; [exact Hnone|].
        rewrite <- F2, <- T2. exact Hf.
      + exfalso. apply Hf. rewrite M3. exact Hnone.
    - right. left. split; [reflexivity|]. rewrite M3 in Hn. split; [exact Hn|].
      split; [rewrite <- F2, <- T2; exact Hc|].
      destruct (Create_links movie _ _ eq_refl E4') as (G4 & K4).
      eexists. split; [|split; [|split; [|split; [|split; [|split; [|split; [|split]]]]]]].
      3:{ rewrite M4. simpl in M3 |- *. rewrite M3. reflexivity. }
      + exact (steps_trans w (tick w2) _ [] _ (proj1 Q3) S4).
      + eapply keeps_logs_trans; [apply Q3 | exact L4].
      + simpl. exact N3.
      + simpl in K3. simpl. lia.
      + repeat split.
      + exists language. rewrite LG4. simpl. rewrite LG2.
        split; [exact Lin|]. split; [exact Lcode | reflexivity].
      + intros gid Hgid Hf. destruct (RG gid Hgid) as (g & Hg & Hin & Hid).
        { intros t. rewrite (steps_fault _ _ _ (proj1 Q1)). apply Hf. }
        exists g. rewrite G4, K4. split; [exact Hin|]. split; [exact Hid|].
        apply add_links_has. exact Hg.
      + apply (Lk (next_movie_id (db w))); [exact G4 | | exact N3].
        rewrite K4, L3, N3. reflexivity. }
  destruct (fault w2 _ (clock w2)) as [e3|] eqn:F3.
  - assert (NF : fault w (OpMovieFirstByTMDBID (TMDBMovieResponse.ID it)) (lookup_time it w)
                 <> None).
    { rewrite <- F2, <- T2, F3. discriminate. }
    destruct (String.eqb e3 Gorm.ErrRecordNotFound).
    + unfold ret at 1.
      destruct (movieRepository.Create movie (tick w2)) as [err w4] eqn:E4.
      intros H. apply (Create_case err w4 eq_refl (or_introl NF) _ _ H).
    + intros [= <- <-]. split; [exact W3|]. left. split; [reflexivity|].
      split; [exact Q3 | right; left; exact NF].
  - simpl in M3.
    destruct (Gorm.first_by_tmdb_id _ (movies (db w2))) as [e|] eqn:Fd.
    + unfold ret at 1.
      apply first_by_tmdb_id_Some in Fd as Fd'. destruct Fd' as [He Hx].
      destruct (movieRepository.Update _ (tick w2)) as [err w4] eqn:E4.
      pose proof (Update_languages _ _ _ _ E4) as LG4.
      pose proof E4 as E4'.
      apply (Update_step_at _ e) in E4; [|exact W3|exact He|reflexivity|simpl; congruence].
      destruct E4 as (W4 & [(x & -> & Q4 & Hf)|(-> & Hs & S4 & L4 & l1 & l2 & M4 & M4')]);
        intros [= <- <-]; (split; [exact W4|]).
      * left. split; [reflexivity|]. split; [eapply quiet_trans; eassumption|].
        right. right. right. exists e. split; [rewrite <- M3; exact Fd|].
        rewrite <- F2, <- T2. exact Hf.
      * right. right. split; [reflexivity|].
        exists e. eexists. exists l1, l2.
        split; [rewrite <- M3; exact Fd|].
        split; [rewrite <- F2, <- T2; exact Hs|].
        assert (P0 : Movie.ID e <> 0).
        { pose proof (wf_id_pos _ _ W3 He) as P. clear - P. lia. }
        edestruct Update_links as (G4 & K4); [|exact E4'|]; [simpl; exact P0|].
        split; [|split; [|split; [|split; [|split; [|split; [|split; [|split; [|split]]]]]]]].
        4:{ exact M4'. }
        -- exact (steps_trans w (tick w2) _ [] _ (proj1 Q3) S4).
        -- eapply keeps_logs_trans; [apply Q3 | exact L4].
        -- rewrite <- M3. exact M4.
        -- reflexivity.
        -- reflexivity.
        -- repeat split.
        -- exists language. rewrite LG4. simpl. rewrite LG2.
           split; [exact Lin|]. split; [exact Lcode | reflexivity].
        -- intros gid Hgid Hf. destruct (RG gid Hgid) as (g & Hg & Hin & Hid).
           { intros t. rewrite (steps_fault _ _ _ (proj1 Q1)). apply Hf. }
           exists g. rewrite G4, K4. split; [exact Hin|]. split; [exact Hid|].
           apply add_links_has. exact Hg.
        -- apply (Lk (Movie.ID e)); [exact G4 | | reflexivity].
           rewrite K4, L3. reflexivity.
    + simpl (String.eqb _ _). unfold ret at 1.
      destruct (movieRepository.Create movie (tick w2)) as [err w4] eqn:E4.
      intros H. refine (Create_case err w4 eq_refl _ _ _ H).
      right. rewrite <- M3. exact Fd.
Qed.

Lemma skip_cause_faulty (it : TMDBMovieResponse.t) (w : World) :
  skip_cause it w -> ~ no_faults w.
Proof. intros [H|[H|[(_ & H)|(x & _ & H)]]] N; apply H, N. Qed.

Lemma syncMovie_outcome (it : TMDBMovieResponse.t) (c c' : Z * Z) (w w' : World) :
  wf_db (db w) ->
  movieService.syncMovie it c w = (c', w') ->
  wf_db (db w')
  /\ ((c' = c /\ quiet w w' /\ ~ no_faults w)
      \/ (c' = (fst c + 1, snd c)
          /\ Gorm.first_by_tmdb_id (TMDBMovieResponse.ID it) (movies (db w)) = None
          /\ exists row,
               steps w w' [EvMovieInserted (Movie.ID row)] /\ keeps_logs w w'
               /\ movies (db w') = movies (db w) ++ [row]
               /\ Movie.ID row = next_movie_id (db w)
               /\ clock w < Movie.CreatedAt row
               /\ carries_item row it /\ language_resolved row it (db w')
    /\ genres_linked row it w (db w'))
      \/ (c' = (fst c, snd c + 1)
          /\ exists e row l1 l2,
               Gorm.first_by_tmdb_id (TMDBMovieResponse.ID it) (movies (db w)) = Some e
               /\ steps w w' [EvMovieUpdated (Movie.ID e)] /\ keeps_logs w w'
               /\ movies (db w) = l1 ++ e :: l2 /\ movies (db w') = l1 ++ row :: l2
               /\ Movie.ID row = Movie.ID e
               /\ Movie.CreatedAt row = Movie.CreatedAt e
               /\ carries_item row it /\ language_resolved row it (db w')
    /\ genres_linked row it w (db w'))).
Proof.
  intros W E.
  destruct (syncMovie_outcome_at _ _ _ _ _ W E)
    as (W' & [(-> & Q & Sk)
             |[(-> & Hn & _ & row & S & L & M & I & T & Cr & Lr & Gl & _)
              |(-> & e & row & l1 & l2 & He & _ & S & L & M & M' & I & T & Cr & Lr & Gl & _)]]);
    (split; [exact W'|]).
  - left. split; [reflexivity|]. split; [exact Q | exact (skip_cause_faulty _ _ Sk)].
  - right. left. split; [reflexivity|]. split; [exact Hn|]. exists row.
    repeat (split; [assumption|]). exact Gl.
  - right. right. split; [reflexivity|]. exists e, row, l1, l2.
    repeat (split; [assumption|]). exact Gl.
Qed.

(** Whatever happens, an item touches neither TMDB nor the log table. *)
Lemma CreateMovie_frame (m : Movie.t) (w w' : World) r :
  Gorm.CreateMovie m w = (r, w') ->
  exists evs, steps w w' evs /\ keeps_logs w w' /\ only_movie_writes evs.
Proof.
  unfold Gorm.CreateMovie, call. destruct (fault w _ _).
  - intros [= <- <-]. exists []. split; [apply steps_tick|]. repeat split.
  - cbv zeta. destruct (existsb _ _); intros [= <- <-].
    + exists []. split; [apply steps_tick|]. repeat split.
    + eexists. split; [unfold steps; simpl; repeat split; try reflexivity; lia|].
      split; split; reflexivity.
Qed.

Lemma SaveMovie_frame (m : Movie.t) (w w' : World) r :
  Gorm.SaveMovie m w = (r, w') ->
  exists evs, steps w w' evs /\ keeps_logs w w' /\ only_movie_writes evs.
Proof.
  unfold Gorm.SaveMovie. destruct (Movie.ID m =? 0); [apply CreateMovie_frame|].
  unfold call. destruct (fault w _ _).
  - intros [= <- <-]. exists []. split; [apply steps_tick|]. repeat split.
  - cbv zeta. destruct (existsb _ _).
    + intros [= <- <-]. exists []. split; [apply steps_tick|]. repeat split.
    + destruct (existsb _ _); intros [= <- <-];
        (eexists; split; [unfold steps; simpl; repeat split; try reflexivity; lia|]);
        split; split; reflexivity.
Qed.

Lemma quiet_frame (w w' : World) :
  quiet w w' -> exists evs, steps w w' evs /\ keeps_logs w w' /\ only_movie_writes evs.
Proof.
  intros (S & _ & L). exists []. split; [exact S|]. split; [exact L|]. split; reflexivity.
Qed.

Lemma frame_trans (w1 w2 w3 : World) :
  (exists evs, steps w1 w2 evs /\ keeps_logs w1 w2 /\ only_movie_writes evs) ->
  (exists evs, steps w2 w3 evs /\ keeps_logs w2 w3 /\ only_movie_writes evs) ->
  exists evs, steps w1 w3 evs /\ keeps_logs w1 w3 /\ only_movie_writes evs.
Proof.
  intros (e1 & S1 & L1 & F1 & G1) (e2 & S2 & L2 & F2 & G2). exists (e1 ++ e2).
  split; [eapply steps_trans; eassumption|].
  split; [eapply keeps_logs_trans; eassumption|].
  unfold only_movie_writes, fetched_pages, inserted_logs in *.
  rewrite !omap_app, F1, F2, G1, G2. split; reflexivity.
Qed.

Lemma syncMovie_frame (it : TMDBMovieResponse.t) (c c' : Z * Z) (w w' : World) :
  movieService.syncMovie it c w = (c', w') ->
  exists evs, steps w w' evs /\ keeps_logs w w' /\ only_movie_writes evs.
Proof.
  destruct c as [a u]. unfold movieService.syncMovie, bind.
  unfold languageRepository.FindOrCreate.
  destruct (Gorm.FirstOrCreateLanguage _ _ w) as [r1 w1] eqn:E1.
  apply FirstOrCreateLanguage_quiet in E1.
  destruct r1 as [language|e1]; [|intros [= <- <-]; apply quiet_frame, E1].
  destruct (movieService.resolveGenres _ _ w1) as [gs w2] eqn:E2.
  apply resolveGenres_quiet in E2.
  pose proof (quiet_trans _ _ _ (quiet_trans _ _ _ E1 E2) (quiet_tick w2)) as Q3.
  unfold movieRepository.FindByTMDBID, bind. rewrite FirstMovieByTMDBID_eq.
  unfold movieRepository.Create, movieRepository.Update, bind, ret.
  intros H. apply (frame_trans w (tick w2) w'); [apply quiet_frame, Q3|].
  destruct (match fault w2 _ _ with Some e => Err e | None => _ end) as [existing|e3].
  - destruct (Gorm.SaveMovie _ _) as [r4 w4] eqn:E4. apply SaveMovie_frame in E4.
    destruct r4; injection H as <- <-; exact E4.
  - destruct (String.eqb e3 _).
    + destruct (Gorm.CreateMovie _ _) as [r4 w4] eqn:E4. apply CreateMovie_frame in E4.
      destruct r4; injection H as <- <-; exact E4.
    + injection H as <- <-. apply quiet_frame, quiet_refl.
Qed.

(** ** The loops of a sync run *)

Lemma syncMovies_frame (its : list TMDBMovieResponse.t) (c c' : Z * Z) (w w' : World) :
  movieService.syncMovies its c w = (c', w') ->
  exists evs, steps w w' evs /\ keeps_logs w w' /\ only_movie_writes evs.
Proof.
  revert c w. induction its as [|it its IH]; simpl; intros c w H.
  - injection H as <- <-. apply quiet_frame, quiet_refl.
  - unfold bind in H. destruct (movieService.syncMovie it c w) as [c1 w1] eqn:E1.
    apply syncMovie_frame in E1. apply IH in H. eapply frame_trans; eassumption.
Qed.

Lemma counted_trans (c1 c2 c3 : Z * Z) (w1 w2 w3 : World) (e1 e2 : list Event) :
  counted c1 c2 w1 w2 e1 -> counted c2 c3 w2 w3 e2 -> counted c1 c3 w1 w3 (e1 ++ e2).
Proof.
  unfold counted, inserted_movies, updated_movies.
  intros (A1 & B1 & C1) (A2 & B2 & C2). rewrite !omap_app, !length_app. lia.
Qed.

Lemma syncMovie_counted (it : TMDBMovieResponse.t) (c c' : Z * Z) (w w' : World) :
  wf_db (db w) ->
  movieService.syncMovie it c w = (c', w') ->
  wf_db (db w') /\ exists evs, steps w w' evs /\ counted c c' w w' evs.
Proof.
  intros W H. apply syncMovie_outcome in H as (W' & H); [|exact W].
  split; [exact W'|].
  destruct H as [(-> & (S & (M & _) & _) & _)
                |[(-> & _ & row & S & _ & M & _)
                 |(-> & e & row & l1 & l2 & _ & S & _ & M & M' & _)]].
  - exists []. split; [exact S|]. unfold counted; simpl. rewrite M. lia.
  - eexists. split; [exact S|]. unfold counted; simpl. rewrite M, length_app. simpl. lia.
  - eexists. split; [exact S|]. unfold counted; simpl. rewrite M, M', !length_app. simpl. lia.
Qed.

Lemma syncMovies_counted (its : list TMDBMovieResponse.t) (c c' : Z * Z) (w w' : World) :
  wf_db (db w) ->
  movieService.syncMovies its c w = (c', w') ->
  wf_db (db w') /\ exists evs, steps w w' evs /\ counted c c' w w' evs.
Proof.
  revert c w. induction its as [|it its IH]; simpl; intros c w W H.
  - injection H as <- <-. split; [exact W|]. exists []. split; [apply steps_refl|].
    unfold counted; simpl. lia.
  - unfold bind in H. destruct (movieService.syncMovie it c w) as [c1 w1] eqn:E1.
    apply syncMovie_counted in E1 as (W1 & e1 & S1 & C1); [|exact W].
    apply IH in H as (W2 & e2 & S2 & C2); [|exact W1].
    split; [exact W2|]. exists (e1 ++ e2).
    split; [eapply steps_trans | eapply counted_trans]; eassumption.
Qed.

Lemma GetPopular_eq (page : Z) (w : World) :
  Tmdb.GetPopular page w = (tmdb w page, emit (EvFetch page) (tick w)).
Proof. reflexivity. Qed.

Lemma steps_fetch (page : Z) (w : World) : steps w (emit (EvFetch page) (tick w)) [EvFetch page].
Proof. unfold steps; simpl. repeat split; try reflexivity; lia. Qed.

(** Writing the log of a run, when the store takes the write. *)
Lemma CreateSyncLog_ok (log : SyncLog.t) (w : World) :
  fault w OpSyncLogCreate (clock w) = None ->
  exists log' w',
    movieRepository.CreateSyncLog log w = ((log', None), w')
    /\ steps w w' [EvSyncLogInserted (SyncLog.ID log')]
    /\ keeps_movies w w'
    /\ sync_logs (db w') = sync_logs (db w) ++ [log']
    /\ SyncLog.Status log' = SyncLog.Status log
    /\ SyncLog.MoviesAdded log' = SyncLog.MoviesAdded log
    /\ SyncLog.MoviesUpdated log' = SyncLog.MoviesUpdated log
    /\ SyncLog.ErrorMessage log' = SyncLog.ErrorMessage log
    /\ SyncLog.SyncedAt log' = SyncLog.SyncedAt log
    /\ SyncLog.SyncType log' = SyncLog.SyncType log.
Proof.
  intros F. unfold movieRepository.CreateSyncLog, bind, Gorm.CreateSyncLog.
  rewrite (call_ok _ _ _ F). cbv zeta. eexists. eexists. split; [reflexivity|].
  split; [unfold steps; simpl; repeat split; try reflexivity; lia|].
  repeat split.
Qed.

(** Written or not, the log of a run comes back with its status, counts
    and message. *)
Lemma CreateSyncLog_any (log : SyncLog.t) (w : World) :
  exists log' err w' evs,
    movieRepository.CreateSyncLog log w = ((log', err), w')
    /\ steps w w' evs /\ fetched_pages evs = []
    /\ SyncLog.Status log' = SyncLog.Status log
    /\ SyncLog.MoviesAdded log' = SyncLog.MoviesAdded log
    /\ SyncLog.MoviesUpdated log' = SyncLog.MoviesUpdated log
    /\ SyncLog.ErrorMessage log' = SyncLog.ErrorMessage log.
Proof.
  unfold movieRepository.CreateSyncLog, bind, Gorm.CreateSyncLog, call.
  destruct (fault w _ _).
  - exists log. eexists. eexists. exists []. split; [reflexivity|].
    split; [apply steps_tick|]. repeat split.
  - cbv zeta. eexists. eexists. eexists. eexists. split; [reflexivity|].
    split; [unfold steps; simpl; repeat split; try reflexivity; lia|].
    repeat split.
Qed.

Lemma clamp_pages (pages : Z) :
  (if 10 <? (if pages <? 1 then 1 else pages) then 10
   else (if pages <? 1 then 1 else pages)) = Z.min 10 (Z.max 1 pages).
Proof.
  destruct (Z.ltb_spec pages 1); [destruct (Z.ltb_spec 10 1) | destruct (Z.ltb_spec 10 pages)];
    lia.
Qed.

(** When every page comes back, the loop fetches them all, in order, and
    runs to its end whatever the store does. *)
Lemma syncPages_all (pages : list Z) (log : SyncLog.t) (c : Z * Z) (w : World) :
  (forall p, In p pages -> exists ms, tmdb w p = Ok ms) ->
  exists c' w' evs,
    movieService.syncPages pages log c w = (inr c', w')
    /\ steps w w' evs /\ keeps_logs w w'
    /\ fetched_pages evs = pages /\ inserted_logs evs = [].
Proof.
  revert c w. induction pages as [|p pages IH]; intros c w H.
  - exists c, w, []. split; [reflexivity|]. split; [apply steps_refl|]. repeat split.
  - simpl. unfold bind. rewrite GetPopular_eq.
    destruct (H p (or_introl eq_refl)) as (ms & ->).
    destruct (movieService.syncMovies ms c _) as [c1 w1] eqn:E1.
    pose proof (syncMovies_frame _ _ _ _ _ E1) as (e1 & S1 & L1 & F1 & G1).
    pose proof (steps_trans _ _ _ _ _ (steps_fetch p w) S1) as S01.
    destruct (IH c1 w1) as (c' & w' & e2 & E2 & S2 & L2 & F2 & G2).
    { intros q Hq. rewrite (steps_tmdb _ _ _ S01). apply H. right. exact Hq. }
    exists c', w', ([EvFetch p] ++ e1 ++ e2). split; [exact E2|].
    split; [rewrite app_assoc; eapply steps_trans; eassumption|].
    split; [eapply keeps_logs_trans; [|exact L2]; exact L1|].
    unfold fetched_pages, inserted_logs in *. rewrite !omap_app, F1, F2, G1, G2.
    split; reflexivity.
Qed.

(** The same run over a well-formed store keeps exact counts. *)
Lemma syncPages_counted (pages : list Z) (log : SyncLog.t) (c c' : Z * Z) (w w' : World) :
  wf_db (db w) ->
  movieService.syncPages pages log c w = (inr c', w') ->
  wf_db (db w') /\ exists evs, steps w w' evs /\ counted c c' w w' evs.
Proof.
  revert c w. induction pages as [|p pages IH]; intros c w W.
  - intros [= <- <-]. split; [exact W|]. exists []. split; [apply steps_refl|].
    unfold counted; simpl. lia.
  - simpl. unfold bind. rewrite GetPopular_eq. destruct (tmdb w p) as [ms|e].
    + destruct (movieService.syncMovies ms c _) as [c1 w1] eqn:E1.
      apply syncMovies_counted in E1 as (W1 & e1 & S1 & C1); [|exact W].
      intros H. apply IH in H as (W2 & e2 & S2 & C2); [|exact W1].
      split; [exact W2|]. exists ([EvFetch p] ++ e1 ++ e2).
      split; [rewrite app_assoc; eapply steps_trans;
              [eapply steps_trans; [apply steps_fetch|exact S1]|exact S2]|].
      apply (counted_trans c c c' w (emit (EvFetch p) (tick w)) w' [EvFetch p] (e1 ++ e2)).
      * unfold counted; simpl. lia.
      * eapply counted_trans; eassumption.
    + destruct (movieRepository.CreateSyncLog _ _) as [[l x] w1]. intros [=].
Qed.

(** A fetch that fails ends the loop: nothing is fetched after it, and the
    log of the run is written with the message of the failure. *)
Lemma syncPages_fails (pre post : list Z) (k : Z) (e : error)
      (log : SyncLog.t) (c : Z * Z) (w : World) :
  (forall p, In p pre -> exists ms, tmdb w p = Ok ms) ->
  tmdb w k = Err e ->
  (forall t, fault w OpSyncLogCreate t = None) ->
  exists log' w' evs,
    movieService.syncPages (pre ++ k :: post) log c w = (inl (log', e), w')
    /\ steps w w' evs
    /\ fetched_pages evs = pre ++ [k]
    /\ inserted_logs evs = [SyncLog.ID log']
    /\ sync_logs (db w') = sync_logs (db w) ++ [log']
    /\ SyncLog.Status log' = SyncLog.Status log
    /\ SyncLog.ErrorMessage log'
       = ("failed to fetch page " +:+ pretty k +:+ ": " +:+ e)%string.
Proof.
  revert c w. induction pre as [|p pre IH]; intros c w H Hk Hl.
  - simpl. unfold bind. rewrite GetPopular_eq, Hk.
    destruct (CreateSyncLog_ok
                (movieService.set_failure
                   ("failed to fetch page " +:+ pretty k +:+ ": " +:+ e)%string log)
                (emit (EvFetch k) (tick w)) (Hl _))
      as (log' & w' & E & S & _ & L & St & _ & _ & Em & _).
    rewrite E. exists log', w', ([EvFetch k] ++ [EvSyncLogInserted (SyncLog.ID log')]).
    split; [reflexivity|]. split; [eapply steps_trans; [apply steps_fetch|exact S]|].
    repeat split; assumption.
  - simpl. unfold bind. rewrite GetPopular_eq.
    destruct (H p (or_introl eq_refl)) as (ms & ->).
    destruct (movieService.syncMovies ms c _) as [c1 w1] eqn:E1.
    pose proof (syncMovies_frame _ _ _ _ _ E1) as (e1 & S1 & (L1 & _) & F1 & G1).
    pose proof (steps_trans _ _ _ _ _ (steps_fetch p w) S1) as S01.
    destruct (IH c1 w1) as (log' & w' & e2 & E2 & S2 & F2 & G2 & L2 & R2).
    { intros q Hq. rewrite (steps_tmdb _ _ _ S01). apply H. right. exact Hq. }
    { rewrite (steps_tmdb _ _ _ S01). exact Hk. }
    { intros t. rewrite (steps_fault _ _ _ S01). apply Hl. }
    exists log', w', ([EvFetch p] ++ e1 ++ e2). split; [exact E2|].
    split; [rewrite app_assoc; eapply steps_trans; eassumption|].
    unfold fetched_pages, inserted_logs in *. rewrite !omap_app, F1, F2, G1, G2.
    split; [reflexivity|]. split; [reflexivity|]. split; [|exact R2].
    rewrite L2. simpl in L1. rewrite L1. reflexivity.
Qed.

Lemma seqZ_split (k n : Z) :
  1 <= k <= n -> seqZ 1 n = seqZ 1 (k - 1) ++ k :: seqZ (k + 1) (n - k).
Proof.
  intros H. replace n with ((k - 1) + (n - k + 1)) at 1 by lia.
  rewrite seqZ_app by lia. f_equal. replace (1 + (k - 1)) with k by lia.
  rewrite seqZ_cons by lia. f_equal. f_equal; lia.
Qed.

Lemma seqZ_snoc (k : Z) : 1 <= k -> seqZ 1 k = seqZ 1 (k - 1) ++ [k].
Proof.
  intros H. replace k with ((k - 1) + 1) at 1 by lia.
  rewrite seqZ_app by lia. f_equal. replace (1 + (k - 1)) with k by lia. reflexivity.
Qed.

(** C2. A sync run whose fetch of page [k] fails (the pages before it having
    come back) fetches exactly the pages 1..k and no page after [k], writes
    one SyncLog row with status "failed" whose error message is the
    non-empty text "failed to fetch page k: <fetch error>", and returns that
    row together with the fetch error.  The store is assumed to take the
    write of the log. *)
Theorem sync_fetch_failure_is_logged
        (s : movieService.t) (pages k : Z) (e : error) (w : World) :
  1 <= k <= Z.min 10 (Z.max 1 pages) ->
  (forall j, 1 <= j < k -> exists ms, tmdb w j = Ok ms) ->
  tmdb w k = Err e ->
  (forall t, fault w OpSyncLogCreate t = None) ->
  exists log w' evs,
    movieService.SyncMoviesFromTMDB s pages w = ((log, Some e), w')
    /\ trace w' = trace w ++ evs
    /\ fetched_pages evs = seqZ 1 k
    /\ inserted_logs evs = [SyncLog.ID log]
    /\ sync_logs (db w') = sync_logs (db w) ++ [log]
    /\ SyncLog.Status log = "failed"%string
    /\ SyncLog.ErrorMessage log
       = ("failed to fetch page " +:+ pretty k +:+ ": " +:+ e)%string
    /\ SyncLog.ErrorMessage log <> ""%string.
Proof.
  intros Hk Hpre Hfail Hlog.
  unfold movieService.SyncMoviesFromTMDB, bind, Now. rewrite clamp_pages.
  rewrite (seqZ_split k _ Hk).
  destruct (syncPages_fails (seqZ 1 (k - 1)) (seqZ (k + 1) (Z.min 10 (Z.max 1 pages) - k))
              k e (SyncLog.mk 0 "manual" "failed" 0 0 "" (clock w) 0) (0, 0) (tick w))
    as (log & w' & evs & E & S & F & G & L & St & Em).
  - intros p Hp. apply list_elem_of_In, elem_of_seqZ in Hp. apply Hpre. lia.
  - exact Hfail.
  - exact Hlog.
  - rewrite E. exists log, w', evs. split; [reflexivity|].
    split; [apply S|]. split; [rewrite F; symmetry; apply seqZ_snoc; lia|].
    split; [exact G|]. split; [exact L|]. split; [exact St|]. split; [exact Em|].
    rewrite Em. simpl. discriminate.
Qed.

Lemma sync_fetch_failure_is_logged_witness :
  exists log w' evs,
    movieService.SyncMoviesFromTMDB Examples.svc 3 Examples.fresh
    = ((log, Some "TMDB API returned status 503: busy"%string), w')
    /\ trace w' = trace Examples.fresh ++ evs
    /\ fetched_pages evs = seqZ 1 2
    /\ inserted_logs evs = [SyncLog.ID log]
    /\ sync_logs (db w') = sync_logs (db Examples.fresh) ++ [log]
    /\ SyncLog.Status log = "failed"%string
    /\ SyncLog.ErrorMessage log
       = ("failed to fetch page " +:+ pretty 2 +:+ ": "
          +:+ "TMDB API returned status 503: busy")%string
    /\ SyncLog.ErrorMessage log <> ""%string.
Proof.
  apply (sync_fetch_failure_is_logged Examples.svc 3 2
           "TMDB API returned status 503: busy" Examples.fresh).
  - vm_compute. split; discriminate.
  - intros j Hj. assert (j = 1) as -> by lia. eexists. reflexivity.
  - reflexivity.
  - intros t. reflexivity.
Defined.

(** ** Upserts when no call fails *)

Lemma syncMovie_new (it : TMDBMovieResponse.t) (c : Z * Z) (w : World) :
  wf_db (db w) -> no_faults w ->
  Gorm.first_by_tmdb_id (TMDBMovieResponse.ID it) (movies (db w)) = None ->
  exists w' row,
    movieService.syncMovie it c w = ((fst c + 1, snd c), w')
    /\ wf_db (db w')
    /\ steps w w' [EvMovieInserted (Movie.ID row)]
    /\ movies (db w') = movies (db w) ++ [row]
    /\ Movie.ID row = next_movie_id (db w)
    /\ clock w < Movie.CreatedAt row
    /\ carries_item row it /\ language_resolved row it (db w')
    /\ genres_linked row it w (db w').
Proof.
  intros W N Hn. destruct (movieService.syncMovie it c w) as [c' w'] eqn:E.
  destruct (syncMovie_outcome _ _ _ _ _ W E)
    as (W' & [(_ & _ & Hf)|[(-> & _ & row & S & _ & M & I & T & Cr & Lr)
                           |(_ & e & ? & ? & ? & He & _)]]).
  - exfalso. apply Hf, N.
  - exists w', row. repeat (split; [solve [reflexivity | assumption]|]). exact Lr.
  - congruence.
Qed.

Lemma syncMovie_existing (it : TMDBMovieResponse.t) (c : Z * Z) (w : World) (e : Movie.t) :
  wf_db (db w) -> no_faults w ->
  Gorm.first_by_tmdb_id (TMDBMovieResponse.ID it) (movies (db w)) = Some e ->
  exists w' row l1 l2,
    movieService.syncMovie it c w = ((fst c, snd c + 1), w')
    /\ wf_db (db w')
    /\ steps w w' [EvMovieUpdated (Movie.ID e)]
    /\ movies (db w) = l1 ++ e :: l2
    /\ movies (db w') = l1 ++ row :: l2
    /\ Movie.ID row = Movie.ID e
    /\ Movie.CreatedAt row = Movie.CreatedAt e
    /\ carries_item row it /\ language_resolved row it (db w')
    /\ genres_linked row it w (db w').
Proof.
  intros W N He. destruct (movieService.syncMovie it c w) as [c' w'] eqn:E.
  destruct (syncMovie_outcome _ _ _ _ _ W E)
    as (W' & [(_ & _ & Hf)|[(_ & Hn & _)
                           |(-> & e' & row & l1 & l2 & He' & S & _ & M & M' & I & T & Cr & Lr)]]).
  - exfalso. apply Hf, N.
  - congruence.
  - assert (e' = e) as -> by congruence.
    exists w', row, l1, l2. repeat (split; [solve [reflexivity | assumption]|]). exact Lr.
Qed.

Lemma first_by_tmdb_id_snoc (x : Z) (rows : list Movie.t) (r : Movie.t) :
  Gorm.first_by_tmdb_id x rows = None -> Movie.TMDBID r <> x ->
  Gorm.first_by_tmdb_id x (rows ++ [r]) = None.
Proof.
  unfold Gorm.first_by_tmdb_id. intros H Hr.
  induction rows as [|a rows IH]; simpl in *.
  - apply Z.eqb_neq in Hr. rewrite Hr. reflexivity.
  - destruct (Movie.TMDBID a =? x); [discriminate | apply IH, H].
Qed.

(** Two items that are both new to the store are both inserted. *)
Lemma syncMovies_two_new (m1 m2 : TMDBMovieResponse.t) (c : Z * Z) (w : World) :
  wf_db (db w) -> no_faults w ->
  TMDBMovieResponse.ID m1 <> TMDBMovieResponse.ID m2 ->
  Gorm.first_by_tmdb_id (TMDBMovieResponse.ID m1) (movies (db w)) = None ->
  Gorm.first_by_tmdb_id (TMDBMovieResponse.ID m2) (movies (db w)) = None ->
  exists w', movieService.syncMovies [m1; m2] c w = ((fst c + 2, snd c), w').
Proof.
  intros W N D H1 H2.
  destruct (syncMovie_new m1 c w W N H1) as (w1 & r1 & E1 & W1 & S1 & M1 & _ & _ & C1 & _).
  assert (H2' : Gorm.first_by_tmdb_id (TMDBMovieResponse.ID m2) (movies (db w1)) = None).
  { rewrite M1. apply first_by_tmdb_id_snoc; [exact H2|]. destruct C1 as [-> _]. exact D. }
  destruct (syncMovie_new m2 (fst c + 1, snd c) w1 W1 (steps_no_faults _ _ _ S1 N) H2')
    as (w2 & r2 & E2 & _).
  exists w2. simpl. unfold bind. rewrite E1, E2. simpl. unfold ret. f_equal. f_equal. lia.
Qed.

Lemma app_inv_trace (w w' : World) (e1 e2 : list Event) :
  steps w w' e1 -> steps w w' e2 -> e1 = e2.
Proof. intros [T1 _] [T2 _]. rewrite T1 in T2. apply app_inv_head in T2. exact T2. Qed.

(** C4. A sync run all of whose page fetches succeed writes exactly one
    SyncLog row; its status is "success", its added count is the number of
    rows the run inserted into [movies] (by which the table has grown) and
    its updated count the number of rows the run updated.  In particular a
    run over one page holding two movies, both new to the store, with no
    failing call, logs added = 2 and updated = 0.  The store is well formed
    and is assumed to take the write of the log. *)
Theorem sync_success_is_logged (s : movieService.t) (pages : Z) (w : World) :
  wf_db (db w) ->
  (forall j, 1 <= j <= Z.min 10 (Z.max 1 pages) -> exists ms, tmdb w j = Ok ms) ->
  (forall t, fault w OpSyncLogCreate t = None) ->
  exists log w' evs,
    movieService.SyncMoviesFromTMDB s pages w = ((log, None), w')
    /\ trace w' = trace w ++ evs
    /\ fetched_pages evs = seqZ 1 (Z.min 10 (Z.max 1 pages))
    /\ inserted_logs evs = [SyncLog.ID log]
    /\ sync_logs (db w') = sync_logs (db w) ++ [log]
    /\ SyncLog.Status log = "success"%string
    /\ SyncLog.MoviesAdded log = Z.of_nat (length (inserted_movies evs))
    /\ SyncLog.MoviesUpdated log = Z.of_nat (length (updated_movies evs))
    /\ Z.of_nat (length (movies (db w')))
       = Z.of_nat (length (movies (db w))) + SyncLog.MoviesAdded log
    /\ (forall m1 m2,
          no_faults w -> pages <= 1 -> tmdb w 1 = Ok [m1; m2] ->
          TMDBMovieResponse.ID m1 <> TMDBMovieResponse.ID m2 ->
          Gorm.first_by_tmdb_id (TMDBMovieResponse.ID m1) (movies (db w)) = None ->
          Gorm.first_by_tmdb_id (TMDBMovieResponse.ID m2) (movies (db w)) = None ->
          SyncLog.MoviesAdded log = 2 /\ SyncLog.MoviesUpdated log = 0).
Proof.
  intros W Hall Hlog.
  unfold movieService.SyncMoviesFromTMDB, bind, Now. rewrite clamp_pages.
  set (P := Z.min 10 (Z.max 1 pages)) in *.
  set (log0 := SyncLog.mk 0 "manual" "failed" 0 0 "" (clock w) 0).
  destruct (syncPages_all (seqZ 1 P) log0 (0, 0) (tick w))
    as ([a u] & w1 & e1 & E & S1 & L1 & F1 & G1).
  { intros p Hp. apply list_elem_of_In, elem_of_seqZ in Hp. apply Hall. lia. }
  destruct (syncPages_counted _ _ _ _ (tick w) _ W E) as (W1 & e1' & S1' & A1 & U1 & M1).
  rewrite (app_inv_trace _ _ _ _ S1' S1) in A1, U1, M1. clear e1' S1'.
  destruct (CreateSyncLog_ok (movieService.set_success a u log0) w1)
    as (log & w' & E' & S2 & (M2 & _) & L2 & St & Ad & Up & _).
  { rewrite (steps_fault _ _ _ S1). apply Hlog. }
  rewrite E, E'. exists log, w', (e1 ++ [EvSyncLogInserted (SyncLog.ID log)]).
  split; [reflexivity|].
  split; [exact (proj1 (steps_trans _ _ _ _ _ S1 S2))|].
  unfold fetched_pages, inserted_logs, inserted_movies, updated_movies in *.
  rewrite !omap_app, F1, G1. simpl. rewrite !app_nil_r.
  split; [reflexivity|]. split; [reflexivity|].
  split; [rewrite L2; f_equal; apply L1|].
  split; [exact St|]. simpl in A1, U1, M1.
  split; [rewrite Ad; exact A1|]. split; [rewrite Up; exact U1|].
  split; [rewrite M2, Ad; simpl; lia|].
  intros m1 m2 N Hp H1 D N1 N2.
  assert (P = 1) as HP by (unfold P; lia). rewrite HP in E.
  change (seqZ 1 1) with [1] in E. simpl in E. unfold bind in E.
  rewrite GetPopular_eq in E. simpl in E. rewrite H1 in E.
  destruct (syncMovies_two_new m1 m2 (0, 0) (emit (EvFetch 1) (tick (tick w))) W N D N1 N2)
    as (w2 & E2).
  rewrite E2 in E. injection E as <- <- _. rewrite Ad, Up. split; reflexivity.
Qed.

Lemma wf_empty_db : wf_db Examples.empty_db.
Proof.
  unfold wf_db; simpl. split; [apply NoDup_nil_2|]. split; [apply NoDup_nil_2|].
  split; [apply Forall_nil_2 | lia].
Qed.

Lemma sync_success_is_logged_witness :
  exists log w' evs,
    movieService.SyncMoviesFromTMDB Examples.svc 1 Examples.fresh = ((log, None), w')
    /\ trace w' = trace Examples.fresh ++ evs
    /\ fetched_pages evs = seqZ 1 (Z.min 10 (Z.max 1 1))
    /\ inserted_logs evs = [SyncLog.ID log]
    /\ sync_logs (db w') = sync_logs (db Examples.fresh) ++ [log]
    /\ SyncLog.Status log = "success"%string
    /\ SyncLog.MoviesAdded log = Z.of_nat (length (inserted_movies evs))
    /\ SyncLog.MoviesUpdated log = Z.of_nat (length (updated_movies evs))
    /\ Z.of_nat (length (movies (db w')))
       = Z.of_nat (length (movies (db Examples.fresh))) + SyncLog.MoviesAdded log
    /\ (forall m1 m2,
          no_faults Examples.fresh -> 1 <= 1 -> tmdb Examples.fresh 1 = Ok [m1; m2] ->
          TMDBMovieResponse.ID m1 <> TMDBMovieResponse.ID m2 ->
          Gorm.first_by_tmdb_id (TMDBMovieResponse.ID m1) (movies (db Examples.fresh)) = None ->
          Gorm.first_by_tmdb_id (TMDBMovieResponse.ID m2) (movies (db Examples.fresh)) = None ->
          SyncLog.MoviesAdded log = 2 /\ SyncLog.MoviesUpdated log = 0).
Proof.
  apply (sync_success_is_logged Examples.svc 1 Examples.fresh).
  - apply wf_empty_db.
  - intros j Hj. assert (j = 1) as -> by lia. eexists. reflexivity.
  - intros t. reflexivity.
Defined.


Lemma wf_stocked_db : wf_db Examples.stocked_db.
Proof.
  unfold wf_db. simpl. split; [|split; [|split; [|lia]]].
  - compute_done.
  - compute_done.
  - repeat constructor.
Qed.

(** ** The public update operation *)

Lemma DeleteFile_db (s : MinIOService.t) (p : string) (w w' : World) r :
  MinIOService.DeleteFile s p w = (r, w') -> db w' = db w.
Proof.
  unfold MinIOService.DeleteFile, bind, Minio.RemoveObject, call.
  destruct (fault w _ _); intros [= _ <-]; reflexivity.
Qed.

Lemma deleteStoredImage_db (s : movieService.t) (m : MinIOService.t) (p : string)
      (w w' : World) r :
  movieService.deleteStoredImage s m p w = (r, w') -> db w' = db w.
Proof.
  unfold movieService.deleteStoredImage.
  destruct (_ && _); [|intros [= _ <-]; reflexivity].
  destruct (0 <? _); [|intros [= _ <-]; reflexivity].
  unfold bind. destruct (MinIOService.DeleteFile _ _ w) as [x w1] eqn:E.
  apply DeleteFile_db in E. intros [= _ <-]. exact E.
Qed.

Lemma deleteReplacedImages_db (s : movieService.t) (movie existing : Movie.t)
      (w w' : World) r :
  movieService.deleteReplacedImages s movie existing w = (r, w') -> db w' = db w.
Proof.
  unfold movieService.deleteReplacedImages.
  destruct (movieService.minioService s) as [m|]; [|intros [= _ <-]; reflexivity].
  unfold bind.
  destruct (negb (String.eqb (Movie.PosterPath movie) "") && _).
  - destruct (movieService.deleteStoredImage s m _ w) as [u w0] eqn:E0.
    apply deleteStoredImage_db in E0.
    destruct (_ && _).
    + intros E1. apply deleteStoredImage_db in E1. congruence.
    + intros [= _ <-]. exact E0.
  - unfold ret at 1. destruct (_ && _).
    + apply deleteStoredImage_db.
    + intros [= _ <-]. reflexivity.
Qed.

Lemma first_by_id_middle (id : Z) (l1 l2 : list Movie.t) (y : Movie.t) :
  (forall r, In r l1 -> Movie.ID r <> id) -> Movie.ID y = id ->
  Gorm.first_by_id id (l1 ++ y :: l2) = Some y.
Proof.
  intros K Hy. unfold Gorm.first_by_id. induction l1 as [|a l1 IH]; simpl.
  - apply Z.eqb_eq in Hy. rewrite Hy. reflexivity.
  - destruct (Z.eqb_spec (Movie.ID a) id) as [E|_].
    + exfalso. apply (K a); [left; reflexivity | exact E].
    + apply IH. intros r Hr. apply K. right. exact Hr.
Qed.

(** C10. When the public update of movie [id] succeeds on a well-formed
    store, the row stored under [id] afterwards has the key, the creation
    time and the external id of the row that was stored under [id] before,
    whatever the request supplied for them, and the supplied title, original
    title, overview, release date, paths, votes, popularity, adult flag and
    language key; the table has the same number of rows. *)
Theorem update_keeps_identity
        (s : movieService.t) (id : Z) (movie : Movie.t) (w w' : World) :
  wf_db (db w) ->
  movieService.UpdateMovie s id movie w = (None, w') ->
  exists existing row,
    Gorm.first_by_id id (movies (db w)) = Some existing
    /\ Gorm.first_by_id id (movies (db w')) = Some row
    /\ Movie.ID row = Movie.ID existing
    /\ Movie.CreatedAt row = Movie.CreatedAt existing
    /\ Movie.TMDBID row = Movie.TMDBID existing
    /\ carries_supplied row movie
    /\ length (movies (db w')) = length (movies (db w)).
Proof.
  intros W. unfold movieService.UpdateMovie, bind.
  unfold movieRepository.FindByID, bind. rewrite FirstMovieByID_eq.
  destruct (fault w _ _) as [e0|].
  { destruct (String.eqb e0 _); intros [=]. }
  destruct (Gorm.first_by_id id (movies (db w))) as [e|] eqn:F; [|intros [=]].
  unfold ret at 1.
  destruct (movieService.deleteReplacedImages s movie _ (tick w)) as [u w1] eqn:E1.
  apply deleteReplacedImages_db in E1. simpl in E1.
  apply first_by_id_Some in F as F'. destruct F' as [He Hi].
  intros H.
  assert (W1 : wf_db (db w1)) by (rewrite E1; exact W).
  assert (He1 : In e (movies (db w1))) by (rewrite E1; exact He).
  apply (Update_step _ e) in H; [|exact W1|exact He1|simpl; lia|reflexivity].
  destruct H as (W' & [(x & [=] & _)|(_ & S & L & l1 & l2 & M & M')]).
  exists e. eexists. split; [reflexivity|].
  split; [|split; [|split; [|split; [|split]]]].
  6:{ rewrite M', <- E1, M, !length_app. reflexivity. }
  - rewrite M'. apply first_by_id_middle; [|reflexivity].
    intros r Hr E. destruct W1 as (N & _). rewrite M, map_app in N. simpl in N.
    apply NoDup_app in N as (_ & N & _). apply (N (Movie.ID r)).
    + apply list_elem_of_In, in_map, Hr.
    + rewrite E, <- Hi. apply list_elem_of_here.
  - simpl. lia.
  - reflexivity.
  - reflexivity.
  - repeat split.
Qed.

Lemma update_keeps_identity_witness :
  exists w' existing row,
    movieService.UpdateMovie Examples.svc 1 Examples.supplied Examples.stocked = (None, w')
    /\ Gorm.first_by_id 1 (movies (db Examples.stocked)) = Some existing
    /\ Gorm.first_by_id 1 (movies (db w')) = Some row
    /\ Movie.ID row = Movie.ID existing
    /\ Movie.CreatedAt row = Movie.CreatedAt existing
    /\ Movie.TMDBID row = Movie.TMDBID existing
    /\ carries_supplied row Examples.supplied
    /\ length (movies (db w')) = length (movies (db Examples.stocked)).
Proof.
  assert (E : movieService.UpdateMovie Examples.svc 1 Examples.supplied Examples.stocked
              = (None, snd (movieService.UpdateMovie Examples.svc 1 Examples.supplied
                              Examples.stocked)))
    by (vm_compute; reflexivity).
  destruct (update_keeps_identity Examples.svc 1 Examples.supplied Examples.stocked _
              wf_stocked_db E) as (existing & row & H).
  eexists. exists existing, row. split; [exact E | exact H].
Defined.

(** ** Failures inside a sync run *)

Lemma syncMovie_language_fault (it : TMDBMovieResponse.t) (c : Z * Z) (w : World) (e : error) :
  fault w (OpLanguageFirstOrCreate (TMDBMovieResponse.OriginalLanguage it)) (clock w) = Some e ->
  movieService.syncMovie it c w = (c, tick w).
Proof.
  intros F. destruct c as [a u]. unfold movieService.syncMovie, bind.
  unfold languageRepository.FindOrCreate, Gorm.FirstOrCreateLanguage.
  rewrite (call_fault _ _ _ _ F). reflexivity.
Qed.

(** C3 as stated fails for genres: with the resolution of genre 18 failing,
    Fight Club (genres 18 and 53) is still inserted and counted as added,
    linked to genre 53 alone. *)
Lemma genre_failure_does_not_skip_the_item :
  Examples.genre_18_fails (OpGenreFirstOrCreate 18) 1001 = Some "connection reset"%string
  /\ TMDBMovieResponse.GenreIDs Examples.fight_club = [18; 53]
  /\ fst (movieService.syncMovie Examples.fight_club (0, 0)
            (Examples.world Examples.empty_db Examples.genre_18_fails)) = (1, 0)
  /\ map Movie.TMDBID
         (movies (db (snd (movieService.syncMovie Examples.fight_club (0, 0)
                             (Examples.world Examples.empty_db Examples.genre_18_fails)))))
     = [550]
  /\ map Genre.TMDBID
         (genres (db (snd (movieService.syncMovie Examples.fight_club (0, 0)
                             (Examples.world Examples.empty_db Examples.genre_18_fails)))))
     = [53].
Proof. vm_compute. repeat split. Qed.

(** ** Requests for a movie that is not there *)

Lemma FindByID_missing (id : Z) (w : World) :
  Gorm.first_by_id id (movies (db w)) = None ->
  exists e, movieRepository.FindByID id w = (Err e, tick w).
Proof.
  intros H. unfold movieRepository.FindByID, bind. rewrite FirstMovieByID_eq, H.
  destruct (fault w _ _) as [e|].
  - destruct (String.eqb e _); eexists; reflexivity.
  - simpl. eexists. reflexivity.
Qed.

Lemma UpdateMovie_missing (s : movieService.t) (id : Z) (m : Movie.t) (w : World) :
  Gorm.first_by_id id (movies (db w)) = None ->
  exists e, movieService.UpdateMovie s id m w = (Some e, tick w).
Proof.
  intros H. destruct (FindByID_missing id w H) as (e & E).
  exists e. unfold movieService.UpdateMovie, bind. rewrite E. reflexivity.
Qed.

Lemma DeleteMovie_missing (s : movieService.t) (id : Z) (w : World) :
  Gorm.first_by_id id (movies (db w)) = None ->
  exists e, movieService.DeleteMovie s id w = (Some e, tick w).
Proof.
  intros H. destruct (FindByID_missing id w H) as (e & E).
  exists e. unfold movieService.DeleteMovie, bind. rewrite E. reflexivity.
Qed.

(** Building the model of a request may create a language; it never fails
    and never touches [movies]. *)
Lemma convertRequestToMovie_quiet (h : MovieHandler.t) (req : MovieRequest.t)
      (w w' : World) r :
  MovieHandler.convertRequestToMovie h req w = (r, w') ->
  quiet w w' /\ exists m, r = Ok m.
Proof.
  unfold MovieHandler.convertRequestToMovie, bind.
  destruct (negb _).
  - unfold movieService.GetLanguageByCode, languageRepository.FindByCode, bind.
    destruct (Gorm.FirstLanguage _ w) as [r1 w1] eqn:E1.
    apply FirstLanguage_quiet in E1.
    unfold movieService.CreateLanguage, languageRepository.FindOrCreate.
    assert (K : forall w2 x,
               (let '(a, w3) := Gorm.FirstOrCreateLanguage
                                   (MovieRequest.OriginalLanguage req)
                                   (MovieHandler.getLanguageName
                                      (MovieRequest.OriginalLanguage req)) w2 in
                match a with
                | Ok lang => ret (Some (Language.ID lang))
                | Err _ => ret None
                end w3) = x ->
               quiet w2 (snd x)).
    { intros w2 x <-. destruct (Gorm.FirstOrCreateLanguage _ _ w2) as [a w3] eqn:E3.
      apply FirstOrCreateLanguage_quiet in E3. destruct a; exact E3. }
    destruct r1 as [lang|e].
    + unfold ret. intros [= <- <-]. split; [exact E1 | eauto].
    + destruct (String.eqb e _); unfold ret at 1.
      * destruct (let '(a, w3) := Gorm.FirstOrCreateLanguage _ _ w1 in _) as [o w3] eqn:E3.
        apply K in E3. unfold ret. intros [= <- <-].
        split; [eapply quiet_trans; eassumption | eauto].
      * destruct (let '(a, w3) := Gorm.FirstOrCreateLanguage _ _ w1 in _) as [o w3] eqn:E3.
        apply K in E3. unfold ret. intros [= <- <-].
        split; [eapply quiet_trans; eassumption | eauto].
  - unfold ret. intros [= <- <-]. split; [apply quiet_refl | eauto].
Qed.

(** C6 (as amended). For a well-formed id under which no movie is stored,
    GET /movies/{id} answers 404, while PUT /movies/{id} (with a body that
    parses) and DELETE /movies/{id} answer 500: their handlers send every
    error of the service as an internal server error. *)
Theorem missing_movie_status
        (h : MovieHandler.t) (c : fiber.Ctx) (w : World) (id : Z) :
  Strconv.ParseUint32 (fiber.Params c "id") = (id, None) ->
  Gorm.first_by_id id (movies (db w)) = None ->
  status_code (fst (MovieHandler.GetMovieByID h c w)) = Some 404
  /\ (forall req, fiber.body c = Some req ->
                  status_code (fst (MovieHandler.UpdateMovie h c w)) = Some 500)
  /\ status_code (fst (MovieHandler.DeleteMovie h c w)) = Some 500.
Proof.
  intros P H. split; [|split].
  - unfold MovieHandler.GetMovieByID. rewrite P. unfold bind, movieService.GetMovieByID.
    destruct (FindByID_missing id w H) as (e & ->). reflexivity.
  - intros req B. unfold MovieHandler.UpdateMovie. rewrite P, B. unfold bind.
    destruct (MovieHandler.convertRequestToMovie h req w) as [r w1] eqn:E1.
    apply convertRequestToMovie_quiet in E1 as ((_ & (M & _) & _) & m & ->).
    rewrite <- M in H.
    destruct (UpdateMovie_missing (MovieHandler.service h) id m w1 H) as (e & ->).
    reflexivity.
  - unfold MovieHandler.DeleteMovie. rewrite P. unfold bind.
    destruct (DeleteMovie_missing (MovieHandler.service h) id w H) as (e & ->).
    reflexivity.
Qed.

Lemma missing_movie_status_witness :
  status_code (fst (MovieHandler.GetMovieByID Examples.handler (Examples.ctx "7" ∅)
                      Examples.stocked)) = Some 404
  /\ (forall req, fiber.body (Examples.ctx "7" ∅) = Some req ->
                  status_code (fst (MovieHandler.UpdateMovie Examples.handler
                                      (Examples.ctx "7" ∅) Examples.stocked)) = Some 500)
  /\ status_code (fst (MovieHandler.DeleteMovie Examples.handler (Examples.ctx "7" ∅)
                         Examples.stocked)) = Some 500.
Proof.
  apply (missing_movie_status Examples.handler (Examples.ctx "7" ∅) Examples.stocked 7).
  - vm_compute. reflexivity.
  - vm_compute. reflexivity.
Defined.

(** C6 as stated fails for PUT and DELETE: with movie 7 not stored, both
    answer 500, not 404. *)
Lemma missing_movie_put_delete_answer_500 :
  Strconv.ParseUint32 (fiber.Params (Examples.ctx "7" ∅) "id") = (7, None)
  /\ Gorm.first_by_id 7 (movies (db Examples.stocked)) = None
  /\ status_code (fst (MovieHandler.UpdateMovie Examples.handler (Examples.ctx "7" ∅)
                         Examples.stocked)) = Some 500
  /\ status_code (fst (MovieHandler.DeleteMovie Examples.handler (Examples.ctx "7" ∅)
                         Examples.stocked)) = Some 500.
Proof. vm_compute. repeat split. Qed.

(** ** Listing movies *)

(** C5. The list operation of the service queries the repository with a
    page of at least 1 and a limit between 1 and 100: a page below 1 becomes
    1, a limit below 1 becomes the default 20, a limit above 100 becomes
    100, and values in range pass unchanged; and the handler reads an absent
    [page] as 1 and an absent [limit] as 20. *)
Theorem list_page_and_limit_are_normalised :
  (forall (s : movieService.t) (page limit : Z)
          (search sortBy order startDate endDate : string),
      exists page' limit',
        movieService.GetAllMovies s page limit search sortBy order startDate endDate
        = movieRepository.FindAll page' limit' search sortBy order startDate endDate
        /\ 1 <= page' /\ 1 <= limit' <= 100
        /\ (page < 1 -> page' = 1) /\ (1 <= page -> page' = page)
        /\ (limit < 1 -> limit' = 20) /\ (100 < limit -> limit' = 100)
        /\ (1 <= limit <= 100 -> limit' = limit))
  /\ (forall c : fiber.Ctx,
         (fiber.queries c !! "page"%string = None ->
          Strconv.Atoi (fiber.Query c "page" "1") = (1, None))
         /\ (fiber.queries c !! "limit"%string = None ->
             Strconv.Atoi (fiber.Query c "limit" "20") = (20, None))).
Proof.
  split.
  - intros s page limit search sortBy order startDate endDate.
    exists (if page <? 1 then 1 else page).
    exists (if 100 <? (if limit <? 1 then 20 else limit) then 100
            else (if limit <? 1 then 20 else limit)).
    split; [reflexivity|].
    destruct (Z.ltb_spec page 1); destruct (Z.ltb_spec limit 1);
      [destruct (Z.ltb_spec 100 20) | destruct (Z.ltb_spec 100 limit)
      |destruct (Z.ltb_spec 100 20) | destruct (Z.ltb_spec 100 limit)]; lia.
  - intros c. split; intros H; unfold fiber.Query; rewrite H; reflexivity.
Qed.

Lemma list_page_and_limit_are_normalised_witness :
  (exists page' limit',
      movieService.GetAllMovies Examples.svc (-3) 500 "club" "title" "asc" "" ""
      = movieRepository.FindAll page' limit' "club" "title" "asc" "" ""
      /\ 1 <= page' /\ 1 <= limit' <= 100
      /\ (-3 < 1 -> page' = 1) /\ (1 <= -3 -> page' = -3)
      /\ (500 < 1 -> limit' = 20) /\ (100 < 500 -> limit' = 100)
      /\ (1 <= 500 <= 100 -> limit' = 500))
  /\ Strconv.Atoi (fiber.Query (Examples.ctx "1" ∅) "limit" "20") = (20, None).
Proof.
  split.
  - apply (proj1 list_page_and_limit_are_normalised Examples.svc (-3) 500).
  - apply (proj2 list_page_and_limit_are_normalised (Examples.ctx "1" ∅)). reflexivity.
Defined.

(** C9. The handler of GET /movies builds the pagination metadata from the
    page and limit as parsed from the query string, not from the values the
    service queried with: when the query succeeds, a non-zero limit comes
    back unchanged in the metadata, next to the parsed page and the total,
    and a limit that parses to 0 makes the computation of the metadata
    divide by zero, a run-time panic, although the query itself ran with the
    default limit 20. *)
Theorem pagination_meta_uses_raw_values
        (h : MovieHandler.t) (c : fiber.Ctx) (w w' : World)
        (found : list Movie.t) (total : Z) :
  let page := fst (Strconv.Atoi (fiber.Query c "page" "1")) in
  let limit := fst (Strconv.Atoi (fiber.Query c "limit" "20")) in
  movieService.GetAllMovies (MovieHandler.service h) page limit
    (fiber.Query c "search" "") (fiber.Query c "sort_by" "updated_at")
    (fiber.Query c "order" "DESC") (fiber.Query c "start_date" "")
    (fiber.Query c "end_date" "") w = ((found, total, None), w') ->
  (limit = 0 ->
   MovieHandler.GetAllMovies h c w = (Panic "runtime error: integer divide by zero", w')
   /\ utils.CreatePaginationMeta page limit total
      = Panic "runtime error: integer divide by zero"
   /\ movieService.GetAllMovies (MovieHandler.service h) page limit
        (fiber.Query c "search" "") (fiber.Query c "sort_by" "updated_at")
        (fiber.Query c "order" "DESC") (fiber.Query c "start_date" "")
        (fiber.Query c "end_date" "")
      = movieRepository.FindAll (Z.max 1 page) 20
          (fiber.Query c "search" "") (fiber.Query c "sort_by" "updated_at")
          (fiber.Query c "order" "DESC") (fiber.Query c "start_date" "")
          (fiber.Query c "end_date" ""))
  /\ (limit <> 0 ->
      exists meta,
        MovieHandler.GetAllMovies h c w
        = (Done (utils.SuccessWithMetaResponse 200 "Movies retrieved successfully" meta), w')
        /\ PaginationMeta.Page meta = page
        /\ PaginationMeta.Limit meta = limit
        /\ PaginationMeta.Total meta = total).
Proof.
  intros page limit E. unfold MovieHandler.GetAllMovies.
  destruct (Strconv.Atoi (fiber.Query c "page" "1")) as [page0 e1] eqn:A1.
  destruct (Strconv.Atoi (fiber.Query c "limit" "20")) as [limit0 e2] eqn:A2.
  simpl in page, limit. subst page limit. unfold bind. rewrite E.
  split.
  - intros ->. split; [reflexivity|]. split; [reflexivity|].
    unfold movieService.GetAllMovies. simpl.
    destruct (Z.ltb_spec page0 1); f_equal; lia.
  - intros Hl. unfold utils.CreatePaginationMeta.
    apply Z.eqb_neq in Hl. rewrite Hl. eexists. split; [reflexivity|]. repeat split.
Qed.

Lemma pagination_meta_uses_raw_values_witness :
  (fst (Strconv.Atoi (fiber.Query Examples.zero_limit "limit" "20")) = 0
   /\ exists w',
        MovieHandler.GetAllMovies Examples.handler Examples.zero_limit Examples.stocked
        = (Panic "runtime error: integer divide by zero", w'))
  /\ (fst (Strconv.Atoi (fiber.Query Examples.overflowing_limit "limit" "20")) = maxInt64
      /\ exists meta w',
           MovieHandler.GetAllMovies Examples.handler Examples.overflowing_limit
             Examples.stocked
           = (Done (utils.SuccessWithMetaResponse 200 "Movies retrieved successfully" meta),
              w')
           /\ PaginationMeta.Limit meta = maxInt64).
Proof.
  split.
  - assert (H : fst (Strconv.Atoi (fiber.Query Examples.zero_limit "limit" "20")) = 0)
      by (vm_compute; reflexivity).
    split; [exact H|].
    assert (E : movieService.GetAllMovies (MovieHandler.service Examples.handler)
                  (fst (Strconv.Atoi (fiber.Query Examples.zero_limit "page" "1")))
                  (fst (Strconv.Atoi (fiber.Query Examples.zero_limit "limit" "20")))
                  (fiber.Query Examples.zero_limit "search" "")
                  (fiber.Query Examples.zero_limit "sort_by" "updated_at")
                  (fiber.Query Examples.zero_limit "order" "DESC")
                  (fiber.Query Examples.zero_limit "start_date" "")
                  (fiber.Query Examples.zero_limit "end_date" "")
                  Examples.stocked
                = (([], 0, None),
                   snd (MovieHandler.GetAllMovies Examples.handler Examples.zero_limit
                          Examples.stocked)))
      by (vm_compute; reflexivity).
    eexists.
    exact (proj1 (proj1 (pagination_meta_uses_raw_values Examples.handler _ _ _ _ _ E) H)).
  - assert (H : fst (Strconv.Atoi (fiber.Query Examples.overflowing_limit "limit" "20"))
                = maxInt64) by (vm_compute; reflexivity).
    split; [exact H|].
    assert (E : movieService.GetAllMovies (MovieHandler.service Examples.handler)
                  (fst (Strconv.Atoi (fiber.Query Examples.overflowing_limit "page" "1")))
                  (fst (Strconv.Atoi (fiber.Query Examples.overflowing_limit "limit" "20")))
                  (fiber.Query Examples.overflowing_limit "search" "")
                  (fiber.Query Examples.overflowing_limit "sort_by" "updated_at")
                  (fiber.Query Examples.overflowing_limit "order" "DESC")
                  (fiber.Query Examples.overflowing_limit "start_date" "")
                  (fiber.Query Examples.overflowing_limit "end_date" "")
                  Examples.stocked
                = (([], 0, None),
                   snd (MovieHandler.GetAllMovies Examples.handler Examples.overflowing_limit
                          Examples.stocked)))
      by (vm_compute; reflexivity).
    destruct (proj2 (pagination_meta_uses_raw_values Examples.handler _ _ _ _ _ E))
      as (meta & Hm & _ & Hl & _).
    + rewrite H. discriminate.
    + exists meta. eexists. split; [exact Hm|]. rewrite Hl. exact H.
Defined.

(** ** Deleting an uploaded file *)

Lemma Split_nonempty (s : string) (sep : ascii) : Strings.Split s sep <> [].
Proof.
  destruct s as [|c s]; simpl; [discriminate|].
  destruct (Ascii.eqb c sep); [discriminate|].
  destruct (Strings.Split s sep); discriminate.
Qed.

Lemma Contains_cons (c : ascii) (s sub : string) :
  Strings.Contains (String c s) sub = false -> Strings.Contains s sub = false.
Proof. simpl. intros H. apply orb_false_iff in H as [_ H]. exact H. Qed.

Lemma Contains_head (c : ascii) (s : string) :
  Strings.Contains (String c s) (String c EmptyString) = true.
Proof.
  simpl. unfold Strings.HasPrefix. simpl.
  destruct (Ascii.ascii_dec c c) as [_|N]; [destruct s; reflexivity | contradiction].
Qed.

(** A string without the separator is its own only part. *)
Lemma Split_no_sep (s : string) :
  Strings.Contains s "/" = false -> Strings.Split s "/" = [s].
Proof.
  induction s as [|c s IH]; [reflexivity|]. intros H. simpl.
  destruct (Ascii.eqb_spec c "/") as [->|_].
  - rewrite Contains_head in H. discriminate.
  - rewrite (IH (Contains_cons _ _ _ H)). reflexivity.
Qed.

Lemma Split_app (s1 s2 : string) :
  Strings.Split (s1 +:+ String "/" s2) "/" = Strings.Split s1 "/" ++ Strings.Split s2 "/".
Proof.
  induction s1 as [|c s1 IH]; [reflexivity|]. simpl. rewrite IH.
  destruct (Ascii.eqb c "/"); [reflexivity|].
  pose proof (Split_nonempty s1 "/") as N.
  destruct (Strings.Split s1 "/") as [|hd tl]; [contradiction | reflexivity].
Qed.

Lemma last_part_url (base seg : string) :
  Strings.Contains seg "/" = false ->
  Strings.last_part (Strings.Split (base +:+ String "/" seg) "/") = seg.
Proof.
  intros H. unfold Strings.last_part. rewrite Split_app, (Split_no_sep seg H).
  apply last_last.
Qed.

Lemma prefix_cons (c a : ascii) (p s : string) :
  String.prefix (String c p) (String a s)
  = if Ascii.ascii_dec c a then String.prefix p s else false.
Proof. reflexivity. Qed.

Lemma HasPrefix_slash (s pre : string) :
  Strings.HasPrefix s (pre +:+ "/") = true -> Strings.Contains s "/" = true.
Proof.
  unfold Strings.HasPrefix. revert s. induction pre as [|c pre IH]; intros s H.
  - destruct s as [|a s]; [discriminate|].
    change (String.prefix (String "/" EmptyString) (String a s) = true) in H.
    rewrite prefix_cons in H.
    destruct (Ascii.ascii_dec "/" a) as [<-|]; [apply Contains_head | discriminate].
  - destruct s as [|a s]; [discriminate|].
    change (String.prefix (String c (pre +:+ "/")) (String a s) = true) in H.
    rewrite prefix_cons in H.
    destruct (Ascii.ascii_dec c a); [|discriminate].
    simpl. rewrite (IH s H). apply orb_true_r.
Qed.

Lemma TrimPrefix_no_slash (s pre : string) :
  Strings.Contains s "/" = false -> Strings.TrimPrefix s (pre +:+ "/") = s.
Proof.
  intros H. unfold Strings.TrimPrefix.
  destruct (Strings.HasPrefix s (pre +:+ "/")) eqn:P; [|reflexivity].
  apply HasPrefix_slash in P. congruence.
Qed.

Lemma DeleteFile_removes (s : MinIOService.t) (p key : string) (w : World) :
  (if Strings.Contains p "http"
   then Strings.TrimPrefix (Strings.last_part (Strings.Split p "/"))
                           (MinIOService.bucket s +:+ "/")
   else Strings.TrimPrefix p (MinIOService.bucket s +:+ "/")) = key ->
  fault w (OpRemoveObject key) (clock w) = None ->
  exists w',
    MinIOService.DeleteFile s p w = (None, w')
    /\ objects w' = (objects w ∖ {[ key ]})
    /\ trace w' = trace w ++ [EvObjectRemoved key].
Proof.
  intros K F. unfold MinIOService.DeleteFile, bind, Minio.RemoveObject.
  assert (L : (0 <? Z.of_nat (length (Strings.Split p "/"))) = true).
  { pose proof (Split_nonempty p "/"). destruct (Strings.Split p "/"); [contradiction|].
    simpl. reflexivity. }
  rewrite L. destruct (Strings.Contains p "http"); rewrite K, (call_ok _ _ _ F);
    eexists; repeat split.
Qed.

(** C8 (as amended). The delete operation of the upload service removes one
    object.  For a string that contains "http" and a "/", its key is the text
    after the last "/", a query string included; for a string that contains
    "http" and no "/" it is the string itself; for a string without "http"
    it is the string itself, less a leading "<bucket>/".  (The operation
    strips no query string; its callers in the movie service do.)  The
    object store is assumed to take the removal. *)
Theorem delete_file_key :
  (forall (s : MinIOService.t) (base seg : string) (w : World),
      Strings.Contains (base +:+ String "/" seg) "http" = true ->
      Strings.Contains seg "/" = false ->
      fault w (OpRemoveObject seg) (clock w) = None ->
      exists w',
        MinIOService.DeleteFile s (base +:+ String "/" seg) w = (None, w')
        /\ objects w' = (objects w ∖ {[ seg ]})
        /\ trace w' = trace w ++ [EvObjectRemoved seg])
  /\ (forall (s : MinIOService.t) (key : string) (w : World),
         Strings.Contains key "http" = false ->
         fault w (OpRemoveObject (Strings.TrimPrefix key (MinIOService.bucket s +:+ "/")))
               (clock w) = None ->
         exists w',
           MinIOService.DeleteFile s key w = (None, w')
           /\ objects w'
              = (objects w ∖ {[ Strings.TrimPrefix key (MinIOService.bucket s +:+ "/") ]})
           /\ trace w'
              = trace w
                ++ [EvObjectRemoved
                      (Strings.TrimPrefix key (MinIOService.bucket s +:+ "/"))])
  /\ (forall (s : MinIOService.t) (key : string) (w : World),
         Strings.Contains key "http" = true ->
         Strings.Contains key "/" = false ->
         fault w (OpRemoveObject key) (clock w) = None ->
         exists w',
           MinIOService.DeleteFile s key w = (None, w')
           /\ objects w' = (objects w ∖ {[ key ]})
           /\ trace w' = trace w ++ [EvObjectRemoved key]).
Proof.
  split; [|split].
  - intros s base seg w H N F. apply DeleteFile_removes; [|exact F].
    rewrite H, (last_part_url base seg N). apply TrimPrefix_no_slash, N.
  - intros s key w H F. apply DeleteFile_removes; [|exact F]. rewrite H. reflexivity.
  - intros s key w H N F. apply DeleteFile_removes; [|exact F].
    rewrite H, (Split_no_sep key N). apply TrimPrefix_no_slash, N.
Qed.

Lemma delete_file_key_witness :
  (exists w',
      MinIOService.DeleteFile Examples.minio
        ("https://storage.example/movies" +:+ String "/" "poster_1a2b3c4d.jpg")
        Examples.with_poster = (None, w')
      /\ objects w' = (objects Examples.with_poster ∖ {[ "poster_1a2b3c4d.jpg"%string ]})
      /\ trace w' = trace Examples.with_poster ++ [EvObjectRemoved "poster_1a2b3c4d.jpg"])
  /\ (exists w',
         MinIOService.DeleteFile Examples.minio "movies/poster_1a2b3c4d.jpg"
           Examples.with_poster = (None, w')
         /\ objects w'
            = (objects Examples.with_poster
               ∖ {[ Strings.TrimPrefix "movies/poster_1a2b3c4d.jpg"
                      (MinIOService.bucket Examples.minio +:+ "/") ]})
         /\ trace w'
            = trace Examples.with_poster
              ++ [EvObjectRemoved
                    (Strings.TrimPrefix "movies/poster_1a2b3c4d.jpg"
                       (MinIOService.bucket Examples.minio +:+ "/"))])
  /\ (exists w',
         MinIOService.DeleteFile Examples.minio "http_poster.jpg" Examples.with_poster
         = (None, w')
         /\ objects w' = (objects Examples.with_poster ∖ {[ "http_poster.jpg"%string ]})
         /\ trace w' = trace Examples.with_poster ++ [EvObjectRemoved "http_poster.jpg"]).
Proof.
  split; [|split].
  - apply (proj1 delete_file_key Examples.minio "https://storage.example/movies"
                 "poster_1a2b3c4d.jpg" Examples.with_poster); reflexivity.
  - apply (proj1 (proj2 delete_file_key) Examples.minio "movies/poster_1a2b3c4d.jpg"
                 Examples.with_poster); reflexivity.
  - apply (proj2 (proj2 delete_file_key) Examples.minio "http_poster.jpg"
                 Examples.with_poster); reflexivity.
Defined.

(** C8 as stated fails: handed a presigned URL, the operation asks for the
    removal of a key that still carries the query string, and the uploaded
    poster stays in the bucket; handed a bare key with a directory, it does
    not reduce it to its last segment. *)
Lemma delete_file_keeps_query_string :
  trace (snd (MinIOService.DeleteFile Examples.minio
                "https://storage.example/movies/poster_1a2b3c4d.jpg?X-Amz-Expires=900"
                Examples.with_poster))
  = [EvObjectRemoved "poster_1a2b3c4d.jpg?X-Amz-Expires=900"]
  /\ elements (objects (snd (MinIOService.DeleteFile Examples.minio
                     "https://storage.example/movies/poster_1a2b3c4d.jpg?X-Amz-Expires=900"
                     Examples.with_poster)))
     = ["poster_1a2b3c4d.jpg"%string]
  /\ trace (snd (MinIOService.DeleteFile Examples.minio "posters/poster_1a2b3c4d.jpg"
                   Examples.with_poster))
     = [EvObjectRemoved "posters/poster_1a2b3c4d.jpg"].
Proof.
  split; [vm_compute; reflexivity|]. split; [vm_compute; reflexivity|].
  vm_compute; reflexivity.
Qed.

(** ** The monthly chart *)

Lemma cast_groups_Some (keys groups : list string) :
  (forall k, In k groups -> Gorm.cast_integer k <> None) ->
  exists rows,
    Gorm.cast_groups keys groups = Some rows
    /\ forall m n, In (m, n) rows -> exists k, In k groups /\ Gorm.cast_integer k = Some m.
Proof.
  induction groups as [|k ks IH]; intros H.
  - exists []. split; [reflexivity|]. intros m n [].
  - destruct IH as (rest & E & R). { intros k' Hk'. apply H. right. exact Hk'. }
    simpl. destruct (Gorm.cast_integer k) as [m0|] eqn:C.
    + rewrite E. eexists. split; [reflexivity|]. intros m n [[= <- <-]|Hin].
      * exists k. split; [left; reflexivity | exact C].
      * destruct (R m n Hin) as (k' & Hk' & Ck'). exists k'. split; [right|]; assumption.
    + exfalso. apply (H k); [left; reflexivity | exact C].
Qed.

Lemma monthMap_lookup (l : list (Z * Z)) (m0 : gmap Z Z) (k v : Z) :
  fold_left (fun (m : gmap Z Z) mc => <[fst mc := snd mc]> m) l m0 !! k = Some v ->
  m0 !! k = Some v \/ In (k, v) l.
Proof.
  revert m0. induction l as [|a l IH]; simpl; intros m0 H; [left; exact H|].
  destruct (IH _ H) as [H'|H']; [|right; right; exact H'].
  destruct (decide (fst a = k)) as [<-|N].
  - rewrite lookup_insert_eq in H'. injection H' as <-. right. left. destruct a; reflexivity.
  - rewrite lookup_insert_ne in H' by exact N. left. exact H'.
Qed.

(** Every month the query reports is the month of a stored movie of that
    year. *)
Lemma FindMonthCounts_ok (ys : string) (w : World) :
  fault w (OpMovieMonthCounts ys) (clock w) = None ->
  (forall r, In r (movies (db w)) -> Gorm.in_year ys r = true ->
             Gorm.cast_integer (Gorm.month_text r) <> None) ->
  exists rows,
    Gorm.FindMonthCounts ys w = (Ok rows, tick w)
    /\ forall m n, In (m, n) rows ->
                   exists r, In r (movies (db w)) /\ in_month ys m r = true.
Proof.
  intros F H. unfold Gorm.FindMonthCounts. rewrite (call_ok _ _ _ F). cbv zeta.
  change (movies (db (tick w))) with (movies (db w)).
  set (keys := map Gorm.month_text (List.filter (Gorm.in_year ys) (movies (db w)))).
  assert (K : forall k, In k keys ->
                        exists r, In r (movies (db w)) /\ Gorm.in_year ys r = true
                                  /\ Gorm.month_text r = k).
  { intros k Hk. apply in_map_iff in Hk as (r & <- & Hr).
    apply filter_In in Hr as [Hr Hy]. exists r. repeat split; assumption. }
  destruct (cast_groups_Some keys (List.nodup string_dec keys)) as (rows & E & R).
  { intros k Hk. apply nodup_In in Hk. destruct (K k Hk) as (r & Hr & Hy & <-).
    apply H; assumption. }
  rewrite E. eexists. split; [reflexivity|]. intros m n Hin.
  apply (Permutation_in _ (merge_sort_Permutation Gorm.month_le rows)) in Hin.
  destruct (R m n Hin) as (k & Hk & C). apply nodup_In in Hk.
  destruct (K k Hk) as (r & Hr & Hy & <-). exists r. split; [exact Hr|].
  unfold in_month. rewrite Hy, C, Z.eqb_refl. reflexivity.
Qed.

(** X23. For a year from 1900 to 2100, when the store call does not fail
    and the month of every stored release date of that year casts to an
    integer, the monthly chart returns exactly 12 entries labelled Jan..Dec
    in calendar order, and a month in which no stored movie of that year
    falls has value 0; a year with no matching data yields 12 entries that
    are all zero. *)
Theorem monthly_chart_is_zero_filled (s : movieService.t) (year : Z) (w : World) :
  1900 <= year <= 2100 ->
  fault w (OpMovieMonthCounts (movieRepository.yearStr year)) (clock w) = None ->
  (forall r, In r (movies (db w)) ->
             Gorm.in_year (movieRepository.yearStr year) r = true ->
             Gorm.cast_integer (Gorm.month_text r) <> None) ->
  exists entries w',
    movieService.GetMoviesByMonth s year w = ((entries, None), w')
    /\ length entries = 12%nat
    /\ map ColumnChartData.Label entries
       = ["Jan"; "Feb"; "Mar"; "Apr"; "May"; "Jun";
          "Jul"; "Aug"; "Sep"; "Oct"; "Nov"; "Dec"]%string
    /\ (forall (i : nat) (entry : ColumnChartData.t),
           entries !! i = Some entry ->
           (forall r, In r (movies (db w)) ->
                      in_month (movieRepository.yearStr year) (Z.of_nat i + 1) r = false) ->
           ColumnChartData.Value entry = 0)
    /\ ((forall r, In r (movies (db w)) ->
                   Gorm.in_year (movieRepository.yearStr year) r = false) ->
        map ColumnChartData.Value entries = replicate 12 0).
Proof.
  intros Hy F H.
  assert (G : (year <? 1900) || (2100 <? year) = false)
    by (apply orb_false_iff; split; apply Z.ltb_ge; lia).
  unfold movieService.GetMoviesByMonth. rewrite G.
  unfold movieRepository.GetMoviesByMonth, bind.
  destruct (FindMonthCounts_ok _ w F H) as (rows & -> & R). cbv zeta.
  set (monthMap := fold_left _ rows ∅).
  assert (Z0 : forall m, (forall r, In r (movies (db w)) ->
                                    in_month (movieRepository.yearStr year) m r = false) ->
                         monthMap !! m = None).
  { intros m Hm. destruct (monthMap !! m) as [v|] eqn:L; [|reflexivity]. exfalso.
    apply monthMap_lookup in L as [L|L]; [rewrite lookup_empty in L; discriminate|].
    destruct (R m v L) as (r & Hr & Hin). rewrite (Hm r Hr) in Hin. discriminate. }
  eexists. eexists. split; [reflexivity|]. split; [reflexivity|]. split; [reflexivity|].
  split.
  - intros i entry Hi Hm. rewrite list_lookup_imap in Hi.
    destruct (movieRepository.months !! i) as [month|]; [|discriminate].
    injection Hi as <-. simpl. rewrite (Z0 _ Hm). reflexivity.
  - intros Hn. unfold movieRepository.months. simpl.
    rewrite !Z0; [reflexivity|..]; intros r Hr; unfold in_month; rewrite (Hn r Hr);
      reflexivity.
Qed.

Lemma monthly_chart_is_zero_filled_witness :
  exists entries w',
    movieService.GetMoviesByMonth Examples.svc 2024 Examples.stocked = ((entries, None), w')
    /\ length entries = 12%nat
    /\ map ColumnChartData.Label entries
       = ["Jan"; "Feb"; "Mar"; "Apr"; "May"; "Jun";
          "Jul"; "Aug"; "Sep"; "Oct"; "Nov"; "Dec"]%string
    /\ (forall (i : nat) (entry : ColumnChartData.t),
           entries !! i = Some entry ->
           (forall r, In r (movies (db Examples.stocked)) ->
                      in_month (movieRepository.yearStr 2024) (Z.of_nat i + 1) r = false) ->
           ColumnChartData.Value entry = 0)
    /\ ((forall r, In r (movies (db Examples.stocked)) ->
                   Gorm.in_year (movieRepository.yearStr 2024) r = false) ->
        map ColumnChartData.Value entries = replicate 12 0).
Proof.
  apply (monthly_chart_is_zero_filled Examples.svc 2024 Examples.stocked).
  - lia.
  - reflexivity.
  - intros r [<-|[]]. vm_compute. discriminate.
Defined.

(** C7. The code breaks the claim on a store that holds a release date of
    the year whose characters 6-7 are no integer.  Release dates are free
    text: creating a movie checks its title only.  The query keeps dates
    shorter than 7 characters away from the cast ([in_year]), but not a
    month that is no number ("2024-ab-01") or has one digit ("2024-1-05"):
    there the cast fails, the chart operation returns the error of the
    query instead of 12 entries, and GET /charts/monthly/2024 answers 500. *)
Lemma monthly_chart_fails_on_odd_date :
  Movie.ReleaseDate Examples.odd_date = "2024-ab-01"%string
  /\ fst (movieService.CreateMovie Examples.svc Examples.odd_date Examples.fresh) = None
  /\ fst (movieService.GetMoviesByMonth Examples.svc 2024
            (Examples.world Examples.odd_db Examples.never_fails))
     = ([], Some Gorm.ErrInvalidInteger)
  /\ fst (MovieHandler.GetMonthlyChartData Examples.handler
            (fiber.mkCtx {[ "year"%string := "2024"%string ]} ∅ None)
            (Examples.world Examples.odd_db Examples.never_fails))
     = Done (utils.ErrorResponse 500 "Failed to retrieve monthly chart data")
  /\ Gorm.cast_integer (String.substring 5 2 "2024-1-05") = None
  /\ Gorm.in_year "2024"
       (Movie.mk 1 0 "Untitled" "" "" "2024-1" "" "" 0%float 0 0%float false None None []
                 10 10)
     = false
  /\ Gorm.cast_integer (String.substring 5 2 "2024-02-27") = Some 2.
Proof. repeat split; vm_compute; reflexivity. Qed.

(** * Further properties of the code *)

(** ** Strings, continued *)

Lemma append_assoc (a b c : string) : ((a +:+ b) +:+ c = a +:+ (b +:+ c))%string.
Proof.
  induction a as [|x a IH]; [reflexivity|].
  change (String x ((a +:+ b) +:+ c) = String x (a +:+ (b +:+ c))).
  rewrite IH. reflexivity.
Qed.

Lemma prefix_nil (s : string) : String.prefix "" s = true.
Proof. destruct s; reflexivity. Qed.

Lemma Contains_unfold (a : ascii) (s sub : string) :
  Strings.Contains (String a s) sub
  = Strings.HasPrefix (String a s) sub || Strings.Contains s sub.
Proof. reflexivity. Qed.

(** Looking for one character. *)
Lemma Contains_char (a c : ascii) (s : string) :
  Strings.Contains (String a s) (String c "")
  = Ascii.eqb a c || Strings.Contains s (String c "").
Proof.
  rewrite Contains_unfold. unfold Strings.HasPrefix. rewrite prefix_cons, prefix_nil.
  destruct (Ascii.ascii_dec c a) as [->|N].
  - rewrite Ascii.eqb_refl. reflexivity.
  - destruct (Ascii.eqb_spec a c) as [->|_]; [contradiction | reflexivity].
Qed.

Lemma Contains_char_app (c : ascii) (a b : string) :
  Strings.Contains (a +:+ b) (String c "")
  = Strings.Contains a (String c "") || Strings.Contains b (String c "").
Proof.
  induction a as [|x a IH].
  - reflexivity.
  - change (String x a +:+ b)%string with (String x (a +:+ b)).
    rewrite !Contains_char, IH, orb_assoc. reflexivity.
Qed.

Lemma Contains_char_substring (c : ascii) (s : string) (n m : nat) :
  Strings.Contains s (String c "") = false ->
  Strings.Contains (String.substring n m s) (String c "") = false.
Proof.
  revert n m. induction s as [|x s IH]; intros n m H.
  - destruct n, m; reflexivity.
  - rewrite Contains_char in H. apply orb_false_iff in H as [Hx Hs].
    destruct n as [|n]; simpl.
    + destruct m as [|m]; [reflexivity|]. rewrite Contains_char, Hx. apply IH, Hs.
    + apply IH, Hs.
Qed.

Lemma Contains_HasPrefix (s sub : string) :
  Strings.HasPrefix s sub = true -> Strings.Contains s sub = true.
Proof.
  intros H. destruct s as [|a s].
  - change (Strings.HasPrefix "" sub || false = true). rewrite H. reflexivity.
  - rewrite Contains_unfold, H. reflexivity.
Qed.

Lemma Contains_app_r (a s sub : string) :
  Strings.Contains s sub = true -> Strings.Contains (a +:+ s) sub = true.
Proof.
  intros H. induction a as [|x a IH]; [exact H|].
  change (String x a +:+ s)%string with (String x (a +:+ s)).
  rewrite Contains_unfold, IH. apply orb_true_r.
Qed.

Lemma HasPrefix_app (p s : string) : Strings.HasPrefix (p +:+ s) p = true.
Proof.
  unfold Strings.HasPrefix. induction p as [|x p IH]; [apply prefix_nil|].
  change (String x p +:+ s)%string with (String x (p +:+ s)).
  rewrite prefix_cons. destruct (Ascii.ascii_dec x x); [exact IH | contradiction].
Qed.

(** A string contains each of its factors. *)
Lemma Contains_middle (a b c : string) : Strings.Contains (a +:+ b +:+ c) b = true.
Proof. apply Contains_app_r, Contains_HasPrefix, HasPrefix_app. Qed.

Lemma Index_absent (s sub : string) :
  Strings.Contains s sub = false -> Strings.Index s sub = -1.
Proof.
  induction s as [|x s IH]; simpl; intros H; apply orb_false_iff in H as [H1 H2].
  - rewrite H1. reflexivity.
  - rewrite H1, (IH H2). reflexivity.
Qed.

Lemma Ext_char (c : ascii) (path : string) :
  Strings.Contains path (String c "") = false ->
  Strings.Contains (Filepath.Ext path) (String c "") = false.
Proof.
  induction path as [|x rest IH]; [reflexivity|]. intros H.
  pose proof H as H'. rewrite Contains_char in H'. apply orb_false_iff in H' as [_ Hr].
  simpl Filepath.Ext. destruct (Filepath.Ext rest) as [|e es] eqn:E; [|exact (IH Hr)].
  destruct (Ascii.eqb x "." && negb (Strings.Contains rest "/")); [exact H | reflexivity].
Qed.

Lemma TrimSuffix_char (c : ascii) (s suffix : string) :
  Strings.Contains s (String c "") = false ->
  Strings.Contains (Strings.TrimSuffix s suffix) (String c "") = false.
Proof.
  intros H. unfold Strings.TrimSuffix. destruct (Strings.HasSuffix s suffix); [|exact H].
  apply Contains_char_substring, H.
Qed.

(** ** Uploads

    The key under which [GeneratePresignedURL] lets a file be uploaded. *)

Lemma object_key_char (c : ascii) (filename uuid : string) :
  Ascii.eqb "_" c = false ->
  Strings.Contains filename (String c "") = false ->
  Strings.Contains uuid (String c "") = false ->
  Strings.Contains
    (Strings.TrimSuffix filename (Filepath.Ext filename) +:+ "_"
     +:+ Strings.slice_to uuid 8 +:+ Filepath.Ext filename) (String c "") = false.
Proof.
  intros Hc Hf Hu. rewrite !Contains_char_app.
  rewrite (TrimSuffix_char c _ _ Hf), (Ext_char c _ Hf).
  unfold Strings.slice_to. rewrite (Contains_char_substring c _ _ _ Hu).
  rewrite Contains_char, Hc. reflexivity.
Qed.

(** The public URL is a URL of the bucket that ends in the key. *)
Lemma GeneratePresignedURL_shape (s : MinIOService.t) (filename contentType uuid : string)
      (presign : string -> Result string) (presignedURL publicURL : string) :
  MinIOService.GeneratePresignedURL s filename contentType uuid presign
  = (presignedURL, publicURL, None) ->
  let key := (Strings.TrimSuffix filename (Filepath.Ext filename) +:+ "_"
              +:+ Strings.slice_to uuid 8 +:+ Filepath.Ext filename)%string in
  presign key = Ok presignedURL
  /\ Strings.Contains publicURL "http" = true
  /\ Strings.Contains publicURL (MinIOService.bucket s) = true
  /\ exists base, publicURL = (base +:+ String "/" key)%string.
Proof.
  unfold MinIOService.GeneratePresignedURL. cbv zeta.
  destruct (presign _) as [url|err] eqn:P; [|discriminate].
  intros [= <- <-]. split; [reflexivity|].
  set (base := if negb (_ =? -1) then _ else _).
  set (key := (_ +:+ "_" +:+ _ +:+ _)%string).
  split; [|split].
  - destruct (Strings.Contains (MinIOService.publicURL s) "https://"); reflexivity.
  - rewrite <- (append_assoc _ base), <- (append_assoc _ "/").
    apply Contains_middle.
  - eexists. change ("/" +:+ key)%string with (String "/" key).
    rewrite <- (append_assoc _ base), <- (append_assoc _ "/"), <- (append_assoc _ (MinIOService.bucket s)).
    reflexivity.
Qed.

Lemma DeleteFile_key (s : MinIOService.t) (key : string) (w : World) :
  Strings.Contains key "/" = false ->
  fault w (OpRemoveObject key) (clock w) = None ->
  exists w',
    MinIOService.DeleteFile s key w = (None, w')
    /\ objects w' = (objects w ∖ {[ key ]})
    /\ trace w' = trace w ++ [EvObjectRemoved key].
Proof.
  intros N F. apply DeleteFile_removes; [|exact F].
  destruct (Strings.Contains key "http").
  - rewrite (Split_no_sep key N). apply TrimPrefix_no_slash, N.
  - apply TrimPrefix_no_slash, N.
Qed.

(** X1. A file uploaded through a presigned URL is deleted by its public
    URL: when the file name and the UUID text hold no ["/"], the delete
    operation, handed the public URL that [GeneratePresignedURL] returned,
    removes exactly the object key that was presigned. *)
Theorem upload_is_deleted_by_its_public_url
        (s : MinIOService.t) (filename contentType uuid : string)
        (presign : string -> Result string) (presignedURL publicURL : string) :
  Strings.Contains filename "/" = false ->
  Strings.Contains uuid "/" = false ->
  MinIOService.GeneratePresignedURL s filename contentType uuid presign
  = (presignedURL, publicURL, None) ->
  exists key,
    presign key = Ok presignedURL
    /\ forall w, fault w (OpRemoveObject key) (clock w) = None ->
                 exists w',
                   MinIOService.DeleteFile s publicURL w = (None, w')
                   /\ objects w' = (objects w ∖ {[ key ]})
                   /\ trace w' = trace w ++ [EvObjectRemoved key].
Proof.
  intros Hf Hu G. apply GeneratePresignedURL_shape in G as (P & Hh & _ & base & ->).
  eexists. split; [exact P|]. intros w F.
  pose proof (object_key_char "/" filename uuid eq_refl Hf Hu) as K.
  apply DeleteFile_removes; [|exact F].
  rewrite Hh, (last_part_url _ _ K). apply TrimPrefix_no_slash, K.
Qed.

Lemma upload_is_deleted_by_its_public_url_witness :
  MinIOService.GeneratePresignedURL Examples.minio "poster.jpg" "image/jpeg"
    Examples.uuid Examples.presign
  = ("https://storage.example/movies/poster_1a2b3c4d.jpg?X-Amz-Expires=900"%string,
     "https://storage.example/movies/poster_1a2b3c4d.jpg"%string, None)
  /\ exists key,
       Examples.presign key
       = Ok "https://storage.example/movies/poster_1a2b3c4d.jpg?X-Amz-Expires=900"%string
       /\ forall w, fault w (OpRemoveObject key) (clock w) = None ->
                    exists w',
                      MinIOService.DeleteFile Examples.minio
                        "https://storage.example/movies/poster_1a2b3c4d.jpg" w = (None, w')
                      /\ objects w' = (objects w ∖ {[ key ]})
                      /\ trace w' = trace w ++ [EvObjectRemoved key].
Proof.
  split; [reflexivity|].
  apply (upload_is_deleted_by_its_public_url Examples.minio "poster.jpg" "image/jpeg"
           Examples.uuid Examples.presign); reflexivity.
Defined.

(** ** Stored images *)

Lemma RemoveObject_objects (key : string) (w w' : World) r :
  Minio.RemoveObject key w = (r, w') -> objects w' ⊆ objects w.
Proof.
  unfold Minio.RemoveObject, call. destruct (fault w _ _); intros [= _ <-]; simpl.
  - reflexivity.
  - intros x Hx. apply elem_of_difference in Hx as [Hx _]. exact Hx.
Qed.

Lemma DeleteFile_objects (s : MinIOService.t) (p : string) (w w' : World) r :
  MinIOService.DeleteFile s p w = (r, w') -> objects w' ⊆ objects w.
Proof.
  unfold MinIOService.DeleteFile, bind. cbv zeta.
  destruct (Minio.RemoveObject _ w) as [x w1] eqn:E. apply RemoveObject_objects in E.
  destruct x; intros [= _ <-]; exact E.
Qed.

(** The image clean-up only ever removes objects. *)
Lemma deleteStoredImage_objects (s : movieService.t) (m : MinIOService.t) (p : string)
      (w w' : World) r :
  movieService.deleteStoredImage s m p w = (r, w') -> objects w' ⊆ objects w.
Proof.
  unfold movieService.deleteStoredImage.
  destruct (_ && _); [|intros [= _ <-]; reflexivity].
  destruct (0 <? _); [|intros [= _ <-]; reflexivity].
  unfold bind. destruct (MinIOService.DeleteFile _ _ w) as [x w1] eqn:E.
  apply DeleteFile_objects in E. intros [= _ <-]. exact E.
Qed.

(** A path that is no URL of the bucket is left alone. *)
Lemma deleteStoredImage_foreign (s : movieService.t) (m : MinIOService.t) (p : string)
      (w : World) :
  Strings.Contains p "http" && Strings.Contains p (movieService.config_MinIO_BucketName s)
  = false ->
  movieService.deleteStoredImage s m p w = (tt, w).
Proof. intros H. unfold movieService.deleteStoredImage. rewrite H. reflexivity. Qed.

(** An uploaded image is removed under its key. *)
Lemma deleteStoredImage_upload (s : movieService.t) (m : MinIOService.t)
      (base key : string) (w : World) :
  Strings.Contains (base +:+ String "/" key) "http" = true ->
  Strings.Contains (base +:+ String "/" key) (movieService.config_MinIO_BucketName s) = true ->
  Strings.Contains key "/" = false ->
  Strings.Contains key "?" = false ->
  fault w (OpRemoveObject key) (clock w) = None ->
  exists w',
    movieService.deleteStoredImage s m (base +:+ String "/" key) w = (tt, w')
    /\ objects w' = (objects w ∖ {[ key ]}).
Proof.
  intros Hh Hb Hs Hq F. unfold movieService.deleteStoredImage. rewrite Hh, Hb.
  assert (L : (0 <? Z.of_nat (length (Strings.Split (base +:+ String "/" key) "/"))) = true).
  { pose proof (Split_nonempty (base +:+ String "/" key) "/") as N.
    destruct (Strings.Split _ "/"); [contradiction | reflexivity]. }
  rewrite L, (last_part_url _ _ Hs), (Index_absent _ _ Hq), Z.eqb_refl.
  change (true && true) with true. change (negb true) with false. cbv beta iota.
  destruct (DeleteFile_key m key w Hs F) as (w' & E & O & _).
  unfold bind. rewrite E. exists w'. split; [reflexivity | exact O].
Qed.

Lemma SaveMovie_objects (m : Movie.t) (w w' : World) r :
  Gorm.SaveMovie m w = (r, w') -> objects w' = objects w.
Proof.
  unfold Gorm.SaveMovie, Gorm.CreateMovie, call.
  destruct (Movie.ID m =? 0); destruct (fault w _ _); try (intros [= _ <-]; reflexivity).
  - destruct (existsb _ _); intros [= _ <-]; reflexivity.
  - destruct (existsb _ _); [intros [= _ <-]; reflexivity|].
    cbv zeta. destruct (existsb _ _); intros [= _ <-]; reflexivity.
Qed.

Lemma Update_objects (m : Movie.t) (w w' : World) r :
  movieRepository.Update m w = (r, w') -> objects w' = objects w.
Proof.
  unfold movieRepository.Update, bind. destruct (Gorm.SaveMovie m w) as [x w1] eqn:E.
  apply SaveMovie_objects in E. intros [= _ <-]. exact E.
Qed.

Lemma Delete_objects (id : Z) (w w' : World) r :
  movieRepository.Delete id w = (r, w') -> objects w' = objects w.
Proof.
  unfold movieRepository.Delete, bind, Gorm.DeleteMovie, call.
  destruct (fault w _ _); intros [= _ <-]; reflexivity.
Qed.

Lemma FindByID_found (id : Z) (e : Movie.t) (w : World) :
  fault w (OpMovieFirstByID id) (clock w) = None ->
  Gorm.first_by_id id (movies (db w)) = Some e ->
  movieRepository.FindByID id w = (Ok (Some (Gorm.preload (db w) e)), tick w).
Proof.
  intros F H. unfold movieRepository.FindByID, bind. rewrite FirstMovieByID_eq, F, H.
  reflexivity.
Qed.

Lemma FindByID_objects (id : Z) (w w' : World) r :
  movieRepository.FindByID id w = (r, w') -> objects w' = objects w.
Proof.
  unfold movieRepository.FindByID, bind. rewrite FirstMovieByID_eq.
  destruct (fault w _ _) as [e|]; [|destruct (Gorm.first_by_id _ _)]; simpl;
    try destruct (String.eqb _ _); intros [= _ <-]; reflexivity.
Qed.

Lemma FindByID_Some (id : Z) (x : Movie.t) (w w' : World) :
  movieRepository.FindByID id w = (Ok (Some x), w') ->
  exists e, Gorm.first_by_id id (movies (db w)) = Some e
            /\ x = Gorm.preload (db w) e /\ w' = tick w.
Proof.
  unfold movieRepository.FindByID, bind. rewrite FirstMovieByID_eq.
  destruct (fault w _ _) as [e|]; [|destruct (Gorm.first_by_id _ _) as [e|]]; simpl;
    try destruct (String.eqb _ _); try discriminate.
  intros [= <- <-]. exists e. repeat split.
Qed.

Lemma FindByID_None (id : Z) (w w' : World) :
  movieRepository.FindByID id w <> (Ok None, w').
Proof.
  unfold movieRepository.FindByID, bind. rewrite FirstMovieByID_eq.
  destruct (fault w _ _) as [e|]; [|destruct (Gorm.first_by_id _ _) as [e|]]; simpl;
    try destruct (String.eqb _ _); discriminate.
Qed.

(** X2. Replacing the poster of a movie, or deleting the movie, removes
    the poster's object from the bucket when the stored poster path is the
    public URL of an upload (file name and UUID text without ["/"] and
    ["?"], the service configured with the bucket of its object store, and
    the lookup and the removal not failing) - for an update, whether or not
    the row is then saved. *)
Theorem replaced_upload_leaves_the_bucket
        (s : movieService.t) (minio : MinIOService.t) (id : Z) (existing : Movie.t)
        (filename contentType uuid : string) (presign : string -> Result string)
        (presignedURL publicURL : string) (w : World) :
  movieService.minioService s = Some minio ->
  movieService.config_MinIO_BucketName s = MinIOService.bucket minio ->
  Strings.Contains filename "/" = false -> Strings.Contains filename "?" = false ->
  Strings.Contains uuid "/" = false -> Strings.Contains uuid "?" = false ->
  MinIOService.GeneratePresignedURL minio filename contentType uuid presign
  = (presignedURL, publicURL, None) ->
  Gorm.first_by_id id (movies (db w)) = Some existing ->
  Movie.PosterPath existing = publicURL ->
  fault w (OpMovieFirstByID id) (clock w) = None ->
  (forall key t, fault w (OpRemoveObject key) t = None) ->
  exists key,
    presign key = Ok presignedURL
    /\ (forall movie,
           Movie.PosterPath movie <> ""%string -> Movie.PosterPath movie <> publicURL ->
           key ∉ objects (snd (movieService.UpdateMovie s id movie w)))
    /\ key ∉ objects (snd (movieService.DeleteMovie s id w)).
Proof.
  intros Hm Hb Hf1 Hf2 Hu1 Hu2 G He Hp F R.
  apply GeneratePresignedURL_shape in G as (P & Hh & Hc & base & Hpub).
  rewrite <- Hb in Hc.
  set (key := (Strings.TrimSuffix filename (Filepath.Ext filename) +:+ "_"
               +:+ Strings.slice_to uuid 8 +:+ Filepath.Ext filename)%string) in *.
  pose proof (object_key_char "/" filename uuid eq_refl Hf1 Hu1) as K1.
  pose proof (object_key_char "?" filename uuid eq_refl Hf2 Hu2) as K2.
  fold key in K1, K2.
  assert (D : exists w0, movieService.deleteStoredImage s minio publicURL (tick w) = (tt, w0)
                         /\ key ∉ objects w0).
  { rewrite Hpub in Hh, Hc |- *.
    destruct (deleteStoredImage_upload s minio base key (tick w) Hh Hc K1 K2 (R _ _))
      as (w0 & E & O).
    exists w0. split; [exact E|]. rewrite O. intros Hx.
    apply elem_of_difference in Hx as [_ Hx]. apply Hx, elem_of_singleton. reflexivity. }
  destruct D as (w0 & D & O).
  exists key. split; [exact P|]. split.
  - intros movie N1 N2. unfold movieService.UpdateMovie, bind.
    rewrite (FindByID_found id existing w F He).
    destruct (movieService.deleteReplacedImages s movie _ (tick w)) as [u w1] eqn:C.
    destruct (movieRepository.Update _ w1) as [err w2] eqn:U. simpl snd.
    rewrite (Update_objects _ _ _ _ U).
    unfold movieService.deleteReplacedImages in C. rewrite Hm in C.
    change (Movie.PosterPath (Gorm.preload (db w) existing))
      with (Movie.PosterPath existing) in C.
    rewrite Hp in C. apply String.eqb_neq in N1, N2. rewrite N1, N2 in C.
    change (negb false && negb false) with true in C. cbv beta iota in C.
    unfold bind in C. rewrite D in C.
    destruct (_ && _) in C.
    + apply deleteStoredImage_objects in C. intros Hx. apply O, C, Hx.
    + injection C as _ <-. exact O.
  - unfold movieService.DeleteMovie, bind.
    rewrite (FindByID_found id existing w F He).
    destruct (movieService.deleteImages s _ (tick w)) as [u w1] eqn:C.
    destruct (movieRepository.Delete _ w1) as [err w2] eqn:U. simpl snd.
    rewrite (Delete_objects _ _ _ _ U).
    unfold movieService.deleteImages in C. rewrite Hm in C.
    change (Movie.PosterPath (Gorm.preload (db w) existing))
      with (Movie.PosterPath existing) in C.
    rewrite Hp in C.
    assert (N : String.eqb publicURL "" = false).
    { destruct publicURL; [discriminate Hh | reflexivity]. }
    rewrite N in C. change (negb false) with true in C. cbv beta iota in C.
    unfold bind in C. rewrite D in C.
    destruct (negb _) in C.
    + apply deleteStoredImage_objects in C. intros Hx. apply O, C, Hx.
    + injection C as _ <-. exact O.
Qed.

(** X3. An update or a deletion leaves the bucket as it is when the stored
    poster and backdrop paths of the movie are not URLs of the bucket (such
    as the relative paths TMDB supplies): no object is removed, whatever
    else happens. *)
Theorem foreign_paths_leave_the_bucket_alone
        (s : movieService.t) (id : Z) (movie : Movie.t) (w : World) :
  (forall e, Gorm.first_by_id id (movies (db w)) = Some e ->
             Strings.Contains (Movie.PosterPath e) "http"
             && Strings.Contains (Movie.PosterPath e) (movieService.config_MinIO_BucketName s)
             = false
             /\ Strings.Contains (Movie.BackdropPath e) "http"
                && Strings.Contains (Movie.BackdropPath e)
                     (movieService.config_MinIO_BucketName s)
                = false) ->
  objects (snd (movieService.UpdateMovie s id movie w)) = objects w
  /\ objects (snd (movieService.DeleteMovie s id w)) = objects w.
Proof.
  intros H. split.
  - unfold movieService.UpdateMovie, bind.
    destruct (movieRepository.FindByID id w) as [r w0] eqn:Fd.
    pose proof (FindByID_objects _ _ _ _ Fd) as O0.
    destruct r as [[x|]|e]; [|exact O0|exact O0].
    apply FindByID_Some in Fd as (e & He & -> & ->). destruct (H e He) as [Hp Hk].
    destruct (movieService.deleteReplacedImages s movie _ (tick w)) as [u w1] eqn:C.
    destruct (movieRepository.Update _ w1) as [err w2] eqn:U. simpl snd.
    rewrite (Update_objects _ _ _ _ U).
    unfold movieService.deleteReplacedImages, bind in C.
    change (Movie.PosterPath (Gorm.preload (db w) e)) with (Movie.PosterPath e) in C.
    change (Movie.BackdropPath (Gorm.preload (db w) e)) with (Movie.BackdropPath e) in C.
    destruct (movieService.minioService s); [|injection C as _ <-; reflexivity].
    destruct (_ && _) in C; [rewrite (deleteStoredImage_foreign _ _ _ _ Hp) in C|];
      unfold ret in C; cbv beta iota in C;
      (destruct (_ && _) in C; [rewrite (deleteStoredImage_foreign _ _ _ _ Hk) in C|]);
      injection C as _ <-; reflexivity.
  - unfold movieService.DeleteMovie, bind.
    destruct (movieRepository.FindByID id w) as [r w0] eqn:Fd.
    pose proof (FindByID_objects _ _ _ _ Fd) as O0.
    destruct r as [[x|]|e]; [|exact O0|exact O0].
    apply FindByID_Some in Fd as (e & He & -> & ->). destruct (H e He) as [Hp Hk].
    destruct (movieService.deleteImages s _ (tick w)) as [u w1] eqn:C.
    destruct (movieRepository.Delete _ w1) as [err w2] eqn:U. simpl snd.
    rewrite (Delete_objects _ _ _ _ U).
    unfold movieService.deleteImages, bind in C.
    change (Movie.PosterPath (Gorm.preload (db w) e)) with (Movie.PosterPath e) in C.
    change (Movie.BackdropPath (Gorm.preload (db w) e)) with (Movie.BackdropPath e) in C.
    destruct (movieService.minioService s); [|injection C as _ <-; reflexivity].
    destruct (negb _) in C; [rewrite (deleteStoredImage_foreign _ _ _ _ Hp) in C|];
      unfold ret in C; cbv beta iota in C;
      (destruct (negb _) in C; [rewrite (deleteStoredImage_foreign _ _ _ _ Hk) in C|]);
      injection C as _ <-; reflexivity.
Qed.

Lemma replaced_upload_leaves_the_bucket_witness :
  exists key,
    Examples.presign key
    = Ok "https://storage.example/movies/poster_1a2b3c4d.jpg?X-Amz-Expires=900"%string
    /\ (forall movie,
           Movie.PosterPath movie <> ""%string ->
           Movie.PosterPath movie <> "https://storage.example/movies/poster_1a2b3c4d.jpg"%string ->
           key ∉ objects (snd (movieService.UpdateMovie Examples.svc 1 movie Examples.uploaded)))
    /\ key ∉ objects (snd (movieService.DeleteMovie Examples.svc 1 Examples.uploaded)).
Proof.
  apply (replaced_upload_leaves_the_bucket Examples.svc Examples.minio 1
           Examples.uploaded_fight_club "poster.jpg" "image/jpeg" Examples.uuid
           Examples.presign); reflexivity.
Defined.

Lemma foreign_paths_leave_the_bucket_alone_witness :
  objects (snd (movieService.UpdateMovie Examples.svc 1 Examples.supplied Examples.stocked))
  = objects Examples.stocked
  /\ objects (snd (movieService.DeleteMovie Examples.svc 1 Examples.stocked))
     = objects Examples.stocked.
Proof.
  apply (foreign_paths_leave_the_bucket_alone Examples.svc 1 Examples.supplied
           Examples.stocked).
  intros e [= <-]. split; reflexivity.
Defined.

(** ** Creating a movie by hand *)

(** What a [db.Create] of a movie does: it refuses, writing nothing, or it
    appends one row under a key and an external id no stored row has. *)
Lemma Create_cases (m : Movie.t) (w w' : World) (err : option error) :
  movieRepository.Create m w = (err, w') ->
  (exists e, err = Some e /\ quiet w w')
  \/ (err = None
      /\ exists row,
           movies (db w') = movies (db w) ++ [row]
           /\ steps w w' [EvMovieInserted (Movie.ID row)]
           /\ keeps_logs w w'
           /\ languages (db w') = languages (db w)
           /\ Movie.ID row = (if Movie.ID m =? 0 then next_movie_id (db w) else Movie.ID m)
           /\ Movie.TMDBID row = Movie.TMDBID m
           /\ carries_supplied row m
           /\ (forall r, In r (movies (db w)) ->
                         Movie.ID r <> Movie.ID row /\ Movie.TMDBID r <> Movie.TMDBID m)).
Proof.
  unfold movieRepository.Create, bind, Gorm.CreateMovie, call.
  destruct (fault w _ _) as [e|].
  { intros [= <- <-]. left. exists e. split; [reflexivity | apply quiet_tick]. }
  cbv zeta. change (movies (db (tick w))) with (movies (db w)).
  change (next_movie_id (db (tick w))) with (next_movie_id (db w)).
  destruct (existsb _ (movies (db w))) eqn:X.
  { intros [= <- <-]. left. eexists. split; [reflexivity | apply quiet_tick]. }
  intros [= <- <-]. right. split; [reflexivity|]. eexists.
  split; [reflexivity|]. split; [|split; [|split; [|split; [|split; [|split]]]]].
  - unfold steps; simpl. repeat split; try reflexivity. lia.
  - split; reflexivity.
  - reflexivity.
  - reflexivity.
  - reflexivity.
  - repeat split.
  - intros r Hr. simpl.
    assert (Y : (Movie.ID r =? (if Movie.ID m =? 0 then next_movie_id (db w) else Movie.ID m))
                || (Movie.TMDBID r =? Movie.TMDBID m) = false).
    { destruct (_ || _) eqn:Y; [|reflexivity]. rewrite <- X. symmetry.
      apply existsb_exists. exists r. split; [exact Hr | exact Y]. }
    apply orb_false_iff in Y as [Y1 Y2]. split; [apply Z.eqb_neq, Y1 | apply Z.eqb_neq, Y2].
Qed.

Lemma FindByTMDBID_quiet (x : Z) (w w' : World) r :
  movieRepository.FindByTMDBID x w = (r, w') -> quiet w w'.
Proof.
  unfold movieRepository.FindByTMDBID, bind. rewrite FirstMovieByTMDBID_eq.
  destruct (fault w _ _) as [e|]; [|destruct (Gorm.first_by_tmdb_id _ _)]; simpl;
    try destruct (String.eqb _ _); intros [= _ <-]; apply quiet_tick.
Qed.

(** The service returns what [Create] returns, or refuses before it. *)
Lemma CreateMovie_cases (s : movieService.t) (m : Movie.t) (w w' : World)
      (err : option error) :
  movieService.CreateMovie s m w = (err, w') ->
  (exists e, err = Some e /\ quiet w w')
  \/ (Movie.Title m <> ""%string
      /\ exists w0, quiet w w0 /\ movieRepository.Create m w0 = (err, w')).
Proof.
  unfold movieService.CreateMovie.
  destruct (String.eqb_spec (Movie.Title m) "") as [T|T].
  { intros [= <- <-]. left. eexists. split; [reflexivity | apply quiet_refl]. }
  unfold bind. destruct (0 <? Movie.TMDBID m).
  - destruct (movieRepository.FindByTMDBID _ w) as [r w0] eqn:Fd.
    apply FindByTMDBID_quiet in Fd.
    destruct r as [[x|]|e].
    + intros [= <- <-]. left. eexists. split; [reflexivity | exact Fd].
    + intros C. right. split; [exact T|]. exists w0. split; [exact Fd | exact C].
    + intros [= <- <-]. left. eexists. split; [reflexivity | exact Fd].
  - intros C. right. split; [exact T|]. exists w. split; [apply quiet_refl | exact C].
Qed.

(** X4. Creating a movie is all or nothing.  Without a title it is refused
    before the store is asked; with a positive external id that a stored
    movie has, it is refused after the lookup; and whenever it returns an
    error, no row of [movies] or [sync_logs] was written and nothing was
    recorded in the trace. *)
Theorem create_movie_refusals_write_nothing (s : movieService.t) (m : Movie.t) (w : World) :
  (Movie.Title m = ""%string ->
   movieService.CreateMovie s m w = (Some "movie title is required"%string, w))
  /\ (forall e,
         Movie.Title m <> ""%string -> 0 < Movie.TMDBID m ->
         fault w (OpMovieFirstByTMDBID (Movie.TMDBID m)) (clock w) = None ->
         Gorm.first_by_tmdb_id (Movie.TMDBID m) (movies (db w)) = Some e ->
         movieService.CreateMovie s m w
         = (Some ("movie with TMDB ID " +:+ pretty (Movie.TMDBID m) +:+ " already exists")%string,
            tick w))
  /\ (forall err w', movieService.CreateMovie s m w = (Some err, w') -> quiet w w').
Proof.
  split; [|split].
  - intros T. unfold movieService.CreateMovie. rewrite T. reflexivity.
  - intros e T P F H. unfold movieService.CreateMovie.
    apply String.eqb_neq in T. rewrite T. apply Z.ltb_lt in P. rewrite P.
    unfold bind, movieRepository.FindByTMDBID, bind. rewrite FirstMovieByTMDBID_eq, F, H.
    reflexivity.
  - intros err w' C. apply CreateMovie_cases in C as [(e & _ & Q)|(_ & w0 & Q & C)];
      [exact Q|].
    apply Create_cases in C as [(e & _ & Q')|(N & _)]; [|discriminate].
    eapply quiet_trans; eassumption.
Qed.

Lemma create_movie_refusals_write_nothing_witness :
  movieService.CreateMovie Examples.svc (Movie.set_TMDBID 550 Examples.supplied)
    Examples.stocked
  = (Some ("movie with TMDB ID " +:+ pretty 550 +:+ " already exists")%string,
     tick Examples.stocked)
  /\ quiet Examples.stocked
       (snd (movieService.CreateMovie Examples.svc (Movie.set_TMDBID 550 Examples.supplied)
               Examples.stocked)).
Proof.
  split.
  - apply (proj1 (proj2 (create_movie_refusals_write_nothing Examples.svc
                           (Movie.set_TMDBID 550 Examples.supplied) Examples.stocked))
                 Examples.stored_fight_club);
      [discriminate | reflexivity | reflexivity | reflexivity].
  - apply (proj2 (proj2 (create_movie_refusals_write_nothing Examples.svc
                           (Movie.set_TMDBID 550 Examples.supplied) Examples.stocked))
                 ("movie with TMDB ID " +:+ pretty 550 +:+ " already exists")%string).
    vm_compute. reflexivity.
Defined.

(** X5. A movie that was created can be read back: when the creation
    succeeds, exactly one row is appended to [movies], with the supplied
    fields and external id and a non-empty title, the trace records the
    insertion, the row is the one found under its key, and the lookup by
    that key returns it (with its associations loaded) unless the store
    fails. *)
Theorem created_movie_is_found (s : movieService.t) (m : Movie.t) (w w' : World) :
  movieService.CreateMovie s m w = (None, w') ->
  exists row,
    movies (db w') = movies (db w) ++ [row]
    /\ trace w' = trace w ++ [EvMovieInserted (Movie.ID row)]
    /\ Movie.Title row <> ""%string
    /\ Movie.TMDBID row = Movie.TMDBID m
    /\ carries_supplied row m
    /\ Gorm.first_by_id (Movie.ID row) (movies (db w')) = Some row
    /\ (fault w' (OpMovieFirstByID (Movie.ID row)) (clock w') = None ->
        movieService.GetMovieByID s (Movie.ID row) w'
        = (Ok (Some (Gorm.preload (db w') row)), tick w')).
Proof.
  intros C. apply CreateMovie_cases in C as [(e & [=] & _)|(T & w0 & Q & C)].
  apply Create_cases in C as [(e & [=] & _)|(_ & row & M & S & _ & _ & I & X & Cs & U)].
  assert (F : Gorm.first_by_id (Movie.ID row) (movies (db w')) = Some row).
  { rewrite M. apply first_by_id_middle; [|reflexivity].
    intros r Hr. apply (U r Hr). }
  exists row. split; [rewrite M; f_equal; apply Q|].
  split; [destruct S as [-> _]; f_equal; destruct Q as [[Tq _] _]; rewrite Tq;
          apply app_nil_r|].
  split; [destruct Cs as [-> _]; exact T|].
  split; [exact X|]. split; [exact Cs|]. split; [exact F|].
  intros Hf. unfold movieService.GetMovieByID. apply FindByID_found; assumption.
Qed.

Lemma created_movie_is_found_witness :
  exists w' row,
    movieService.CreateMovie Examples.svc Examples.supplied Examples.stocked = (None, w')
    /\ movies (db w') = movies (db Examples.stocked) ++ [row]
    /\ trace w' = trace Examples.stocked ++ [EvMovieInserted (Movie.ID row)]
    /\ Movie.Title row <> ""%string
    /\ Movie.TMDBID row = Movie.TMDBID Examples.supplied
    /\ carries_supplied row Examples.supplied
    /\ Gorm.first_by_id (Movie.ID row) (movies (db w')) = Some row
    /\ (fault w' (OpMovieFirstByID (Movie.ID row)) (clock w') = None ->
        movieService.GetMovieByID Examples.svc (Movie.ID row) w'
        = (Ok (Some (Gorm.preload (db w') row)), tick w')).
Proof.
  eexists.
  destruct (created_movie_is_found Examples.svc Examples.supplied Examples.stocked _ eq_refl)
    as (row & H).
  exists row. split; [reflexivity | exact H].
Defined.

(** X6. The service's own duplicate check is skipped for an external id
    that is not positive, and the unique index on [tmdb_id] then decides: a
    second movie under such an id (0 when the client names none) is refused
    by the store with a duplicate-key error, and nothing is written. *)
Theorem second_movie_without_external_id_is_refused
        (s : movieService.t) (m e : Movie.t) (w : World) :
  Movie.Title m <> ""%string ->
  Movie.TMDBID m <= 0 ->
  In e (movies (db w)) -> Movie.TMDBID e = Movie.TMDBID m ->
  fault w (OpMovieCreate (Movie.TMDBID m)) (clock w) = None ->
  movieService.CreateMovie s m w = (Some Gorm.ErrDuplicateKey, tick w).
Proof.
  intros T P He Hx F. unfold movieService.CreateMovie.
  apply String.eqb_neq in T. rewrite T.
  assert (L : (0 <? Movie.TMDBID m) = false) by (apply Z.ltb_ge; exact P). rewrite L.
  unfold bind, ret, movieRepository.Create, bind, Gorm.CreateMovie.
  rewrite (call_ok _ _ _ F). cbv zeta.
  assert (X : existsb (fun r => (Movie.ID r =? (if Movie.ID m =? 0
                                               then next_movie_id (db (tick w))
                                               else Movie.ID m))
                               || (Movie.TMDBID r =? Movie.TMDBID m))
                      (movies (db (tick w))) = true).
  { apply existsb_exists. exists e. split; [exact He|].
    rewrite Hx, Z.eqb_refl. apply orb_true_r. }
  rewrite X. reflexivity.
Qed.

Lemma second_movie_without_external_id_is_refused_witness :
  movieService.CreateMovie Examples.svc
    (Movie.set_TMDBID 0 Examples.supplied)
    (Examples.world Examples.odd_db Examples.never_fails)
  = (Some Gorm.ErrDuplicateKey, tick (Examples.world Examples.odd_db Examples.never_fails)).
Proof.
  apply (second_movie_without_external_id_is_refused Examples.svc
           (Movie.set_TMDBID 0 Examples.supplied) Examples.odd_date
           (Examples.world Examples.odd_db Examples.never_fails)).
  - discriminate.
  - simpl. lia.
  - left. reflexivity.
  - reflexivity.
  - reflexivity.
Defined.

(** ** The language of a request *)

Lemma FirstLanguage_eq (code : string) (w : World) :
  Gorm.FirstLanguage code w =
  (match fault w (OpLanguageFirst code) (clock w) with
   | Some e => Err e
   | None => match List.find (fun l => String.eqb (Language.Code l) code)
                             (languages (db w)) with
             | Some l => Ok l
             | None => Err Gorm.ErrRecordNotFound
             end
   end, tick w).
Proof.
  unfold Gorm.FirstLanguage, call. destruct (fault w _ _); [reflexivity|].
  change (languages (db (tick w))) with (languages (db w)). destruct (List.find _ _); reflexivity.
Qed.

Lemma FirstOrCreateLanguage_mono (code name : string) (w w' : World) r (l : Language.t) :
  Gorm.FirstOrCreateLanguage code name w = (r, w') ->
  In l (languages (db w)) -> In l (languages (db w')).
Proof.
  unfold Gorm.FirstOrCreateLanguage, call. destruct (fault w _ _); [intros [= _ <-]; tauto|].
  cbv zeta. destruct (List.find _ _); intros [= _ <-]; simpl; [tauto|].
  intros H. apply in_app_iff. left. exact H.
Qed.

Lemma FirstOrCreateLanguage_no_fault (code name : string) (w : World) :
  fault w (OpLanguageFirstOrCreate code) (clock w) = None ->
  exists l w', Gorm.FirstOrCreateLanguage code name w = (Ok l, w').
Proof.
  intros F. unfold Gorm.FirstOrCreateLanguage. rewrite (call_ok _ _ _ F). cbv zeta.
  destruct (List.find _ _); eauto.
Qed.

(** The block of [convertRequestToMovie] that resolves the language code of
    a request to a key. *)
Lemma language_of_request (h : MovieHandler.t) (code : string) (w w1 : World)
      (lid : option Z) :
  (if negb (String.eqb code "")
   then
     r <- movieService.GetLanguageByCode (MovieHandler.service h) code ;;
     match r with
     | Ok (Some lang) => ret (Some (Language.ID lang))
     | _ =>
         let langName := MovieHandler.getLanguageName code in
         r <- movieService.CreateLanguage (MovieHandler.service h) code langName ;;
         match r with
         | Ok lang => ret (Some (Language.ID lang))
         | Err _ => ret None
         end
     end
   else ret None) w = (lid, w1) ->
  quiet w w1
  /\ (forall l, In l (languages (db w)) -> In l (languages (db w1)))
  /\ (forall i, lid = Some i ->
                exists l, In l (languages (db w1)) /\ Language.ID l = i
                          /\ Language.Code l = code)
  /\ (code = ""%string -> lid = None /\ w1 = w)
  /\ (code <> ""%string ->
      (forall t, fault w (OpLanguageFirstOrCreate code) t = None) -> lid <> None).
Proof.
  destruct (String.eqb_spec code "") as [->|N].
  { change (negb true) with false. cbv iota. intros [= <- <-]. split; [apply quiet_refl|]. split; [tauto|].
    split; [discriminate|]. split; [tauto | congruence]. }
  change (negb false) with true. cbv beta iota.
  unfold movieService.GetLanguageByCode, languageRepository.FindByCode, bind.
  rewrite FirstLanguage_eq.
  unfold movieService.CreateLanguage, languageRepository.FindOrCreate.
  assert (K : forall x,
             (let '(a, w3) := Gorm.FirstOrCreateLanguage code
                                (MovieHandler.getLanguageName code) (tick w) in
              match a with
              | Ok lang => ret (Some (Language.ID lang))
              | Err _ => ret None
              end w3) = x ->
             quiet w (snd x)
             /\ (forall l, In l (languages (db w)) -> In l (languages (db (snd x))))
             /\ (forall i, fst x = Some i ->
                           exists l, In l (languages (db (snd x))) /\ Language.ID l = i
                                     /\ Language.Code l = code)
             /\ ((forall t, fault w (OpLanguageFirstOrCreate code) t = None) ->
                 fst x <> None)).
  { intros x <-.
    destruct (Gorm.FirstOrCreateLanguage _ _ (tick w)) as [a w3] eqn:E3.
    pose proof (FirstOrCreateLanguage_quiet _ _ _ _ _ E3) as Q3.
    pose proof (fun l => FirstOrCreateLanguage_mono _ _ _ _ _ l E3) as M3.
    pose proof (quiet_trans _ _ _ (quiet_tick w) Q3) as Q.
    destruct a as [lang|e]; unfold ret; cbn [fst snd].
    - split; [exact Q|]. split; [exact M3|]. split; [|discriminate].
      intros i [= <-]. apply FirstOrCreateLanguage_Ok in E3 as [Hin Hc]. exists lang. tauto.
    - split; [exact Q|]. split; [exact M3|]. split; [discriminate|].
      intros F. apply FirstOrCreateLanguage_Err in E3. simpl in E3. rewrite F in E3.
      discriminate. }
  assert (R : forall x, quiet w (snd x)
             /\ (forall l, In l (languages (db w)) -> In l (languages (db (snd x))))
             /\ (forall i, fst x = Some i ->
                           exists l, In l (languages (db (snd x))) /\ Language.ID l = i
                                     /\ Language.Code l = code)
             /\ ((forall t, fault w (OpLanguageFirstOrCreate code) t = None) ->
                 fst x <> None) ->
             x = (lid, w1) ->
             quiet w w1
             /\ (forall l, In l (languages (db w)) -> In l (languages (db w1)))
             /\ (forall i, lid = Some i ->
                           exists l, In l (languages (db w1)) /\ Language.ID l = i
                                     /\ Language.Code l = code)
             /\ (code = ""%string -> lid = None /\ w1 = w)
             /\ (code <> ""%string ->
                 (forall t, fault w (OpLanguageFirstOrCreate code) t = None) -> lid <> None)).
  { intros x (A & B & C & D) ->. cbn [fst snd] in *.
    split; [exact A|]. split; [exact B|]. split; [exact C|].
    split; [intros Hc; contradiction | intros _; exact D]. }
  destruct (fault w (OpLanguageFirst code) (clock w)) as [e|].
  { destruct (String.eqb e _); unfold ret at 1; intros E; exact (R _ (K _ eq_refl) E). }
  destruct (List.find _ _) as [lang|] eqn:Fd.
  - unfold ret. intros [= <- <-]. apply find_some in Fd as [Hin Hc].
    apply String.eqb_eq in Hc.
    split; [apply quiet_tick|]. split; [tauto|].
    split; [intros i [= <-]; exists lang; tauto|]. split; [contradiction | discriminate].
  - change (String.eqb Gorm.ErrRecordNotFound Gorm.ErrRecordNotFound) with true.
    cbv iota. unfold ret at 1. intros E. exact (R _ (K _ eq_refl) E).
Qed.

Lemma convertRequestToMovie_result (h : MovieHandler.t) (req : MovieRequest.t)
      (w w' : World) r :
  MovieHandler.convertRequestToMovie h req w = (r, w') ->
  exists m,
    r = Ok m /\ carries_request m req
    /\ quiet w w'
    /\ (forall l, In l (languages (db w)) -> In l (languages (db w')))
    /\ (forall i, Movie.LanguageID m = Some i ->
                  exists l, In l (languages (db w')) /\ Language.ID l = i
                            /\ Language.Code l = MovieRequest.OriginalLanguage req)
    /\ (MovieRequest.OriginalLanguage req = ""%string -> Movie.LanguageID m = None /\ w' = w)
    /\ (MovieRequest.OriginalLanguage req <> ""%string ->
        (forall t, fault w (OpLanguageFirstOrCreate (MovieRequest.OriginalLanguage req)) t
                   = None) ->
        Movie.LanguageID m <> None).
Proof.
  unfold MovieHandler.convertRequestToMovie, bind.
  match goal with
  | |- (let '(_, _) := ?blk in _) = _ -> _ => destruct blk as [lid w1] eqn:B
  end.
  apply language_of_request in B. unfold ret. intros [= <- <-].
  eexists. split; [reflexivity|]. split; [repeat split | exact B].
Qed.

(** X7. Turning a request into a movie never fails and copies the request's
    fields; the language code is resolved to the key of a stored language
    with that code (looked up, and created when the lookup finds none or
    fails), an empty code leaves the movie without language and the store
    untouched; no stored language is lost, and neither [movies] nor
    [sync_logs] is written. *)
Theorem request_language_is_resolved
        (h : MovieHandler.t) (req : MovieRequest.t) (w : World) :
  exists m,
    fst (MovieHandler.convertRequestToMovie h req w) = Ok m
    /\ carries_request m req
    /\ quiet w (snd (MovieHandler.convertRequestToMovie h req w))
    /\ (forall l, In l (languages (db w)) ->
                  In l (languages (db (snd (MovieHandler.convertRequestToMovie h req w)))))
    /\ (forall i, Movie.LanguageID m = Some i ->
                  exists l,
                    In l (languages (db (snd (MovieHandler.convertRequestToMovie h req w))))
                    /\ Language.ID l = i
                    /\ Language.Code l = MovieRequest.OriginalLanguage req)
    /\ (MovieRequest.OriginalLanguage req = ""%string ->
        Movie.LanguageID m = None
        /\ snd (MovieHandler.convertRequestToMovie h req w) = w)
    /\ (MovieRequest.OriginalLanguage req <> ""%string ->
        (forall t, fault w (OpLanguageFirstOrCreate (MovieRequest.OriginalLanguage req)) t
                   = None) ->
        Movie.LanguageID m <> None).
Proof.
  destruct (MovieHandler.convertRequestToMovie h req w) as [r w'] eqn:E.
  apply convertRequestToMovie_result in E as (m & -> & H). exists m.
  split; [reflexivity | exact H].
Qed.

(** X8. POST /movies answers 400 only when the body does not parse, and
    then touches nothing.  Otherwise it answers 201 or 500: 201 exactly
    when one row was inserted into [movies], 500 with nothing written to
    [movies]; a request without a title is answered 500 with the message
    of the service. *)
Theorem post_movie_statuses (h : MovieHandler.t) (c : fiber.Ctx) (w : World) :
  (fiber.body c = None ->
   MovieHandler.CreateMovie h c w
   = (Done (utils.ErrorResponse 400 "Invalid request body"), w))
  /\ (forall req, fiber.body c = Some req ->
        (status_code (fst (MovieHandler.CreateMovie h c w)) = Some 201
         /\ exists row,
              movies (db (snd (MovieHandler.CreateMovie h c w))) = movies (db w) ++ [row]
              /\ trace (snd (MovieHandler.CreateMovie h c w))
                 = trace w ++ [EvMovieInserted (Movie.ID row)]
              /\ Movie.Title row = MovieRequest.Title req)
        \/ (status_code (fst (MovieHandler.CreateMovie h c w)) = Some 500
            /\ quiet w (snd (MovieHandler.CreateMovie h c w))))
  /\ (forall req, fiber.body c = Some req -> MovieRequest.Title req = ""%string ->
        fst (MovieHandler.CreateMovie h c w)
        = Done (utils.ErrorResponse 500 "movie title is required")).
Proof.
  split; [|split].
  - intros B. unfold MovieHandler.CreateMovie. rewrite B. reflexivity.
  - intros req B. unfold MovieHandler.CreateMovie, bind. rewrite B.
    destruct (MovieHandler.convertRequestToMovie h req w) as [r w1] eqn:Cv.
    apply convertRequestToMovie_result in Cv as (m & -> & Cr & Q & _).
    destruct (movieService.CreateMovie _ m w1) as [err w2] eqn:Cm.
    apply CreateMovie_cases in Cm as [(e & -> & Q')|(T & w0 & Q' & Cm)].
    { right. split; [reflexivity | exact (quiet_trans _ _ _ Q Q')]. }
    pose proof (quiet_trans _ _ _ Q Q') as Q0.
    apply Create_cases in Cm as [(e & -> & Q2)|(-> & row & M & S & _ & _ & _ & _ & Cs & _)].
    { right. split; [reflexivity | exact (quiet_trans _ _ _ Q0 Q2)]. }
    left. split; [reflexivity|]. exists row. unfold ret; cbn [fst snd].
    split; [rewrite M; f_equal; apply Q0|].
    split; [destruct S as [-> _]; f_equal; destruct Q0 as [[Tq _] _]; rewrite Tq;
            apply app_nil_r|].
    destruct Cs as [-> _]. apply Cr.
  - intros req B T. unfold MovieHandler.CreateMovie, bind. rewrite B.
    destruct (MovieHandler.convertRequestToMovie h req w) as [r w1] eqn:Cv.
    apply convertRequestToMovie_result in Cv as (m & -> & Cr & _).
    unfold movieService.CreateMovie.
    assert (Tm : Movie.Title m = ""%string) by (rewrite <- T; apply Cr).
    rewrite Tm. reflexivity.
Qed.

Lemma post_movie_statuses_witness :
  status_code (fst (MovieHandler.CreateMovie Examples.handler (Examples.ctx "1" ∅)
                      Examples.stocked)) = Some 201
  /\ MovieHandler.CreateMovie Examples.handler (fiber.mkCtx ∅ ∅ None) Examples.stocked
     = (Done (utils.ErrorResponse 400 "Invalid request body"), Examples.stocked).
Proof.
  split.
  - destruct (proj1 (proj2 (post_movie_statuses Examples.handler (Examples.ctx "1" ∅)
                              Examples.stocked)) Examples.request eq_refl)
      as [[H _]|[H _]]; [exact H | vm_compute in H; discriminate H].
  - apply (proj1 (post_movie_statuses Examples.handler (fiber.mkCtx ∅ ∅ None)
                    Examples.stocked)). reflexivity.
Defined.

(** ** Deleting and updating a movie *)

Lemma deleteImages_db (s : movieService.t) (existing : Movie.t) (w w' : World) r :
  movieService.deleteImages s existing w = (r, w') -> db w' = db w.
Proof.
  unfold movieService.deleteImages.
  destruct (movieService.minioService s) as [m|]; [|intros [= _ <-]; reflexivity].
  unfold bind. destruct (negb (String.eqb (Movie.PosterPath existing) "")).
  - destruct (movieService.deleteStoredImage s m _ w) as [u w0] eqn:E0.
    apply deleteStoredImage_db in E0. destruct (negb _).
    + intros E1. apply deleteStoredImage_db in E1. congruence.
    + intros [= _ <-]. exact E0.
  - unfold ret at 1. destruct (negb _).
    + apply deleteStoredImage_db.
    + intros [= _ <-]. reflexivity.
Qed.

Lemma NoDup_map_filter {A} (f : A -> Z) (p : A -> bool) (l : list A) :
  NoDup (map f l) -> NoDup (map f (List.filter p l)).
Proof.
  induction l as [|a l IH]; simpl; intros N; [exact N|].
  apply NoDup_cons in N as [Ha N]. destruct (p a); simpl; [|exact (IH N)].
  apply NoDup_cons. split; [|exact (IH N)].
  intros H. apply Ha. apply list_elem_of_In in H. apply list_elem_of_In.
  apply in_map_iff in H as (x & Hx & Hin). apply in_map_iff. exists x.
  split; [exact Hx|]. apply filter_In in Hin. apply Hin.
Qed.

Lemma wf_delete (d : Database) (id : Z) (links : list (Z * Z)) :
  wf_db d ->
  wf_db (Gorm.set_movies (List.filter (fun r => negb (Movie.ID r =? id)) (movies d))
                         links (next_movie_id d) d).
Proof.
  intros (N1 & N2 & F & P). unfold wf_db. simpl.
  split; [apply NoDup_map_filter, N1|]. split; [apply NoDup_map_filter, N2|].
  split; [|exact P]. rewrite Forall_forall in F |- *. intros r Hr. apply F.
  apply list_elem_of_In in Hr. apply list_elem_of_In. apply filter_In in Hr. apply Hr.
Qed.

Lemma first_by_id_filtered (id : Z) (rows : list Movie.t) :
  Gorm.first_by_id id (List.filter (fun r => negb (Movie.ID r =? id)) rows) = None.
Proof.
  unfold Gorm.first_by_id. induction rows as [|a rows IH]; [reflexivity|]. simpl.
  destruct (Movie.ID a =? id) eqn:E; simpl; [exact IH|]. rewrite E. exact IH.
Qed.

(** X9. A movie that was deleted is gone: when the deletion succeeds, the
    movie was stored, [movies] afterwards holds exactly the other rows, in
    their order, the invariants of the table are kept, no row is found under
    the key, and GET /movies/{id} for that key answers 404. *)
Theorem deleted_movie_is_gone (s : movieService.t) (id : Z) (w w' : World) :
  movieService.DeleteMovie s id w = (None, w') ->
  (exists e, Gorm.first_by_id id (movies (db w)) = Some e)
  /\ movies (db w') = List.filter (fun r => negb (Movie.ID r =? id)) (movies (db w))
  /\ Gorm.first_by_id id (movies (db w')) = None
  /\ (wf_db (db w) -> wf_db (db w'))
  /\ (forall (h : MovieHandler.t) (c : fiber.Ctx),
         Strconv.ParseUint32 (fiber.Params c "id") = (id, None) ->
         status_code (fst (MovieHandler.GetMovieByID h c w')) = Some 404).
Proof.
  unfold movieService.DeleteMovie, bind.
  destruct (movieRepository.FindByID id w) as [r w0] eqn:Fd.
  destruct r as [[x|]|e]; [|intros [=]|intros [=]].
  apply FindByID_Some in Fd as (e & He & -> & ->).
  destruct (movieService.deleteImages s _ (tick w)) as [u w1] eqn:D.
  apply deleteImages_db in D. change (db (tick w)) with (db w) in D.
  unfold movieRepository.Delete, bind, Gorm.DeleteMovie, call.
  destruct (fault w1 _ _); [intros [=]|]. cbv zeta.
  change (db (tick w1)) with (db w1). rewrite D. intros [= <-].
  assert (G : Gorm.first_by_id id
                (List.filter (fun r => negb (Movie.ID r =? id)) (movies (db w))) = None)
    by apply first_by_id_filtered.
  split; [exists e; exact He|]. split; [reflexivity|]. split; [exact G|].
  split; [apply wf_delete|].
  intros h c P. unfold MovieHandler.GetMovieByID. rewrite P.
  unfold movieService.GetMovieByID, bind.
  match goal with
  | |- context [movieRepository.FindByID id ?v] =>
      destruct (FindByID_missing id v G) as (x & ->)
  end.
  reflexivity.
Qed.

Lemma deleted_movie_is_gone_witness :
  exists w',
    movieService.DeleteMovie Examples.svc 1 Examples.stocked = (None, w')
    /\ movies (db w') = []
    /\ Gorm.first_by_id 1 (movies (db w')) = None
    /\ status_code (fst (MovieHandler.GetMovieByID Examples.handler (Examples.ctx "1" ∅) w'))
       = Some 404.
Proof.
  eexists.
  destruct (deleted_movie_is_gone Examples.svc 1 Examples.stocked _ eq_refl)
    as (_ & M & G & _ & H).
  split; [reflexivity|]. split; [exact M|]. split; [exact G|].
  apply H. reflexivity.
Defined.

(** X10. An update touches one row at most.  On a well-formed store, a
    successful update replaces the row under the key in place - every other
    row of [movies] stays where and as it was - and an update that returns
    an error leaves [movies] as it was; either way the invariants of the
    table are kept and no language or sync log is written. *)
Theorem update_touches_one_row
        (s : movieService.t) (id : Z) (movie : Movie.t) (w w' : World) (err : option error) :
  wf_db (db w) ->
  movieService.UpdateMovie s id movie w = (err, w') ->
  wf_db (db w')
  /\ languages (db w') = languages (db w)
  /\ sync_logs (db w') = sync_logs (db w)
  /\ (err <> None -> movies (db w') = movies (db w))
  /\ (err = None ->
      exists l1 e row l2,
        movies (db w) = l1 ++ e :: l2 /\ movies (db w') = l1 ++ row :: l2
        /\ Movie.ID e = id /\ Movie.ID row = id).
Proof.
  intros W. unfold movieService.UpdateMovie, bind.
  destruct (movieRepository.FindByID id w) as [r w0] eqn:Fd.
  assert (D0 : forall x, r = Err x \/ r = Ok None -> db w0 = db w).
  { intros x Hr. revert Fd. unfold movieRepository.FindByID, bind.
    rewrite FirstMovieByID_eq.
    destruct (fault w _ _); [|destruct (Gorm.first_by_id _ _)]; simpl;
      try destruct (String.eqb _ _); intros [= _ <-]; reflexivity. }
  destruct r as [[x|]|e].
  2:{ intros [= <- <-]. rewrite (D0 ""%string) by (right; reflexivity).
      split; [exact W|]. split; [reflexivity|]. split; [reflexivity|].
      split; [reflexivity | intros [=]]. }
  2:{ intros [= <- <-]. rewrite (D0 e) by (left; reflexivity).
      split; [exact W|]. split; [reflexivity|]. split; [reflexivity|].
      split; [reflexivity | intros [=]]. }
  apply FindByID_Some in Fd as (e & He & -> & ->).
  destruct (movieService.deleteReplacedImages s movie _ (tick w)) as [u w1] eqn:E1.
  apply deleteReplacedImages_db in E1. change (db (tick w)) with (db w) in E1.
  apply first_by_id_Some in He as [He Hi].
  intros H. pose proof (Update_languages _ _ _ _ H) as LG.
  assert (W1 : wf_db (db w1)) by (rewrite E1; exact W).
  assert (He1 : In e (movies (db w1))) by (rewrite E1; exact He).
  apply (Update_step _ e) in H; [|exact W1|exact He1|simpl; lia|reflexivity].
  destruct H as (W' & [(x & -> & Q & _)|(-> & S & L & l1 & l2 & M & M')]).
  - split; [exact W'|]. split; [rewrite LG, E1; reflexivity|].
    split; [destruct Q as (_ & _ & [-> _]); rewrite E1; reflexivity|].
    split; [intros _; destruct Q as (_ & [-> _] & _); rewrite E1; reflexivity|].
    intros [=].
  - split; [exact W'|]. split; [rewrite LG, E1; reflexivity|].
    split; [destruct L as [-> _]; rewrite E1; reflexivity|].
    split; [intros N; contradiction|]. intros _.
    exists l1, e. eexists. exists l2. rewrite <- E1.
    split; [exact M|]. split; [exact M'|]. split; [exact Hi | reflexivity].
Qed.

Lemma update_touches_one_row_witness :
  exists w' l1 e row l2,
    movieService.UpdateMovie Examples.svc 1 Examples.supplied Examples.stocked = (None, w')
    /\ wf_db (db w')
    /\ movies (db Examples.stocked) = l1 ++ e :: l2 /\ movies (db w') = l1 ++ row :: l2
    /\ Movie.ID e = 1 /\ Movie.ID row = 1.
Proof.
  assert (E : movieService.UpdateMovie Examples.svc 1 Examples.supplied Examples.stocked
              = (None, snd (movieService.UpdateMovie Examples.svc 1 Examples.supplied
                              Examples.stocked)))
    by (vm_compute; reflexivity).
  destruct (update_touches_one_row Examples.svc 1 Examples.supplied Examples.stocked _ None
              wf_stocked_db E) as (W & _ & _ & _ & H).
  destruct (H eq_refl) as (l1 & e & row & l2 & M).
  eexists. exists l1, e, row, l2. split; [exact E|]. split; [exact W | exact M].
Defined.

(** ** What a sync run keeps *)

Lemma syncMovie_identity (it : TMDBMovieResponse.t) (c c' : Z * Z) (w w' : World) :
  wf_db (db w) ->
  movieService.syncMovie it c w = (c', w') ->
  wf_db (db w')
  /\ exists added, map identity (movies (db w')) = map identity (movies (db w)) ++ added.
Proof.
  intros W H. apply syncMovie_outcome in H as (W' & H); [|exact W]. split; [exact W'|].
  destruct H as [(_ & Q & _)|[(_ & _ & row & _ & _ & M & _)
                             |(_ & e & row & l1 & l2 & Fd & _ & _ & M & M' & I & T & Cr & _)]].
  - exists []. rewrite app_nil_r. f_equal. apply Q.
  - exists [identity row]. rewrite M, map_app. reflexivity.
  - exists []. rewrite app_nil_r, M, M', !map_app. simpl. f_equal. f_equal.
    apply first_by_tmdb_id_Some in Fd as [_ X]. destruct Cr as [X' _].
    unfold identity. rewrite I, T, X, X'. reflexivity.
Qed.

Lemma syncMovies_identity (its : list TMDBMovieResponse.t) (c c' : Z * Z) (w w' : World) :
  wf_db (db w) ->
  movieService.syncMovies its c w = (c', w') ->
  wf_db (db w')
  /\ exists added, map identity (movies (db w')) = map identity (movies (db w)) ++ added.
Proof.
  revert c w. induction its as [|it its IH]; simpl; intros c w W H.
  - injection H as <- <-. split; [exact W|]. exists []. rewrite app_nil_r. reflexivity.
  - unfold bind in H. destruct (movieService.syncMovie it c w) as [c1 w1] eqn:E1.
    apply syncMovie_identity in E1 as (W1 & a1 & M1); [|exact W].
    apply IH in H as (W2 & a2 & M2); [|exact W1].
    split; [exact W2|]. exists (a1 ++ a2). rewrite M2, M1, app_assoc. reflexivity.
Qed.

Lemma CreateSyncLog_movies (log : SyncLog.t) (w w' : World) x :
  movieRepository.CreateSyncLog log w = (x, w') ->
  movies (db w') = movies (db w) /\ next_movie_id (db w') = next_movie_id (db w).
Proof.
  unfold movieRepository.CreateSyncLog, bind, Gorm.CreateSyncLog, call.
  destruct (fault w _ _); intros [= _ <-]; split; reflexivity.
Qed.

Lemma syncPages_identity (pages : list Z) (log : SyncLog.t) (c : Z * Z) (w w' : World) r :
  wf_db (db w) ->
  movieService.syncPages pages log c w = (r, w') ->
  wf_db (db w')
  /\ exists added, map identity (movies (db w')) = map identity (movies (db w)) ++ added.
Proof.
  revert c w. induction pages as [|p pages IH]; intros c w W.
  - intros [= _ <-]. split; [exact W|]. exists []. rewrite app_nil_r. reflexivity.
  - simpl. unfold bind. rewrite GetPopular_eq. destruct (tmdb w p) as [ms|e].
    + destruct (movieService.syncMovies ms c _) as [c1 w1] eqn:E1.
      apply syncMovies_identity in E1 as (W1 & a1 & M1); [|exact W].
      intros H. apply IH in H as (W2 & a2 & M2); [|exact W1].
      split; [exact W2|]. exists (a1 ++ a2). rewrite M2, M1, app_assoc. reflexivity.
    + destruct (movieRepository.CreateSyncLog _ _) as [[l x] w1] eqn:E1.
      apply CreateSyncLog_movies in E1 as [M N]. intros [= _ <-].
      split; [exact (wf_db_ext _ _ M N W)|]. exists []. rewrite app_nil_r, M. reflexivity.
Qed.

(** X11. Whatever fails, a sync run keeps the invariants of [movies] and
    never removes, reorders or re-keys a stored movie: the keys, external
    ids and creation times of the rows stored before the run are, in
    order, a prefix of those stored after it. *)
Theorem sync_keeps_stored_movies (s : movieService.t) (pages : Z) (w : World) :
  wf_db (db w) ->
  wf_db (db (snd (movieService.SyncMoviesFromTMDB s pages w)))
  /\ exists added,
       map identity (movies (db (snd (movieService.SyncMoviesFromTMDB s pages w))))
       = map identity (movies (db w)) ++ added.
Proof.
  intros W. unfold movieService.SyncMoviesFromTMDB, bind, Now.
  destruct (movieService.syncPages _ _ _ (tick w)) as [r w1] eqn:E.
  apply syncPages_identity in E as (W1 & a & M); [|exact W].
  destruct r as [[l e]|[a0 u0]]; [exact (conj W1 (ex_intro _ a M))|].
  destruct (movieRepository.CreateSyncLog _ w1) as [[l x] w2] eqn:E2.
  apply CreateSyncLog_movies in E2 as [M2 N2]. simpl.
  split; [exact (wf_db_ext _ _ M2 N2 W1)|]. exists a. rewrite M2. exact M.
Qed.

Lemma sync_keeps_stored_movies_witness :
  wf_db (db (snd (movieService.SyncMoviesFromTMDB Examples.svc 1 Examples.stocked)))
  /\ exists added,
       map identity
           (movies (db (snd (movieService.SyncMoviesFromTMDB Examples.svc 1 Examples.stocked))))
       = map identity (movies (db Examples.stocked)) ++ added.
Proof.
  apply (sync_keeps_stored_movies Examples.svc 1 Examples.stocked). exact wf_stocked_db.
Defined.

(** ** A second run over the same pages *)

Lemma identity_external_ids (l l' : list Movie.t) (added : list (Z * Z * Time)) :
  map identity l' = map identity l ++ added ->
  map Movie.TMDBID l' = map Movie.TMDBID l ++ map (fun x => snd (fst x)) added.
Proof.
  intros H. apply (f_equal (map (fun x : Z * Z * Time => snd (fst x)))) in H.
  rewrite map_app, !map_map in H. exact H.
Qed.

Lemma stored_is_found (x : Z) (rows : list Movie.t) :
  In x (map Movie.TMDBID rows) -> Gorm.first_by_tmdb_id x rows <> None.
Proof.
  intros H E. apply in_map_iff in H as (r & Hx & Hr).
  exact (first_by_tmdb_id_None _ _ _ E Hr Hx).
Qed.

Lemma syncMovie_stores (it : TMDBMovieResponse.t) (c c' : Z * Z) (w w' : World) :
  wf_db (db w) -> no_faults w ->
  movieService.syncMovie it c w = (c', w') ->
  In (TMDBMovieResponse.ID it) (map Movie.TMDBID (movies (db w'))).
Proof.
  intros W N H.
  destruct (Gorm.first_by_tmdb_id (TMDBMovieResponse.ID it) (movies (db w))) as [e|] eqn:F.
  - destruct (syncMovie_existing it c w e W N F)
      as (w1 & row & l1 & l2 & E & _ & _ & _ & M' & _ & _ & Cr & _).
    rewrite E in H. injection H as _ <-. rewrite M', map_app. apply in_app_iff. right.
    left. apply Cr.
  - destruct (syncMovie_new it c w W N F) as (w1 & row & E & _ & _ & M & _ & _ & Cr & _).
    rewrite E in H. injection H as _ <-. rewrite M, map_app. apply in_app_iff. right.
    left. apply Cr.
Qed.

(** An item whose external id is stored is updated in place. *)
Lemma syncMovie_known (it : TMDBMovieResponse.t) (c : Z * Z) (w : World) :
  wf_db (db w) -> no_faults w ->
  In (TMDBMovieResponse.ID it) (map Movie.TMDBID (movies (db w))) ->
  exists w',
    movieService.syncMovie it c w = ((fst c, snd c + 1), w')
    /\ wf_db (db w') /\ no_faults w' /\ tmdb w' = tmdb w
    /\ map identity (movies (db w')) = map identity (movies (db w)).
Proof.
  intros W N K. apply stored_is_found in K.
  destruct (Gorm.first_by_tmdb_id (TMDBMovieResponse.ID it) (movies (db w))) as [e|] eqn:F;
    [|contradiction].
  destruct (syncMovie_existing it c w e W N F)
    as (w' & row & l1 & l2 & E & W' & S & M & M' & I & T & Cr & _).
  exists w'. split; [exact E|]. split; [exact W'|].
  split; [exact (steps_no_faults _ _ _ S N)|]. split; [exact (steps_tmdb _ _ _ S)|].
  rewrite M, M', !map_app. simpl. f_equal. f_equal.
  apply first_by_tmdb_id_Some in F as [_ X]. destruct Cr as [X' _].
  unfold identity. rewrite I, T, X, X'. reflexivity.
Qed.

Lemma syncMovies_known (its : list TMDBMovieResponse.t) (c : Z * Z) (w : World) :
  wf_db (db w) -> no_faults w ->
  (forall it, In it its ->
              In (TMDBMovieResponse.ID it) (map Movie.TMDBID (movies (db w)))) ->
  exists w',
    movieService.syncMovies its c w = ((fst c, snd c + Z.of_nat (length its)), w')
    /\ wf_db (db w') /\ no_faults w' /\ tmdb w' = tmdb w
    /\ map identity (movies (db w')) = map identity (movies (db w)).
Proof.
  revert c w. induction its as [|it its IH]; intros c w W N K.
  - exists w. simpl. rewrite Z.add_0_r, <- surjective_pairing.
    split; [reflexivity|]. split; [exact W|]. split; [exact N|]. split; reflexivity.
  - destruct (syncMovie_known it c w W N (K it (or_introl eq_refl)))
      as (w1 & E1 & W1 & N1 & T1 & M1).
    destruct (IH (fst c, snd c + 1) w1 W1 N1) as (w2 & E2 & W2 & N2 & T2 & M2).
    { intros it' Hit. rewrite (identity_external_ids _ _ [] (eq_trans M1 (eq_sym (app_nil_r _)))).
      simpl. rewrite app_nil_r. apply K. right. exact Hit. }
    exists w2. simpl. unfold bind. rewrite E1, E2. simpl fst. simpl snd.
    split; [f_equal; f_equal; lia|]. split; [exact W2|]. split; [exact N2|].
    split; [congruence|]. congruence.
Qed.

Lemma syncMovies_stores (its : list TMDBMovieResponse.t) (c c' : Z * Z) (w w' : World) :
  wf_db (db w) -> no_faults w ->
  movieService.syncMovies its c w = (c', w') ->
  wf_db (db w') /\ no_faults w' /\ tmdb w' = tmdb w
  /\ (forall x, In x (map Movie.TMDBID (movies (db w))) ->
                In x (map Movie.TMDBID (movies (db w'))))
  /\ (forall it, In it its ->
                 In (TMDBMovieResponse.ID it) (map Movie.TMDBID (movies (db w')))).
Proof.
  revert c w. induction its as [|it its IH]; simpl; intros c w W N H.
  - injection H as _ <-. split; [exact W|]. split; [exact N|]. split; [reflexivity|].
    split; [tauto | intros it []].
  - unfold bind in H. destruct (movieService.syncMovie it c w) as [c1 w1] eqn:E1.
    pose proof (syncMovie_stores _ _ _ _ _ W N E1) as K1.
    destruct (syncMovie_frame _ _ _ _ _ E1) as (e1 & S1 & _).
    destruct (syncMovie_identity _ _ _ _ _ W E1) as (W1 & a1 & M1).
    apply identity_external_ids in M1.
    destruct (IH _ _ W1 (steps_no_faults _ _ _ S1 N) H) as (W2 & N2 & T2 & Mono & K2).
    split; [exact W2|]. split; [exact N2|].
    split; [rewrite T2; exact (steps_tmdb _ _ _ S1)|]. split.
    + intros x Hx. apply Mono. rewrite M1. apply in_app_iff. left. exact Hx.
    + intros it' [<-|Hit]; [apply Mono, K1 | apply K2, Hit].
Qed.

Lemma syncPages_stores (pages : list Z) (log : SyncLog.t) (c : Z * Z) (w : World) :
  wf_db (db w) -> no_faults w ->
  (forall p, In p pages -> exists ms, tmdb w p = Ok ms) ->
  exists c' w',
    movieService.syncPages pages log c w = (inr c', w')
    /\ wf_db (db w') /\ no_faults w' /\ tmdb w' = tmdb w
    /\ (forall x, In x (map Movie.TMDBID (movies (db w))) ->
                  In x (map Movie.TMDBID (movies (db w'))))
    /\ (forall p ms it, In p pages -> tmdb w p = Ok ms -> In it ms ->
                        In (TMDBMovieResponse.ID it) (map Movie.TMDBID (movies (db w')))).
Proof.
  revert c w. induction pages as [|p pages IH]; intros c w W N H.
  - exists c, w. split; [reflexivity|]. split; [exact W|]. split; [exact N|].
    split; [reflexivity|]. split; [tauto | intros p ms it []].
  - destruct (H p (or_introl eq_refl)) as (ms & Hp).
    simpl. unfold bind. rewrite GetPopular_eq, Hp.
    destruct (movieService.syncMovies ms c _) as [c1 w1] eqn:E1.
    apply syncMovies_stores in E1 as (W1 & N1 & T1 & Mono1 & K1); [|exact W|exact N].
    change (tmdb (emit (EvFetch p) (tick w))) with (tmdb w) in T1.
    change (movies (db (emit (EvFetch p) (tick w)))) with (movies (db w)) in Mono1.
    destruct (IH c1 w1 W1 N1) as (c2 & w2 & E2 & W2 & N2 & T2 & Mono2 & K2).
    { intros q Hq. rewrite T1. apply H. right. exact Hq. }
    exists c2, w2. split; [exact E2|]. split; [exact W2|]. split; [exact N2|].
    split; [congruence|]. split; [intros x Hx; apply Mono2, Mono1, Hx|].
    intros q ms' it [<-|Hq] Hms Hit.
    + rewrite Hp in Hms. injection Hms as <-. apply Mono2, K1, Hit.
    + rewrite <- T1 in Hms. exact (K2 q ms' it Hq Hms Hit).
Qed.

Lemma syncPages_known (pages : list Z) (log : SyncLog.t) (c : Z * Z) (w : World) :
  wf_db (db w) -> no_faults w ->
  (forall p, In p pages -> exists ms, tmdb w p = Ok ms) ->
  (forall p ms it, In p pages -> tmdb w p = Ok ms -> In it ms ->
                   In (TMDBMovieResponse.ID it) (map Movie.TMDBID (movies (db w)))) ->
  exists w',
    movieService.syncPages pages log c w
    = (inr (fst c,
            snd c + Z.of_nat (length (flat_map (fun p => match tmdb w p with
                                                         | Ok ms => ms
                                                         | Err _ => []
                                                         end) pages))), w')
    /\ wf_db (db w') /\ no_faults w' /\ tmdb w' = tmdb w
    /\ map identity (movies (db w')) = map identity (movies (db w)).
Proof.
  revert c w. induction pages as [|p pages IH]; intros c w W N H K.
  - exists w. simpl. rewrite Z.add_0_r, <- surjective_pairing.
    split; [reflexivity|]. split; [exact W|]. split; [exact N|]. split; reflexivity.
  - destruct (H p (or_introl eq_refl)) as (ms & Hp).
    simpl. unfold bind. rewrite GetPopular_eq, Hp.
    destruct (syncMovies_known ms c (emit (EvFetch p) (tick w)) W N)
      as (w1 & E1 & W1 & N1 & T1 & M1).
    { intros it Hit. exact (K p ms it (or_introl eq_refl) Hp Hit). }
    rewrite E1.
    change (tmdb (emit (EvFetch p) (tick w))) with (tmdb w) in T1.
    change (movies (db (emit (EvFetch p) (tick w)))) with (movies (db w)) in M1.
    destruct (IH (fst c, snd c + Z.of_nat (length ms)) w1 W1 N1)
      as (w2 & E2 & W2 & N2 & T2 & M2).
    { intros q Hq. rewrite T1. apply H. right. exact Hq. }
    { intros q ms' it Hq Hms Hit. rewrite T1 in Hms.
      rewrite (identity_external_ids _ _ [] (eq_trans M1 (eq_sym (app_nil_r _)))).
      simpl. rewrite app_nil_r. exact (K q ms' it (or_intror Hq) Hms Hit). }
    exists w2. rewrite E2, T1. simpl fst. simpl snd.
    split; [f_equal; f_equal; f_equal; rewrite length_app; lia|].
    split; [exact W2|]. split; [exact N2|]. split; congruence.
Qed.

(** X12. A second run over the same pages only updates.  From a
    well-formed store, when no call fails and TMDB serves the same pages
    again, the run that follows a successful run adds nothing and counts
    one update for every item served; it leaves the keys, external ids and
    creation times of the stored rows as the first run left them. *)
Theorem second_sync_only_updates (s : movieService.t) (pages : Z) (w : World) :
  wf_db (db w) -> no_faults w ->
  (forall j, 1 <= j <= Z.min 10 (Z.max 1 pages) -> exists ms, tmdb w j = Ok ms) ->
  exists log1 w1 log2 w2,
    movieService.SyncMoviesFromTMDB s pages w = ((log1, None), w1)
    /\ movieService.SyncMoviesFromTMDB s pages w1 = ((log2, None), w2)
    /\ SyncLog.Status log2 = "success"%string
    /\ SyncLog.MoviesAdded log2 = 0
    /\ SyncLog.MoviesUpdated log2
       = Z.of_nat (length (served_items w (Z.min 10 (Z.max 1 pages))))
    /\ map identity (movies (db w2)) = map identity (movies (db w1)).
Proof.
  intros W N H. unfold movieService.SyncMoviesFromTMDB, bind, Now. rewrite clamp_pages.
  set (n := Z.min 10 (Z.max 1 pages)) in *.
  assert (Hall : forall p, In p (seqZ 1 n) -> exists ms, tmdb w p = Ok ms).
  { intros p Hp. apply list_elem_of_In, elem_of_seqZ in Hp. apply H. lia. }
  destruct (syncPages_stores (seqZ 1 n) (SyncLog.mk 0 "manual" "failed" 0 0 "" (clock w) 0)
              (0, 0) (tick w) W N Hall) as ([a u] & w0 & E0 & W0 & N0 & T0 & _ & K0).
  rewrite E0.
  destruct (CreateSyncLog_ok (movieService.set_success a u
                                (SyncLog.mk 0 "manual" "failed" 0 0 "" (clock w) 0)) w0
              (N0 _ _)) as (log1 & w1 & E1 & S1 & (M1 & _ & X1) & _).
  rewrite E1. exists log1, w1.
  assert (W1 : wf_db (db w1)) by exact (wf_db_ext _ _ M1 X1 W0).
  assert (N1 : no_faults w1) by exact (steps_no_faults _ _ _ S1 N0).
  assert (T1 : tmdb w1 = tmdb w).
  { rewrite (steps_tmdb _ _ _ S1). exact T0. }
  destruct (syncPages_known (seqZ 1 n)
              (SyncLog.mk 0 "manual" "failed" 0 0 "" (clock w1) 0) (0, 0) (tick w1) W1 N1)
    as (w2 & E2 & W2 & N2 & T2 & M2).
  { intros p Hp. change (tmdb (tick w1)) with (tmdb w1). rewrite T1. apply Hall, Hp. }
  { intros p ms it Hp Hms Hit. change (tmdb (tick w1)) with (tmdb w1) in Hms.
    rewrite T1 in Hms. change (movies (db (tick w1))) with (movies (db w1)). rewrite M1.
    exact (K0 p ms it Hp Hms Hit). }
  rewrite E2. simpl fst. simpl snd.
  destruct (CreateSyncLog_ok
              (movieService.set_success 0
                 (0 + Z.of_nat (length (flat_map (fun p => match tmdb (tick w1) p with
                                                           | Ok ms => ms
                                                           | Err _ => []
                                                           end) (seqZ 1 n))))
                 (SyncLog.mk 0 "manual" "failed" 0 0 "" (clock w1) 0)) w2 (N2 _ _))
    as (log2 & w3 & E3 & S3 & (M3 & _) & _ & St & Ad & Up & _).
  rewrite E3. exists log2, w3. split; [reflexivity|]. split; [reflexivity|].
  split; [exact St|]. split; [exact Ad|]. split.
  - rewrite Up. simpl. unfold served_items. change (tmdb (tick w1)) with (tmdb w1).
    rewrite T1. reflexivity.
  - rewrite M3. exact M2.
Qed.

Lemma second_sync_only_updates_witness :
  exists log1 w1 log2 w2,
    movieService.SyncMoviesFromTMDB Examples.svc 1 Examples.fresh = ((log1, None), w1)
    /\ movieService.SyncMoviesFromTMDB Examples.svc 1 w1 = ((log2, None), w2)
    /\ SyncLog.Status log2 = "success"%string
    /\ SyncLog.MoviesAdded log2 = 0
    /\ SyncLog.MoviesUpdated log2
       = Z.of_nat (length (served_items Examples.fresh (Z.min 10 (Z.max 1 1))))
    /\ map identity (movies (db w2)) = map identity (movies (db w1)).
Proof.
  apply (second_sync_only_updates Examples.svc 1 Examples.fresh wf_empty_db).
  - intros op t. reflexivity.
  - intros j Hj. assert (j = 1) as -> by lia. eexists. reflexivity.
Defined.

(** ** Pagination *)

Lemma wrap64_id (z : Z) : minInt64 <= z <= maxInt64 -> wrap64 z = z.
Proof.
  unfold wrap64, minInt64, maxInt64. intros H.
  rewrite Z.mod_small by lia. lia.
Qed.

(** X13. For a positive limit and a total that is not negative (and far
    from the end of the 64-bit integers), the pagination metadata holds the
    values handed over and the number of pages that the total needs: one
    page for an empty result, otherwise the least number of pages of
    [limit] entries that hold [total] entries; there is a next page exactly
    when the page is below that number, and a previous one exactly when it
    is above 1. *)
Theorem pagination_meta_counts_pages (page limit total : Z) :
  1 <= limit -> 0 <= total -> total + limit <= maxInt64 ->
  exists meta,
    utils.CreatePaginationMeta page limit total = Done meta
    /\ PaginationMeta.Page meta = page
    /\ PaginationMeta.Limit meta = limit
    /\ PaginationMeta.Total meta = total
    /\ 1 <= PaginationMeta.TotalPages meta
    /\ (total = 0 -> PaginationMeta.TotalPages meta = 1)
    /\ (0 < total ->
        (PaginationMeta.TotalPages meta - 1) * limit < total
        <= PaginationMeta.TotalPages meta * limit)
    /\ PaginationMeta.HasNext meta = (page <? PaginationMeta.TotalPages meta)
    /\ PaginationMeta.HasPrevious meta = (1 <? page).
Proof.
  intros Hl Ht Hb. unfold utils.CreatePaginationMeta.
  assert (L0 : (limit =? 0) = false) by (apply Z.eqb_neq; lia). rewrite L0.
  unfold maxInt64 in Hb.
  rewrite (wrap64_id (total + limit)) by (unfold minInt64, maxInt64; lia).
  rewrite (wrap64_id (total + limit - 1)) by (unfold minInt64, maxInt64; lia).
  rewrite Z.quot_div_nonneg by lia.
  set (q := (total + limit - 1) / limit).
  assert (Q : limit * q <= total + limit - 1 < limit * (q + 1)).
  { unfold q. pose proof (Z.mul_div_le (total + limit - 1) limit).
    pose proof (Z.mul_succ_div_gt (total + limit - 1) limit). lia. }
  assert (Q0 : 0 <= q) by (unfold q; apply Z.div_pos; lia).
  assert (Q1 : q <= total) by nia.
  rewrite (wrap64_id q) by (unfold minInt64, maxInt64; lia).
  eexists. split; [reflexivity|]. cbn [PaginationMeta.Page PaginationMeta.Limit
    PaginationMeta.Total PaginationMeta.TotalPages PaginationMeta.HasNext
    PaginationMeta.HasPrevious].
  split; [reflexivity|]. split; [reflexivity|]. split; [reflexivity|].
  destruct (Z.eqb_spec q 0) as [E|E].
  - split; [lia|]. split; [reflexivity|]. split; [|split; reflexivity].
    intros P. nia.
  - split; [lia|]. split; [intros T0; exfalso; nia|]. split; [|split; reflexivity].
    intros P. nia.
Qed.

Lemma pagination_meta_counts_pages_witness :
  exists meta,
    utils.CreatePaginationMeta 3 20 41 = Done meta
    /\ PaginationMeta.Page meta = 3
    /\ PaginationMeta.Limit meta = 20
    /\ PaginationMeta.Total meta = 41
    /\ 1 <= PaginationMeta.TotalPages meta
    /\ (41 = 0 -> PaginationMeta.TotalPages meta = 1)
    /\ (0 < 41 ->
        (PaginationMeta.TotalPages meta - 1) * 20 < 41
        <= PaginationMeta.TotalPages meta * 20)
    /\ PaginationMeta.HasNext meta = (3 <? PaginationMeta.TotalPages meta)
    /\ PaginationMeta.HasPrevious meta = (1 <? 3).
Proof.
  apply (pagination_meta_counts_pages 3 20 41); unfold maxInt64; lia.
Defined.

(** ** The list query *)

Lemma validSortFields_Some (sortBy : string) (b : bool) :
  movieRepository.validSortFields !! sortBy = Some b ->
  b = true
  /\ In sortBy ["id"; "title"; "release_date"; "vote_average"; "popularity";
                "created_at"; "updated_at"]%string.
Proof.
  intros H. apply elem_of_list_to_map_2 in H. apply list_elem_of_In in H.
  simpl in H. repeat (destruct H as [[= <- <-]|H]; [split; [reflexivity|simpl; tauto]|]).
  destruct H.
Qed.

(** X14. The list query that reaches the store never carries client text
    in its ORDER BY: the column is one of the seven sortable columns (the
    requested one when it is one of them, [updated_at] otherwise) and the
    direction is ASC, asc or DESC (the requested one when it is ASC or asc).
    The query is counted first and then selected with offset
    (page - 1) * limit; when either call fails, the operation returns the
    error with no movies and a total of 0, and a failed count is not
    followed by a select. *)
Theorem list_query_is_whitelisted
        (page limit : Z) (search sortBy order startDate endDate : string) (w : World) :
  exists q col dir,
    In col ["id"; "title"; "release_date"; "vote_average"; "popularity";
            "created_at"; "updated_at"]%string
    /\ In dir ["ASC"; "asc"; "DESC"]%string
    /\ (In sortBy ["id"; "title"; "release_date"; "vote_average"; "popularity";
                   "created_at"; "updated_at"]%string -> col = sortBy)
    /\ (order = "ASC"%string \/ order = "asc"%string -> dir = order)
    /\ q_order q = (col +:+ " " +:+ dir)%string
    /\ q_search q = (if String.eqb search "" then "" else "%" +:+ search +:+ "%")%string
    /\ q_startDate q = startDate /\ q_endDate q = endDate
    /\ q_limit q = limit
    /\ (1 <= page <= 2 ^ 56 -> 1 <= limit <= 100 -> q_offset q = (page - 1) * limit)
    /\ movieRepository.FindAll page limit search sortBy order startDate endDate w
       = match fault w OpMovieCount (clock w) with
         | Some e => (([], 0, Some e), tick w)
         | None =>
             match fault w OpMovieFind (clock w + 1) with
             | Some e => (([], 0, Some e), tick (tick w))
             | None =>
                 ((select_movies w q (db w), count_movies w q (db w), None), tick (tick w))
             end
         end.
Proof.
  unfold movieRepository.FindAll. cbv zeta.
  set (col := if negb (default false (movieRepository.validSortFields !! sortBy))
              then "updated_at"%string else sortBy).
  set (dir := if negb (String.eqb order "ASC") && negb (String.eqb order "asc")
              then "DESC"%string else order).
  exists (mkListQuery
            (if negb (String.eqb search "") then ("%" +:+ search +:+ "%")%string
             else ""%string)
            startDate endDate (col +:+ " " +:+ dir)%string
            (wrap64 (wrap64 (page - 1) * limit)) limit), col, dir.
  split; [|split; [|split; [|split; [|split; [reflexivity|split; [|split; [reflexivity|split;
    [reflexivity|split; [reflexivity|split]]]]]]]]].
  - unfold col. destruct (movieRepository.validSortFields !! sortBy) as [b|] eqn:L.
    + apply validSortFields_Some in L as [-> Hin]. exact Hin.
    + simpl. tauto.
  - unfold dir. destruct (String.eqb_spec order "ASC") as [->|_]; [simpl; tauto|].
    destruct (String.eqb_spec order "asc") as [->|_]; simpl; tauto.
  - intros H. unfold col. simpl in H.
    repeat (destruct H as [<-|H]; [reflexivity|]). destruct H.
  - intros [->| ->]; reflexivity.
  - cbn [q_search]. destruct (String.eqb search ""); reflexivity.
  - intros Hp Hl. cbn [q_offset].
    assert (P56 : 2 ^ 56 = 72057594037927936) by reflexivity.
    rewrite (wrap64_id (page - 1)) by (unfold minInt64, maxInt64; lia).
    apply wrap64_id. unfold minInt64, maxInt64. nia.
  - unfold bind, Gorm.CountMovies, Gorm.FindMovies, call.
    destruct (fault w OpMovieCount (clock w)); [reflexivity|].
    change (fault (tick w) OpMovieFind (clock (tick w)))
      with (fault w OpMovieFind (clock w + 1)).
    destruct (fault w OpMovieFind (clock w + 1)); reflexivity.
Qed.

(** ** Numbers in requests *)

(** X15. The text [GetMoviesByMonth] builds for a year, one character per
    decimal digit, is the four-digit decimal numeral of the year for every
    year from 0 to 9999 (the service lets 1900 to 2100 through): parsing it
    gives the year back. *)
Theorem year_text_is_the_numeral (year : Z) :
  0 <= year <= 9999 ->
  Strconv.Atoi (movieRepository.yearStr year) = (year, None)
  /\ String.length (movieRepository.yearStr year) = 4%nat.
Proof.
  intros H.
  assert (A : forallb (fun y => match Strconv.Atoi (movieRepository.yearStr y) with
                                | (v, None) =>
                                    (v =? y)
                                    && Nat.eqb (String.length (movieRepository.yearStr y)) 4
                                | (_, Some _) => false
                                end) (seqZ 0 10000) = true)
    by (vm_compute; reflexivity).
  rewrite forallb_forall in A. specialize (A year).
  destruct (Strconv.Atoi (movieRepository.yearStr year)) as [v [e|]].
  - exfalso. assert (F : false = true); [|discriminate F].
    apply A, list_elem_of_In, elem_of_seqZ. lia.
  - assert (B : (v =? year) && Nat.eqb (String.length (movieRepository.yearStr year)) 4 = true)
      by (apply A, list_elem_of_In, elem_of_seqZ; lia).
    apply andb_true_iff in B as [B1 B2]. apply Z.eqb_eq in B1. apply Nat.eqb_eq in B2.
    subst v. split; [reflexivity | exact B2].
Qed.

Lemma year_text_is_the_numeral_witness :
  Strconv.Atoi (movieRepository.yearStr 2024) = (2024, None)
  /\ String.length (movieRepository.yearStr 2024) = 4%nat.
Proof. apply (year_text_is_the_numeral 2024). lia. Defined.

Lemma digit_bound (c : ascii) (d : Z) : Strconv.digit c = Some d -> 0 <= d <= 9.
Proof.
  unfold Strconv.digit. destruct (_ && _) eqn:B; [|discriminate].
  intros [= <-]. apply andb_true_iff in B as [B1 B2].
  apply Z.leb_le in B1, B2. lia.
Qed.

(** A text [ParseUint] accepts has a value up to [maxVal]. *)
Lemma parseDigits_bound (maxVal : Z) (s : string) (n v : Z) :
  Strconv.parseDigits maxVal s n = (v, None) -> 0 <= n <= maxVal -> 0 <= v <= maxVal.
Proof.
  revert n. induction s as [|c s IH]; simpl; intros n H P.
  - injection H as <-. exact P.
  - destruct (Strconv.digit c) as [d|] eqn:D; [|discriminate].
    destruct (Strconv.cutoff <=? n); [discriminate|].
    destruct (((n * 10 + d) mod 2 ^ 64 <? n * 10) || _) eqn:B; [discriminate|].
    apply orb_false_iff in B as [_ B]. apply Z.ltb_ge in B.
    apply IH in H; [exact H|]. split; [|exact B].
    apply Z.mod_pos_bound. lia.
Qed.

(** A byte that is no digit makes [ParseUint] fail, wherever it stands. *)
Lemma parseDigits_reject (maxVal : Z) (s1 s2 : string) (c : ascii) (n : Z) :
  Strconv.digit c = None ->
  snd (Strconv.parseDigits maxVal (s1 +:+ String c s2) n) <> None.
Proof.
  intros D. revert n. induction s1 as [|x s1 IH]; intros n.
  - change (snd (Strconv.parseDigits maxVal (String c s2) n) <> None). simpl.
    rewrite D. discriminate.
  - change (snd (Strconv.parseDigits maxVal (String x (s1 +:+ String c s2)) n) <> None).
    simpl. destruct (Strconv.digit x); [|discriminate].
    destruct (Strconv.cutoff <=? n); [discriminate|].
    destruct (_ || _); [discriminate | apply IH].
Qed.

(** X16. A movie id in a route is taken only as a non-empty run of decimal
    digits whose value fits 32 bits: a text that is empty or holds any
    other character (a sign, a letter, a dot) is refused, and an accepted id
    lies between 0 and 4294967295.  On a refused id GET, PUT and DELETE
    /movies/{id} answer 400 and leave the world as it is. *)
Theorem bad_movie_id_is_refused :
  (forall s n, Strconv.ParseUint32 s = (n, None) -> s <> ""%string /\ 0 <= n <= 4294967295)
  /\ (forall s1 s2 c, Strconv.digit c = None ->
                      snd (Strconv.ParseUint32 (s1 +:+ String c s2)) <> None)
  /\ (forall (h : MovieHandler.t) (c : fiber.Ctx) (w : World),
         snd (Strconv.ParseUint32 (fiber.Params c "id")) <> None ->
         MovieHandler.GetMovieByID h c w
         = (Done (utils.ErrorResponse 400 "Invalid movie ID"), w)
         /\ MovieHandler.UpdateMovie h c w
            = (Done (utils.ErrorResponse 400 "Invalid movie ID"), w)
         /\ MovieHandler.DeleteMovie h c w
            = (Done (utils.ErrorResponse 400 "Invalid movie ID"), w)).
Proof.
  split; [|split].
  - intros s n. unfold Strconv.ParseUint32, Strconv.ParseUint.
    destruct s as [|a s]; [discriminate|]. intros H.
    apply parseDigits_bound in H; [|lia].
    split; [discriminate|]. change (2 ^ 32 - 1) with 4294967295 in H. exact H.
  - intros s1 s2 c D. unfold Strconv.ParseUint32, Strconv.ParseUint.
    destruct (s1 +:+ String c s2)%string eqn:E; [discriminate|].
    rewrite <- E. apply parseDigits_reject, D.
  - intros h c w H. unfold MovieHandler.GetMovieByID, MovieHandler.UpdateMovie,
      MovieHandler.DeleteMovie.
    destruct (Strconv.ParseUint32 (fiber.Params c "id")) as [id [e|]];
      [|exfalso; apply H; reflexivity].
    repeat split.
Qed.

Lemma bad_movie_id_is_refused_witness :
  snd (Strconv.ParseUint32 ("" +:+ String "-" "1")) <> None
  /\ MovieHandler.DeleteMovie Examples.handler (Examples.ctx "-1" ∅) Examples.stocked
     = (Done (utils.ErrorResponse 400 "Invalid movie ID"), Examples.stocked).
Proof.
  split.
  - apply (proj1 (proj2 bad_movie_id_is_refused) "" "1" "-"%char). reflexivity.
  - apply (proj2 (proj2 bad_movie_id_is_refused) Examples.handler (Examples.ctx "-1" ∅)
                 Examples.stocked). discriminate.
Defined.

(** ** Handlers *)

(** X17. GET /charts/monthly/{year} answers 400 when the year is no
    integer and 500 when it lies outside 1900..2100, in both cases without
    asking the store; for a year in that range it answers 200 when the
    store answers the query and the month of every stored release date of
    that year casts to an integer. *)
Theorem monthly_chart_statuses (h : MovieHandler.t) (c : fiber.Ctx) (w : World) :
  (snd (Strconv.Atoi (fiber.Params c "year")) <> None ->
   MovieHandler.GetMonthlyChartData h c w
   = (Done (utils.ErrorResponse 400 "Invalid year format"), w))
  /\ (forall year,
         Strconv.Atoi (fiber.Params c "year") = (year, None) ->
         year < 1900 \/ 2100 < year ->
         MovieHandler.GetMonthlyChartData h c w
         = (Done (utils.ErrorResponse 500 "Failed to retrieve monthly chart data"), w))
  /\ (forall year,
         Strconv.Atoi (fiber.Params c "year") = (year, None) ->
         1900 <= year <= 2100 ->
         fault w (OpMovieMonthCounts (movieRepository.yearStr year)) (clock w) = None ->
         (forall r, In r (movies (db w)) ->
                    Gorm.in_year (movieRepository.yearStr year) r = true ->
                    Gorm.cast_integer (Gorm.month_text r) <> None) ->
         MovieHandler.GetMonthlyChartData h c w
         = (Done (utils.SuccessResponse 200 "Monthly chart data retrieved successfully"),
            tick w)).
Proof.
  split; [|split].
  - intros H. unfold MovieHandler.GetMonthlyChartData.
    destruct (Strconv.Atoi (fiber.Params c "year")) as [year [e|]];
      [reflexivity | exfalso; apply H; reflexivity].
  - intros year A Hy. unfold MovieHandler.GetMonthlyChartData. rewrite A.
    unfold bind, movieService.GetMoviesByMonth.
    assert (G : (year <? 1900) || (2100 <? year) = true).
    { apply orb_true_iff. destruct Hy; [left; apply Z.ltb_lt | right; apply Z.ltb_lt]; lia. }
    rewrite G. reflexivity.
  - intros year A Hy F Hc. unfold MovieHandler.GetMonthlyChartData. rewrite A.
    unfold bind, movieService.GetMoviesByMonth.
    assert (G : (year <? 1900) || (2100 <? year) = false)
      by (apply orb_false_iff; split; apply Z.ltb_ge; lia).
    rewrite G. unfold movieRepository.GetMoviesByMonth, bind.
    destruct (FindMonthCounts_ok _ w F Hc) as (rows & -> & _). reflexivity.
Qed.

Lemma monthly_chart_statuses_witness :
  MovieHandler.GetMonthlyChartData Examples.handler
    (fiber.mkCtx {[ "year"%string := "20x4"%string ]} ∅ None) Examples.stocked
  = (Done (utils.ErrorResponse 400 "Invalid year format"), Examples.stocked)
  /\ MovieHandler.GetMonthlyChartData Examples.handler
       (fiber.mkCtx {[ "year"%string := "1850"%string ]} ∅ None) Examples.stocked
     = (Done (utils.ErrorResponse 500 "Failed to retrieve monthly chart data"),
        Examples.stocked)
  /\ MovieHandler.GetMonthlyChartData Examples.handler
       (fiber.mkCtx {[ "year"%string := "1999"%string ]} ∅ None) Examples.stocked
     = (Done (utils.SuccessResponse 200 "Monthly chart data retrieved successfully"),
        tick Examples.stocked).
Proof.
  split; [|split].
  - apply (proj1 (monthly_chart_statuses Examples.handler
                    (fiber.mkCtx {[ "year"%string := "20x4"%string ]} ∅ None)
                    Examples.stocked)).
    vm_compute. discriminate.
  - apply (proj1 (proj2 (monthly_chart_statuses Examples.handler
                           (fiber.mkCtx {[ "year"%string := "1850"%string ]} ∅ None)
                           Examples.stocked)) 1850).
    + vm_compute. reflexivity.
    + lia.
  - apply (proj2 (proj2 (monthly_chart_statuses Examples.handler
                           (fiber.mkCtx {[ "year"%string := "1999"%string ]} ∅ None)
                           Examples.stocked)) 1999).
    + vm_compute. reflexivity.
    + lia.
    + reflexivity.
    + intros r [<-|[]] _. vm_compute. discriminate.
Defined.

Lemma syncMovies_tmdb (its : list TMDBMovieResponse.t) (c c' : Z * Z) (w w' : World) :
  movieService.syncMovies its c w = (c', w') -> tmdb w' = tmdb w.
Proof. intros H. apply syncMovies_frame in H as (evs & S & _). exact (steps_tmdb _ _ _ S). Qed.

(** A page that TMDB refuses ends the run with an error. *)
Lemma syncPages_stops (pages : list Z) (k : Z) (e : error)
      (log : SyncLog.t) (c : Z * Z) (w : World) :
  In k pages -> tmdb w k = Err e ->
  exists log' e' w', movieService.syncPages pages log c w = (inl (log', e'), w').
Proof.
  revert c w. induction pages as [|p pages IH]; intros c w Hk He; [destruct Hk|].
  simpl. unfold bind. rewrite GetPopular_eq. destruct (tmdb w p) as [ms|e0] eqn:Hp.
  - destruct Hk as [->|Hk]; [congruence|].
    destruct (movieService.syncMovies ms c _) as [c1 w1] eqn:E1.
    apply syncMovies_tmdb in E1. apply IH; [exact Hk|]. rewrite E1. exact He.
  - destruct (movieRepository.CreateSyncLog _ _) as [[l x] w1]. eauto.
Qed.

Lemma Sync_succeeds (s : movieService.t) (pages : Z) (w : World) :
  (forall j, 1 <= j <= Z.min 10 (Z.max 1 pages) -> exists ms, tmdb w j = Ok ms) ->
  exists log w', movieService.SyncMoviesFromTMDB s pages w = ((log, None), w').
Proof.
  intros Hall. unfold movieService.SyncMoviesFromTMDB, bind, Now. rewrite clamp_pages.
  destruct (syncPages_all (seqZ 1 (Z.min 10 (Z.max 1 pages)))
              (SyncLog.mk 0 "manual" "failed" 0 0 "" (clock w) 0) (0, 0) (tick w))
    as ([a u] & w1 & e1 & E & _).
  { intros p Hp. apply list_elem_of_In, elem_of_seqZ in Hp. apply Hall. lia. }
  rewrite E. destruct (movieRepository.CreateSyncLog _ w1) as [[l x] w2]. eauto.
Qed.

Lemma Sync_fails (s : movieService.t) (pages k : Z) (e : error) (w : World) :
  1 <= k <= Z.min 10 (Z.max 1 pages) -> tmdb w k = Err e ->
  exists log e' w', movieService.SyncMoviesFromTMDB s pages w = ((log, Some e'), w').
Proof.
  intros Hk He. unfold movieService.SyncMoviesFromTMDB, bind, Now. rewrite clamp_pages.
  destruct (syncPages_stops (seqZ 1 (Z.min 10 (Z.max 1 pages))) k e
              (SyncLog.mk 0 "manual" "failed" 0 0 "" (clock w) 0) (0, 0) (tick w))
    as (log & e' & w' & E).
  { apply list_elem_of_In, elem_of_seqZ. lia. }
  { exact He. }
  rewrite E. eauto.
Qed.

(** [strconv.Atoi] at the edges of its input: a run of digits that leaves
    the range ends the reading with the nearest bound, whatever follows;
    a byte that is no digit, reached before that, gives 0. *)
Example Atoi_edges :
  Strconv.Atoi "99999999999999999999x" = (maxInt64, Some Strconv.ErrRange)
  /\ Strconv.Atoi "-99999999999999999999x" = (minInt64, Some Strconv.ErrRange)
  /\ Strconv.Atoi "1234567890123456789x" = (0, Some Strconv.ErrSyntax)
  /\ Strconv.Atoi "9223372036854775807" = (maxInt64, None)
  /\ Strconv.Atoi "9223372036854775808" = (maxInt64, Some Strconv.ErrRange)
  /\ Strconv.Atoi "-9223372036854775808" = (minInt64, None)
  /\ Strconv.Atoi "-9223372036854775809" = (minInt64, Some Strconv.ErrRange)
  /\ Strconv.Atoi "+7" = (7, None)
  /\ Strconv.Atoi "-" = (0, Some Strconv.ErrSyntax)
  /\ Strconv.Atoi "" = (0, Some Strconv.ErrSyntax)
  /\ Strconv.Atoi "12x" = (0, Some Strconv.ErrSyntax).
Proof. vm_compute. repeat split. Qed.

Lemma Atoi_syntax (x : ascii) (rest : string) :
  Strconv.digit x = None -> x <> "-"%char -> x <> "+"%char ->
  Strconv.Atoi (String x rest) = (0, Some Strconv.ErrSyntax).
Proof.
  intros D N1 N2. unfold Strconv.Atoi.
  destruct (_ && _);
    destruct x as [[] [] [] [] [] [] [] []];
    try (exfalso; apply N1; reflexivity); try (exfalso; apply N2; reflexivity);
    try discriminate D; reflexivity.
Qed.

(** X18. POST /sync/movies runs over the pages 1..n, where n is the
    [pages] parameter brought into 1..10 (1 when the parameter is absent or
    starts with a character that is neither a digit nor a sign); it answers
    200 when TMDB serves all of them and 500 (class "fail") as soon as one
    of them is refused, whatever else fails. *)
Theorem sync_request_statuses (h : MovieHandler.t) (c : fiber.Ctx) (w : World) :
  let n := Z.min 10 (Z.max 1 (fst (Strconv.Atoi (fiber.Query c "pages" "1")))) in
  1 <= n <= 10
  /\ (fiber.queries c !! "pages"%string = None -> n = 1)
  /\ (forall rest x, Strconv.digit x = None ->
                     fiber.queries c !! "pages"%string = Some (String x rest) ->
                     x <> "-"%char -> x <> "+"%char -> n = 1)
  /\ ((forall j, 1 <= j <= n -> exists ms, tmdb w j = Ok ms) ->
      fst (MovieHandler.SyncMoviesFromTMDB h c w)
      = Done (utils.SuccessResponse 200 "Movies synced successfully"))
  /\ (forall k e, 1 <= k <= n -> tmdb w k = Err e ->
                  fst (MovieHandler.SyncMoviesFromTMDB h c w)
                  = Done (utils.ErrorWithDataResponse 500 "Failed to sync movies")).
Proof.
  intros n. split; [unfold n; lia|]. split; [|split; [|split]].
  - intros H. unfold n, fiber.Query. rewrite H. reflexivity.
  - intros rest x D H N1 N2.
    assert (Q : fiber.Query c "pages" "1" = String x rest)
      by (unfold fiber.Query; rewrite H; reflexivity).
    unfold n. rewrite Q, (Atoi_syntax x rest D N1 N2). reflexivity.
  - intros Hall. unfold MovieHandler.SyncMoviesFromTMDB.
    destruct (Strconv.Atoi (fiber.Query c "pages" "1")) as [pages x]. unfold bind.
    destruct (Sync_succeeds (MovieHandler.service h) pages w Hall) as (log & w' & ->).
    reflexivity.
  - intros k e Hk He. unfold MovieHandler.SyncMoviesFromTMDB.
    destruct (Strconv.Atoi (fiber.Query c "pages" "1")) as [pages x]. unfold bind.
    destruct (Sync_fails (MovieHandler.service h) pages k e w Hk He) as (log & e' & w' & ->).
    reflexivity.
Qed.

Lemma sync_request_statuses_witness :
  fst (MovieHandler.SyncMoviesFromTMDB Examples.handler (Examples.ctx "1" ∅) Examples.fresh)
  = Done (utils.SuccessResponse 200 "Movies synced successfully")
  /\ fst (MovieHandler.SyncMoviesFromTMDB Examples.handler
            (Examples.ctx "1" {[ "pages"%string := "3"%string ]}) Examples.fresh)
     = Done (utils.ErrorWithDataResponse 500 "Failed to sync movies")
  /\ fst (MovieHandler.SyncMoviesFromTMDB Examples.handler Examples.overflowing_pages
            Examples.fresh)
     = Done (utils.ErrorWithDataResponse 500 "Failed to sync movies").
Proof.
  split; [|split].
  - apply (proj1 (proj2 (proj2 (proj2 (sync_request_statuses Examples.handler
                                         (Examples.ctx "1" ∅) Examples.fresh))))).
    intros j Hj. change (1 <= j <= 1) in Hj. assert (j = 1) as -> by lia.
    eexists. reflexivity.
  - apply (proj2 (proj2 (proj2 (proj2 (sync_request_statuses Examples.handler
                                         (Examples.ctx "1" {[ "pages"%string := "3"%string ]})
                                         Examples.fresh)))) 2
                 "TMDB API returned status 503: busy"%string).
    + change (1 <= 2 <= 3). lia.
    + reflexivity.
  - apply (proj2 (proj2 (proj2 (proj2 (sync_request_statuses Examples.handler
                                         Examples.overflowing_pages Examples.fresh)))) 2
                 "TMDB API returned status 503: busy"%string).
    + change (1 <= 2 <= 10). lia.
    + reflexivity.
Defined.

Ltac handler_cases :=
  repeat match goal with
         | |- context [match ?x with _ => _ end] => destruct x
         end.

Ltac envelope :=
  unfold ret; cbn [fst]; first [eexists; split; [reflexivity|] | intros ? [= <-]];
  unfold envelope_ok; simpl; repeat split; auto 10.

(** X19. Every response of the handlers is well formed: its envelope
    repeats the HTTP status, the status is one of 200, 201, 400, 404 and
    500, and the envelope names its class ("success" below 400, "error"
    below 500, "fail" from 500 on).  GET /movies apart, whose metadata
    divides by the limit and for which this holds of the response it gives,
    every handler always answers. *)
Theorem responses_are_well_formed
        (h : MovieHandler.t) (u : UploadHandler.t) (c : fiber.Ctx) (w : World)
        (uuid : string) (presign : string -> Result string) :
  (forall r, fst (MovieHandler.GetAllMovies h c w) = Done r -> envelope_ok r)
  /\ (exists r, fst (MovieHandler.GetMovieByID h c w) = Done r /\ envelope_ok r)
  /\ (exists r, fst (MovieHandler.CreateMovie h c w) = Done r /\ envelope_ok r)
  /\ (exists r, fst (MovieHandler.UpdateMovie h c w) = Done r /\ envelope_ok r)
  /\ (exists r, fst (MovieHandler.DeleteMovie h c w) = Done r /\ envelope_ok r)
  /\ (exists r, fst (MovieHandler.SyncMoviesFromTMDB h c w) = Done r /\ envelope_ok r)
  /\ (exists r, fst (MovieHandler.GetMonthlyChartData h c w) = Done r /\ envelope_ok r)
  /\ (exists r, UploadHandler.GetPresignedURL u c uuid presign = Done r /\ envelope_ok r).
Proof.
  split; [|split; [|split; [|split; [|split; [|split; [|split]]]]]].
  - unfold MovieHandler.GetAllMovies, bind. handler_cases; try (unfold ret; cbn [fst]; discriminate);
      envelope.
  - unfold MovieHandler.GetMovieByID, bind. handler_cases; envelope.
  - unfold MovieHandler.CreateMovie, bind. handler_cases; envelope.
  - unfold MovieHandler.UpdateMovie, bind. handler_cases; envelope.
  - unfold MovieHandler.DeleteMovie, bind. handler_cases; envelope.
  - unfold MovieHandler.SyncMoviesFromTMDB, bind. handler_cases; envelope.
  - unfold MovieHandler.GetMonthlyChartData, bind. handler_cases; envelope.
  - unfold UploadHandler.GetPresignedURL. handler_cases; envelope.
Qed.

(** ** The counts of the monthly chart *)

Lemma digit_range (a : ascii) (d : Z) : Strconv.digit a = Some d -> 0 <= d <= 9.
Proof.
  unfold Strconv.digit. destruct (_ && _) eqn:B; [|discriminate]. intros [= <-].
  apply andb_true_iff in B as [B1 B2]. apply Z.leb_le in B1, B2. lia.
Qed.

Lemma digit_inj (a b : ascii) (d : Z) :
  Strconv.digit a = Some d -> Strconv.digit b = Some d -> a = b.
Proof.
  unfold Strconv.digit.
  destruct (_ && _); [|discriminate]. destruct (_ && _); [|discriminate].
  intros [= Ha] [= Hb].
  rewrite <- (ascii_nat_embedding a), <- (ascii_nat_embedding b). f_equal. lia.
Qed.

Lemma two_digits_cast (s : string) :
  two_digits s = true ->
  exists a b da db,
    s = String a (String b EmptyString)
    /\ Strconv.digit a = Some da /\ Strconv.digit b = Some db
    /\ Gorm.cast_integer s = Some (10 * da + db).
Proof.
  destruct s as [|a [|b [|]]]; try discriminate. simpl.
  destruct (Strconv.digit a) as [da|] eqn:Da; [|discriminate].
  destruct (Strconv.digit b) as [db|] eqn:Db; [|discriminate].
  intros _. exists a, b, da, db. split; [reflexivity|]. split; [exact Da|].
  split; [exact Db|].
  destruct a as [[] [] [] [] [] [] [] []]; try discriminate Da;
    injection Da as <-; unfold Gorm.cast_integer; simpl; rewrite Db; reflexivity.
Qed.

Lemma two_digits_inj (s t : string) :
  two_digits s = true -> two_digits t = true ->
  Gorm.cast_integer s = Gorm.cast_integer t -> s = t.
Proof.
  intros Hs Ht E.
  apply two_digits_cast in Hs as (a & b & da & db & -> & Da & Db & Cs).
  apply two_digits_cast in Ht as (a' & b' & da' & db' & -> & Da' & Db' & Ct).
  rewrite Cs, Ct in E. injection E as E.
  pose proof (digit_range _ _ Da). pose proof (digit_range _ _ Db).
  pose proof (digit_range _ _ Da'). pose proof (digit_range _ _ Db').
  assert (da = da') by lia. assert (db = db') by lia. subst.
  rewrite (digit_inj _ _ _ Da Da'), (digit_inj _ _ _ Db Db'). reflexivity.
Qed.

Lemma cast_groups_map (keys groups : list string) :
  (forall k, In k groups -> two_digits k = true) ->
  Gorm.cast_groups keys groups
  = Some (map (fun k => (default 0 (Gorm.cast_integer k),
                         Z.of_nat (length (List.filter (String.eqb k) keys)))) groups).
Proof.
  induction groups as [|k ks IH]; intros H; [reflexivity|]. simpl.
  destruct (two_digits_cast k (H k (or_introl eq_refl))) as (a & b & da & db & _ & _ & _ & C).
  rewrite C, IH; [reflexivity|]. intros k' Hk'. apply H. right. exact Hk'.
Qed.

Lemma monthMap_miss (l : list (Z * Z)) (m0 : gmap Z Z) (k : Z) :
  ~ In k (map fst l) ->
  fold_left (fun (m : gmap Z Z) mc => <[fst mc := snd mc]> m) l m0 !! k = m0 !! k.
Proof.
  revert m0. induction l as [|a l IH]; simpl; intros m0 H; [reflexivity|].
  rewrite IH by tauto. apply lookup_insert_ne. intros E. apply H. left. exact E.
Qed.

Lemma monthMap_hit (l : list (Z * Z)) (m0 : gmap Z Z) (k v : Z) :
  NoDup (map fst l) -> In (k, v) l ->
  fold_left (fun (m : gmap Z Z) mc => <[fst mc := snd mc]> m) l m0 !! k = Some v.
Proof.
  revert m0. induction l as [|a l IH]; simpl; intros m0 N H; [destruct H|].
  apply NoDup_cons in N as [Ha N]. destruct H as [->|H].
  - rewrite monthMap_miss; [apply lookup_insert_eq|].
    intros E. apply Ha, list_elem_of_In. exact E.
  - apply IH; assumption.
Qed.

Lemma count_keys (ys k : string) (m : Z) (rows : list Movie.t) :
  (forall r, In r rows -> Gorm.in_year ys r = true ->
             two_digits (Gorm.month_text r) = true) ->
  two_digits k = true -> Gorm.cast_integer k = Some m ->
  length (List.filter (String.eqb k)
            (map Gorm.month_text (List.filter (Gorm.in_year ys) rows)))
  = length (List.filter (in_month ys m) rows).
Proof.
  intros H Hk Ck. induction rows as [|a rows IH]; [reflexivity|]. simpl.
  assert (IH' := IH (fun r Hr => H r (or_intror Hr))). clear IH.
  unfold in_month at 1. destruct (Gorm.in_year ys a) eqn:Y; [|exact IH']. simpl.
  pose proof (H a (or_introl eq_refl) Y) as Ta.
  destruct (String.eqb_spec k (Gorm.month_text a)) as [E|E].
  - rewrite <- E, Ck, Z.eqb_refl. simpl. f_equal. exact IH'.
  - destruct (two_digits_cast _ Ta) as (x & y & dx & dy & _ & _ & _ & Ca). rewrite Ca.
    destruct (Z.eqb_spec (10 * dx + dy) m) as [M|M]; [|exact IH'].
    exfalso. apply E. apply two_digits_inj; [exact Hk | exact Ta |]. rewrite Ck, Ca, M.
    reflexivity.
Qed.

(** What the month query returns when every date of the year has a
    two-digit month: one row per month that occurs, with the number of
    movies of that month. *)
Lemma FindMonthCounts_counts (ys : string) (w : World) :
  fault w (OpMovieMonthCounts ys) (clock w) = None ->
  (forall r, In r (movies (db w)) -> Gorm.in_year ys r = true ->
             two_digits (Gorm.month_text r) = true) ->
  exists rows,
    Gorm.FindMonthCounts ys w = (Ok rows, tick w)
    /\ NoDup (map fst rows)
    /\ (forall m n, In (m, n) rows ->
                    n = Z.of_nat (length (List.filter (in_month ys m) (movies (db w)))))
    /\ (forall m, ~ In m (map fst rows) ->
                  List.filter (in_month ys m) (movies (db w)) = []).
Proof.
  intros F H. unfold Gorm.FindMonthCounts. rewrite (call_ok _ _ _ F). cbv zeta.
  change (movies (db (tick w))) with (movies (db w)).
  set (keys := map Gorm.month_text (List.filter (Gorm.in_year ys) (movies (db w)))).
  assert (K : forall k, In k keys -> two_digits k = true).
  { intros k Hk. apply in_map_iff in Hk as (r & <- & Hr).
    apply filter_In in Hr as [Hr Hy]. exact (H r Hr Hy). }
  assert (K' : forall k, In k (List.nodup string_dec keys) -> two_digits k = true).
  { intros k Hk. apply K. apply nodup_In in Hk. exact Hk. }
  rewrite (cast_groups_map keys _ K').
  set (row := fun k => (default 0 (Gorm.cast_integer k),
                        Z.of_nat (length (List.filter (String.eqb k) keys)))).
  pose proof (merge_sort_Permutation Gorm.month_le (map row (List.nodup string_dec keys)))
    as P.
  eexists. split; [reflexivity|]. split; [|split].
  - rewrite P. rewrite map_map.
    assert (G : forall l, List.NoDup l -> (forall k, In k l -> two_digits k = true) ->
                          NoDup (map (fun k => fst (row k)) l)).
    { induction l as [|k l IH]; intros N T; [constructor|]. simpl.
      inversion N as [|? ? Hk N']; subst. apply NoDup_cons. split.
      - intros Hin. apply list_elem_of_In, in_map_iff in Hin as (k' & E & Hk').
        apply Hk. assert (k' = k) as <-; [|exact Hk'].
        destruct (two_digits_cast k' (T k' (or_intror Hk')))
          as (? & ? & ? & ? & _ & _ & _ & C1).
        destruct (two_digits_cast k (T k (or_introl eq_refl)))
          as (? & ? & ? & ? & _ & _ & _ & C2).
        apply two_digits_inj; [apply T; right; exact Hk' | apply T; left; reflexivity|].
        simpl in E. rewrite C1, C2 in E |- *. simpl in E. rewrite E. reflexivity.
      - apply IH; [exact N'|]. intros k' Hk'. apply T. right. exact Hk'. }
    apply G; [apply List.NoDup_nodup | exact K'].
  - intros m n Hin. apply (Permutation_in _ P) in Hin.
    apply in_map_iff in Hin as (k & E & Hk). unfold row in E. injection E as E1 E2.
    destruct (two_digits_cast k (K' k Hk)) as (? & ? & ? & ? & _ & _ & _ & C).
    rewrite C in E1. simpl in E1. subst m. rewrite <- E2. f_equal.
    apply count_keys; [exact H | exact (K' k Hk) | exact C].
  - intros m Hm. apply filter_none. intros r Hr.
    destruct (in_month ys m r) eqn:I; [|reflexivity]. exfalso. apply Hm.
    unfold in_month in I. apply andb_true_iff in I as [Y C].
    destruct (Gorm.cast_integer (Gorm.month_text r)) as [m'|] eqn:Cr; [|discriminate].
    apply Z.eqb_eq in C. subst m'.
    apply (Permutation_in _ (Permutation_map fst (Permutation_sym P))).
    rewrite map_map. apply in_map_iff. exists (Gorm.month_text r). unfold row. simpl.
    rewrite Cr. split; [reflexivity|]. apply nodup_In. unfold keys.
    apply in_map, filter_In. split; assumption.
Qed.

(** X20. The monthly chart counts rightly when the dates are well formed:
    for a year from 1900 to 2100, when the store answers and every stored
    release date of that year has a two-digit month at characters 6-7, the
    chart has 12 entries and the entry of each month holds the number of
    stored movies whose release date falls in that month of that year. *)
Theorem monthly_chart_counts (s : movieService.t) (year : Z) (w : World) :
  1900 <= year <= 2100 ->
  fault w (OpMovieMonthCounts (movieRepository.yearStr year)) (clock w) = None ->
  (forall r, In r (movies (db w)) ->
             Gorm.in_year (movieRepository.yearStr year) r = true ->
             two_digits (Gorm.month_text r) = true) ->
  exists entries w',
    movieService.GetMoviesByMonth s year w = ((entries, None), w')
    /\ length entries = 12%nat
    /\ (forall (i : nat) (entry : ColumnChartData.t),
           entries !! i = Some entry ->
           ColumnChartData.Value entry
           = Z.of_nat (length (List.filter
                                 (in_month (movieRepository.yearStr year) (Z.of_nat i + 1))
                                 (movies (db w))))).
Proof.
  intros Hy F H.
  assert (G : (year <? 1900) || (2100 <? year) = false)
    by (apply orb_false_iff; split; apply Z.ltb_ge; lia).
  unfold movieService.GetMoviesByMonth. rewrite G.
  unfold movieRepository.GetMoviesByMonth, bind.
  destruct (FindMonthCounts_counts _ w F H) as (rows & -> & N & R & Z0). cbv zeta.
  set (monthMap := fold_left _ rows ∅).
  eexists. eexists. split; [reflexivity|]. split; [reflexivity|].
  intros i entry Hi. rewrite list_lookup_imap in Hi.
  destruct (movieRepository.months !! i) as [month|]; [|discriminate].
  injection Hi as <-. cbn [ColumnChartData.Value].
  destruct (in_dec Z.eq_dec (Z.of_nat i + 1) (map fst rows)) as [Hin|Hout].
  - apply in_map_iff in Hin as ([m n] & E & Hin). simpl in E. subst m.
    unfold monthMap. rewrite (monthMap_hit rows ∅ _ n N Hin). simpl.
    apply R, Hin.
  - unfold monthMap. rewrite (monthMap_miss rows ∅ _ Hout), lookup_empty. simpl.
    rewrite (Z0 _ Hout). reflexivity.
Qed.

Lemma monthly_chart_counts_witness :
  exists entries w',
    movieService.GetMoviesByMonth Examples.svc 1999 Examples.stocked = ((entries, None), w')
    /\ length entries = 12%nat
    /\ (forall (i : nat) (entry : ColumnChartData.t),
           entries !! i = Some entry ->
           ColumnChartData.Value entry
           = Z.of_nat (length (List.filter
                                 (in_month (movieRepository.yearStr 1999) (Z.of_nat i + 1))
                                 (movies (db Examples.stocked))))).
Proof.
  apply (monthly_chart_counts Examples.svc 1999 Examples.stocked).
  - lia.
  - reflexivity.
  - intros r [<-|[]] _. reflexivity.
Defined.

(** ** The reference tables *)

Lemma grows_refl (d : Database) : grows d d.
Proof. split; exists []; rewrite app_nil_r; reflexivity. Qed.

Lemma grows_trans (d1 d2 d3 : Database) : grows d1 d2 -> grows d2 d3 -> grows d1 d3.
Proof.
  intros [[l1 L1] [g1 G1]] [[l2 L2] [g2 G2]]. split.
  - exists (l1 ++ l2). rewrite L2, L1, app_assoc. reflexivity.
  - exists (g1 ++ g2). rewrite G2, G1, app_assoc. reflexivity.
Qed.

Lemma keeps_refs_ret {A} (a : A) : keeps_refs (ret a).
Proof. intros w. split; [tauto | apply grows_refl]. Qed.

Lemma keeps_refs_bind {A B} (m : IO A) (k : A -> IO B) :
  keeps_refs m -> (forall a, keeps_refs (k a)) -> keeps_refs (bind m k).
Proof.
  intros Hm Hk w. unfold bind. specialize (Hm w). destruct (m w) as [a w1].
  simpl in Hm. specialize (Hk a w1). destruct Hm as [Wm Gm], Hk as [Wk Gk].
  split; [intros W; apply Wk, Wm, W | exact (grows_trans _ _ _ Gm Gk)].
Qed.

(** An operation that leaves both tables and their sequences alone. *)
Lemma keeps_refs_same {A} (m : IO A) :
  (forall w, languages (db (snd (m w))) = languages (db w)
             /\ genres (db (snd (m w))) = genres (db w)
             /\ next_language_id (db (snd (m w))) = next_language_id (db w)
             /\ next_genre_id (db (snd (m w))) = next_genre_id (db w)) ->
  keeps_refs m.
Proof.
  intros H w. destruct (H w) as (L & G & NL & NG). split.
  - unfold wf_refs. rewrite L, G, NL, NG. tauto.
  - split; exists []; rewrite app_nil_r; assumption.
Qed.

Lemma keeps_refs_call {A} (op : Op) (body : IO (Result A)) :
  keeps_refs body -> keeps_refs (call op body).
Proof.
  intros H w. unfold call. destruct (fault w op (clock w)).
  - split; [tauto | apply grows_refl].
  - exact (H (tick w)).
Qed.

Lemma keeps_refs_FirstOrCreateLanguage (code name : string) :
  keeps_refs (Gorm.FirstOrCreateLanguage code name).
Proof.
  apply keeps_refs_call. intros w. cbv zeta.
  destruct (List.find _ (languages (db w))) as [l|] eqn:Fd.
  { split; [tauto | apply grows_refl]. }
  simpl. split; [|split; [eexists; reflexivity | exists []; rewrite app_nil_r; reflexivity]].
  intros (N1 & N2 & F1 & N3 & N4 & F2). unfold wf_refs. simpl.
  rewrite !map_app. simpl. rewrite Forall_forall in F1.
  split; [|split; [|split; [|split; [exact N3|split; [exact N4 | exact F2]]]]].
  - apply NoDup_app. split; [exact N1|]. split; [|apply NoDup_singleton].
    intros x Hx Hx'. apply list_elem_of_singleton in Hx'. subst x.
    apply list_elem_of_In, in_map_iff in Hx as (l & E & Hl).
    apply list_elem_of_In, F1 in Hl. lia.
  - apply NoDup_app. split; [exact N2|]. split; [|apply NoDup_singleton].
    intros x Hx Hx'. apply list_elem_of_singleton in Hx'. subst x.
    apply list_elem_of_In, in_map_iff in Hx as (l & E & Hl).
    apply (find_none _ _ Fd) in Hl. apply String.eqb_neq in Hl. contradiction.
  - apply Forall_app. split.
    + apply Forall_forall. intros l Hl. apply F1 in Hl. lia.
    + apply Forall_singleton. simpl. lia.
Qed.

Lemma keeps_refs_FirstOrCreateGenre (tmdbID : Z) (name : string) :
  keeps_refs (Gorm.FirstOrCreateGenre tmdbID name).
Proof.
  apply keeps_refs_call. intros w. cbv zeta.
  destruct (List.find _ (genres (db w))) as [g|] eqn:Fd.
  { split; [tauto | apply grows_refl]. }
  simpl. split; [|split; [exists []; rewrite app_nil_r; reflexivity | eexists; reflexivity]].
  intros (N1 & N2 & F1 & N3 & N4 & F2). unfold wf_refs. simpl.
  rewrite !map_app. simpl. rewrite Forall_forall in F2.
  split; [exact N1|]. split; [exact N2|]. split; [exact F1|]. split; [|split].
  - apply NoDup_app. split; [exact N3|]. split; [|apply NoDup_singleton].
    intros x Hx Hx'. apply list_elem_of_singleton in Hx'. subst x.
    apply list_elem_of_In, in_map_iff in Hx as (g & E & Hg).
    apply list_elem_of_In, F2 in Hg. lia.
  - apply NoDup_app. split; [exact N4|]. split; [|apply NoDup_singleton].
    intros x Hx Hx'. apply list_elem_of_singleton in Hx'. subst x.
    apply list_elem_of_In, in_map_iff in Hx as (g & E & Hg).
    apply (find_none _ _ Fd) in Hg. apply Z.eqb_neq in Hg. contradiction.
  - apply Forall_app. split.
    + apply Forall_forall. intros g Hg. apply F2 in Hg. lia.
    + apply Forall_singleton. simpl. lia.
Qed.

Lemma keeps_refs_FirstLanguage (code : string) : keeps_refs (Gorm.FirstLanguage code).
Proof.
  apply keeps_refs_call, keeps_refs_same. intros w. destruct (List.find _ _); repeat split.
Qed.

Lemma keeps_refs_FirstMovieByID (id : Z) : keeps_refs (Gorm.FirstMovieByID id).
Proof.
  apply keeps_refs_call, keeps_refs_same. intros w. destruct (Gorm.first_by_id _ _);
    repeat split.
Qed.

Lemma keeps_refs_FirstMovieByTMDBID (x : Z) : keeps_refs (Gorm.FirstMovieByTMDBID x).
Proof.
  apply keeps_refs_call, keeps_refs_same. intros w. destruct (Gorm.first_by_tmdb_id _ _);
    repeat split.
Qed.

Lemma keeps_refs_CreateMovie (m : Movie.t) : keeps_refs (Gorm.CreateMovie m).
Proof.
  apply keeps_refs_call, keeps_refs_same. intros w. cbv zeta. destruct (existsb _ _);
    repeat split.
Qed.

Lemma keeps_refs_SaveMovie (m : Movie.t) : keeps_refs (Gorm.SaveMovie m).
Proof.
  unfold Gorm.SaveMovie. destruct (Movie.ID m =? 0); [apply keeps_refs_CreateMovie|].
  apply keeps_refs_call, keeps_refs_same. intros w. cbv zeta.
  destruct (existsb _ _); [repeat split|]. destruct (existsb _ _); repeat split.
Qed.

Lemma keeps_refs_DeleteMovie (id : Z) : keeps_refs (Gorm.DeleteMovie id).
Proof. apply keeps_refs_call, keeps_refs_same. intros w. repeat split. Qed.

Lemma keeps_refs_CreateSyncLog (l : SyncLog.t) : keeps_refs (Gorm.CreateSyncLog l).
Proof. apply keeps_refs_call, keeps_refs_same. intros w. repeat split. Qed.

Lemma keeps_refs_RemoveObject (key : string) : keeps_refs (Minio.RemoveObject key).
Proof. apply keeps_refs_call, keeps_refs_same. intros w. repeat split. Qed.

Lemma keeps_refs_GetPopular (page : Z) : keeps_refs (Tmdb.GetPopular page).
Proof. apply keeps_refs_same. intros w. repeat split. Qed.

Lemma keeps_refs_Now : keeps_refs Now.
Proof. apply keeps_refs_same. intros w. repeat split. Qed.

Create HintDb refs.
#[local] Hint Resolve keeps_refs_FirstOrCreateLanguage keeps_refs_FirstOrCreateGenre
  keeps_refs_FirstLanguage keeps_refs_FirstMovieByID keeps_refs_FirstMovieByTMDBID
  keeps_refs_CreateMovie keeps_refs_SaveMovie keeps_refs_DeleteMovie
  keeps_refs_CreateSyncLog keeps_refs_RemoveObject keeps_refs_GetPopular keeps_refs_Now
  : refs.

(** One step through a sequence of calls. *)
Ltac refs :=
  repeat first
    [ solve [auto with refs]
    | apply keeps_refs_ret
    | apply keeps_refs_bind; [|intros ?]
    | match goal with
      | |- keeps_refs (match ?x with _ => _ end) => destruct x
      end ].

Lemma keeps_refs_resolveGenres (ids : list Z) (acc : list Genre.t) :
  keeps_refs (movieService.resolveGenres ids acc).
Proof.
  revert acc. induction ids as [|gid ids IH]; intros acc; simpl; [apply keeps_refs_ret|].
  unfold genreRepository.FindOrCreate. refs.
Qed.

Lemma keeps_refs_syncMovie (it : TMDBMovieResponse.t) (c : Z * Z) :
  keeps_refs (movieService.syncMovie it c).
Proof.
  unfold movieService.syncMovie, languageRepository.FindOrCreate,
    movieRepository.FindByTMDBID, movieRepository.Create, movieRepository.Update.
  pose proof keeps_refs_resolveGenres. refs.
Qed.

Lemma keeps_refs_syncMovies (its : list TMDBMovieResponse.t) (c : Z * Z) :
  keeps_refs (movieService.syncMovies its c).
Proof.
  revert c. induction its as [|it its IH]; intros c; simpl; [apply keeps_refs_ret|].
  pose proof keeps_refs_syncMovie. refs.
Qed.

Lemma keeps_refs_syncPages (pages : list Z) (log : SyncLog.t) (c : Z * Z) :
  keeps_refs (movieService.syncPages pages log c).
Proof.
  revert c. induction pages as [|p pages IH]; intros c; simpl; [apply keeps_refs_ret|].
  unfold movieRepository.CreateSyncLog. pose proof keeps_refs_syncMovies. refs.
Qed.

Lemma keeps_refs_deleteStoredImage (s : movieService.t) (m : MinIOService.t) (p : string) :
  keeps_refs (movieService.deleteStoredImage s m p).
Proof. unfold movieService.deleteStoredImage, MinIOService.DeleteFile. refs. Qed.

Lemma keeps_refs_CountMovies (q : ListQuery) : keeps_refs (Gorm.CountMovies q).
Proof. apply keeps_refs_call, keeps_refs_same. intros w. repeat split. Qed.

Lemma keeps_refs_FindMovies (q : ListQuery) : keeps_refs (Gorm.FindMovies q).
Proof. apply keeps_refs_call, keeps_refs_same. intros w. repeat split. Qed.

Lemma keeps_refs_FindMonthCounts (ys : string) : keeps_refs (Gorm.FindMonthCounts ys).
Proof.
  apply keeps_refs_call, keeps_refs_same. intros w. cbv zeta.
  destruct (Gorm.cast_groups _ _); repeat split.
Qed.

#[local] Hint Resolve keeps_refs_CountMovies keeps_refs_FindMovies keeps_refs_FindMonthCounts
  keeps_refs_deleteStoredImage : refs.

Lemma keeps_refs_SyncMoviesFromTMDB (s : movieService.t) (pages : Z) :
  keeps_refs (movieService.SyncMoviesFromTMDB s pages).
Proof.
  unfold movieService.SyncMoviesFromTMDB, movieRepository.CreateSyncLog.
  pose proof keeps_refs_syncPages. refs.
Qed.

Lemma keeps_refs_CreateMovie_service (s : movieService.t) (m : Movie.t) :
  keeps_refs (movieService.CreateMovie s m).
Proof.
  unfold movieService.CreateMovie, movieRepository.FindByTMDBID, movieRepository.Create.
  refs.
Qed.

Lemma keeps_refs_UpdateMovie_service (s : movieService.t) (id : Z) (m : Movie.t) :
  keeps_refs (movieService.UpdateMovie s id m).
Proof.
  unfold movieService.UpdateMovie, movieService.deleteReplacedImages,
    movieRepository.FindByID, movieRepository.Update.
  refs.
Qed.

Lemma keeps_refs_DeleteMovie_service (s : movieService.t) (id : Z) :
  keeps_refs (movieService.DeleteMovie s id).
Proof.
  unfold movieService.DeleteMovie, movieService.deleteImages,
    movieRepository.FindByID, movieRepository.Delete.
  refs.
Qed.

Lemma keeps_refs_convertRequestToMovie (h : MovieHandler.t) (req : MovieRequest.t) :
  keeps_refs (MovieHandler.convertRequestToMovie h req).
Proof.
  unfold MovieHandler.convertRequestToMovie, movieService.GetLanguageByCode,
    movieService.CreateLanguage, languageRepository.FindByCode,
    languageRepository.FindOrCreate.
  refs.
Qed.

#[local] Hint Resolve keeps_refs_SyncMoviesFromTMDB keeps_refs_CreateMovie_service
  keeps_refs_UpdateMovie_service keeps_refs_DeleteMovie_service
  keeps_refs_convertRequestToMovie : refs.

(** X21. No request loses or duplicates a language or a genre: every
    handler that reaches the store, run from any world and whatever fails,
    keeps the invariants of the reference tables (distinct keys below the
    sequence, distinct language codes, distinct external genre ids) and
    only adds rows at their end. *)
Theorem reference_tables_only_grow (h : MovieHandler.t) (c : fiber.Ctx) :
  keeps_refs (MovieHandler.GetAllMovies h c)
  /\ keeps_refs (MovieHandler.GetMovieByID h c)
  /\ keeps_refs (MovieHandler.CreateMovie h c)
  /\ keeps_refs (MovieHandler.UpdateMovie h c)
  /\ keeps_refs (MovieHandler.DeleteMovie h c)
  /\ keeps_refs (MovieHandler.SyncMoviesFromTMDB h c)
  /\ keeps_refs (MovieHandler.GetMonthlyChartData h c).
Proof.
  split; [|split; [|split; [|split; [|split; [|split]]]]].
  - unfold MovieHandler.GetAllMovies, movieService.GetAllMovies, movieRepository.FindAll.
    cbv zeta. refs.
  - unfold MovieHandler.GetMovieByID, movieService.GetMovieByID, movieRepository.FindByID.
    refs.
  - unfold MovieHandler.CreateMovie. refs.
  - unfold MovieHandler.UpdateMovie. refs.
  - unfold MovieHandler.DeleteMovie. refs.
  - unfold MovieHandler.SyncMoviesFromTMDB. refs.
  - unfold MovieHandler.GetMonthlyChartData, movieService.GetMoviesByMonth,
      movieRepository.GetMoviesByMonth.
    refs.
Qed.

(** ** Reading a synced movie back *)

Lemma first_by_id_In (rows : list Movie.t) (r : Movie.t) :
  NoDup (map Movie.ID rows) -> In r rows -> Gorm.first_by_id (Movie.ID r) rows = Some r.
Proof.
  intros N Hr. destruct (Gorm.first_by_id (Movie.ID r) rows) as [e|] eqn:F.
  - apply first_by_id_Some in F as [He Hx]. f_equal.
    apply (NoDup_map_inj Movie.ID rows); assumption.
  - exfalso. unfold Gorm.first_by_id in F.
    pose proof (find_none _ _ F _ Hr) as X. simpl in X. lia.
Qed.

Lemma find_language_In (ls : list Language.t) (lang : Language.t) :
  NoDup (map Language.ID ls) -> In lang ls ->
  List.find (fun l => Language.ID l =? Language.ID lang) ls = Some lang.
Proof.
  intros N Hl. destruct (List.find _ ls) as [e|] eqn:F.
  - apply find_some in F as [He Hx]. f_equal.
    apply (NoDup_map_inj Language.ID ls); [assumption..|lia].
  - exfalso. pose proof (find_none _ _ F _ Hl) as X. simpl in X. lia.
Qed.

Lemma preload_carries_item (d : Database) (row : Movie.t) (it : TMDBMovieResponse.t) :
  carries_item row it -> carries_item (Gorm.preload d row) it.
Proof. destruct row. unfold carries_item, Gorm.preload. simpl. tauto. Qed.

Lemma preload_ID (d : Database) (row : Movie.t) : Movie.ID (Gorm.preload d row) = Movie.ID row.
Proof. destruct row. reflexivity. Qed.

Lemma preload_Language (d : Database) (row : Movie.t) :
  Movie.Language (Gorm.preload d row)
  = match Movie.LanguageID row with
    | Some lid => List.find (fun l => Language.ID l =? lid) (languages d)
    | None => None
    end.
Proof. destruct row. reflexivity. Qed.

Lemma preload_Genres (d : Database) (row : Movie.t) :
  Movie.Genres (Gorm.preload d row)
  = List.filter (fun g => Gorm.has_link (Movie.ID row) (Genre.ID g) (movie_genres d))
                (genres d).
Proof. destruct row. reflexivity. Qed.

(** What a stored row that carries an item reads back as. *)
Lemma stored_row_reads_back (s : movieService.t) (it : TMDBMovieResponse.t) (row : Movie.t)
      (w0 w : World) :
  wf_db (db w) -> wf_refs (db w) -> no_faults w -> no_faults w0 ->
  In row (movies (db w)) ->
  carries_item row it -> language_resolved row it (db w) -> genres_linked row it w0 (db w) ->
  exists m,
    movieService.GetMovieByID s (Movie.ID m) w = (Ok (Some m), tick w)
    /\ Movie.ID m = Movie.ID row
    /\ carries_item m it
    /\ (exists lang, Movie.Language m = Some lang
                     /\ Language.Code lang = TMDBMovieResponse.OriginalLanguage it)
    /\ (forall gid, In gid (TMDBMovieResponse.GenreIDs it) ->
          exists g, In g (Movie.Genres m) /\ Genre.TMDBID g = gid).
Proof.
  intros (Ni & _) (Nl & _) N N0 Hr Cr (lang & Hl & Hc & Hid) G.
  exists (Gorm.preload (db w) row). rewrite preload_ID.
  split; [|split; [reflexivity|split; [apply preload_carries_item, Cr|split]]].
  - unfold movieService.GetMovieByID. apply FindByID_found; [apply N|].
    apply first_by_id_In; assumption.
  - exists lang. split; [|exact Hc]. rewrite preload_Language, Hid.
    apply find_language_In; assumption.
  - intros gid Hg. destruct (G gid Hg (fun t => N0 _ t)) as (g & Hin & Ht & Hk).
    exists g. split; [|exact Ht]. rewrite preload_Genres. apply filter_In. split; assumption.
Qed.

(** X22. A synced movie reads back complete: after the upsert of a TMDB
    item on a well-formed store where no call fails, the row written is
    found under its key, and what [GetMovieByID] returns carries the item's
    values, has the language with the item's original-language code
    preloaded, and has among its preloaded genres one for each genre id of
    the item. *)
Theorem synced_movie_reads_back (s : movieService.t) (it : TMDBMovieResponse.t) (c : Z * Z)
        (w : World) :
  wf_db (db w) -> wf_refs (db w) -> no_faults w ->
  exists c' w' m,
    movieService.syncMovie it c w = (c', w')
    /\ In (Movie.ID m) (map Movie.ID (movies (db w')))
    /\ movieService.GetMovieByID s (Movie.ID m) w' = (Ok (Some m), tick w')
    /\ carries_item m it
    /\ (exists lang, Movie.Language m = Some lang
                     /\ Language.Code lang = TMDBMovieResponse.OriginalLanguage it)
    /\ (forall gid, In gid (TMDBMovieResponse.GenreIDs it) ->
          exists g, In g (Movie.Genres m) /\ Genre.TMDBID g = gid).
Proof.
  intros W R N.
  assert (R' : wf_refs (db (snd (movieService.syncMovie it c w))))
    by (apply keeps_refs_syncMovie, R).
  destruct (Gorm.first_by_tmdb_id (TMDBMovieResponse.ID it) (movies (db w))) as [e|] eqn:F.
  - destruct (syncMovie_existing it c w e W N F)
      as (w' & row & l1 & l2 & E & W' & S & _ & M' & _ & _ & Cr & Lr & Gl).
    rewrite E in R'. simpl in R'.
    assert (Hr : In row (movies (db w'))) by (rewrite M'; apply in_app_iff; right; left; reflexivity).
    destruct (stored_row_reads_back s it row w w' W' R' (steps_no_faults _ _ _ S N) N Hr Cr Lr Gl)
      as (m & Hm & Hi & Hrest).
    exists (fst c, snd c + 1), w', m. split; [exact E|]. split; [|split; [exact Hm | exact Hrest]].
    rewrite Hi. apply in_map, Hr.
  - destruct (syncMovie_new it c w W N F) as (w' & row & E & W' & S & M & _ & _ & Cr & Lr & Gl).
    rewrite E in R'. simpl in R'.
    assert (Hr : In row (movies (db w'))) by (rewrite M; apply in_app_iff; right; left; reflexivity).
    destruct (stored_row_reads_back s it row w w' W' R' (steps_no_faults _ _ _ S N) N Hr Cr Lr Gl)
      as (m & Hm & Hi & Hrest).
    exists (fst c + 1, snd c), w', m. split; [exact E|]. split; [|split; [exact Hm | exact Hrest]].
    rewrite Hi. apply in_map, Hr.
Qed.

Lemma wf_stocked_refs : wf_refs Examples.stocked_db.
Proof.
  unfold wf_refs. simpl.
  split; [compute_done|]. split; [compute_done|]. split; [repeat constructor|].
  split; [compute_done|]. split; [compute_done|]. repeat constructor.
Qed.

Lemma synced_movie_reads_back_witness :
  exists c' w' m,
    movieService.syncMovie Examples.fight_club (0, 0) Examples.stocked = (c', w')
    /\ In (Movie.ID m) (map Movie.ID (movies (db w')))
    /\ movieService.GetMovieByID Examples.svc (Movie.ID m) w' = (Ok (Some m), tick w')
    /\ carries_item m Examples.fight_club
    /\ (exists lang, Movie.Language m = Some lang
                     /\ Language.Code lang
                        = TMDBMovieResponse.OriginalLanguage Examples.fight_club)
    /\ (forall gid, In gid (TMDBMovieResponse.GenreIDs Examples.fight_club) ->
          exists g, In g (Movie.Genres m) /\ Genre.TMDBID g = gid).
Proof.
  apply (synced_movie_reads_back Examples.svc Examples.fight_club (0, 0) Examples.stocked).
  - exact wf_stocked_db.
  - exact wf_stocked_refs.
  - intros op t. reflexivity.
Defined.

(** ** The upsert and the genre links *)










(** ** Items that fail, and the items after them *)

Lemma syncMovie_lookup_fault_at (it : TMDBMovieResponse.t) (c c' : Z * Z) (w w' : World)
      (e : error) :
  e <> Gorm.ErrRecordNotFound ->
  fault w (OpMovieFirstByTMDBID (TMDBMovieResponse.ID it)) (lookup_time it w) = Some e ->
  movieService.syncMovie it c w = (c', w') ->
  c' = c /\ quiet w w'.
Proof.
  intros Hne F. destruct c as [a u]. unfold movieService.syncMovie, bind.
  unfold languageRepository.FindOrCreate.
  destruct (Gorm.FirstOrCreateLanguage _ _ w) as [r1 w1] eqn:E1.
  pose proof (FirstOrCreateLanguage_clock _ _ _ _ _ E1) as C1.
  apply FirstOrCreateLanguage_quiet in E1.
  destruct r1 as [language|e1]; [|intros [= <- <-]; split; [reflexivity | exact E1]].
  destruct (movieService.resolveGenres _ _ w1) as [gs w2] eqn:E2.
  destruct (resolveGenres_at _ _ _ _ _ E2) as (C2 & _).
  apply resolveGenres_quiet in E2. pose proof (quiet_trans _ _ _ E1 E2) as Q.
  assert (T2 : clock w2 = lookup_time it w) by (unfold lookup_time; lia).
  unfold movieRepository.FindByTMDBID, bind. rewrite FirstMovieByTMDBID_eq.
  cbn [Movie.TMDBID Movie.set_Genres].
  rewrite (steps_fault _ _ _ (proj1 Q)), T2, F.
  apply String.eqb_neq in Hne. rewrite Hne. intros [= <- <-].
  split; [reflexivity|]. eapply quiet_trans; [exact Q | apply quiet_tick].
Qed.

Lemma syncMovie_create_fault_at (it : TMDBMovieResponse.t) (c c' : Z * Z) (w w' : World) :
  wf_db (db w) ->
  Gorm.first_by_tmdb_id (TMDBMovieResponse.ID it) (movies (db w)) = None ->
  fault w (OpMovieCreate (TMDBMovieResponse.ID it)) (lookup_time it w + 1) <> None ->
  movieService.syncMovie it c w = (c', w') ->
  c' = c /\ quiet w w'.
Proof.
  intros W Hn Hf E.
  destruct (syncMovie_outcome_at _ _ _ _ _ W E)
    as (_ & [(-> & Q & _)|[(_ & _ & Hc & _)|(_ & e & _ & _ & _ & He & _)]]).
  - split; [reflexivity | exact Q].
  - contradiction.
  - congruence.
Qed.

Lemma syncMovie_save_fault_at (it : TMDBMovieResponse.t) (c c' : Z * Z) (w w' : World)
      (existing : Movie.t) :
  wf_db (db w) ->
  Gorm.first_by_tmdb_id (TMDBMovieResponse.ID it) (movies (db w)) = Some existing ->
  fault w (OpMovieSave (Movie.ID existing)) (lookup_time it w + 1) <> None ->
  movieService.syncMovie it c w = (c', w') ->
  c' = c /\ quiet w w'.
Proof.
  intros W Hs Hf E.
  destruct (syncMovie_outcome_at _ _ _ _ _ W E)
    as (_ & [(-> & Q & _)|[(_ & Hn & _)|(_ & e & _ & _ & _ & He & Hok & _)]]).
  - split; [reflexivity | exact Q].
  - congruence.
  - assert (e = existing) as -> by congruence. contradiction.
Qed.

(** An item whose own calls succeed is written and counted, whatever the
    calls for its genres do. *)
Lemma syncMovie_written (it : TMDBMovieResponse.t) (c : Z * Z) (w : World) :
  wf_db (db w) ->
  fault w (OpLanguageFirstOrCreate (TMDBMovieResponse.OriginalLanguage it)) (clock w) = None ->
  fault w (OpMovieFirstByTMDBID (TMDBMovieResponse.ID it)) (lookup_time it w) = None ->
  (Gorm.first_by_tmdb_id (TMDBMovieResponse.ID it) (movies (db w)) = None ->
   fault w (OpMovieCreate (TMDBMovieResponse.ID it)) (lookup_time it w + 1) = None) ->
  (forall e, Gorm.first_by_tmdb_id (TMDBMovieResponse.ID it) (movies (db w)) = Some e ->
             fault w (OpMovieSave (Movie.ID e)) (lookup_time it w + 1) = None) ->
  exists w' row,
    movieService.syncMovie it c w
    = (match Gorm.first_by_tmdb_id (TMDBMovieResponse.ID it) (movies (db w)) with
       | Some _ => (fst c, snd c + 1)
       | None => (fst c + 1, snd c)
       end, w')
    /\ wf_db (db w')
    /\ rows_with_tmdb_id (TMDBMovieResponse.ID it) (db w') = [row]
    /\ carries_item row it
    /\ language_resolved row it (db w')
    /\ links_written row it w (db w').
Proof.
  intros W Hl Hk Hc Hs. destruct (movieService.syncMovie it c w) as [c' w'] eqn:E.
  destruct (syncMovie_outcome_at _ _ _ _ _ W E)
    as (W' & [(_ & _ & Sk)
             |[(-> & Hn & _ & row & _ & _ & M & _ & _ & Cr & Lr & _ & Lw)
              |(-> & e & row & l1 & l2 & He & _ & _ & _ & _ & M' & _ & _ & Cr & Lr & _ & Lw)]]).
  - exfalso. destruct Sk as [H|[H|[(Hn & H)|(x & Hx & H)]]].
    + apply H, Hl.
    + apply H, Hk.
    + apply H, Hc, Hn.
    + apply H, (Hs x Hx).
  - exists w', row. rewrite Hn. split; [reflexivity|]. split; [exact W'|].
    split; [|split; [exact Cr | split; [exact Lr | exact Lw]]].
    destruct Cr as [<- _]. apply rows_with_tmdb_id_unique; [apply W'|].
    rewrite M. apply in_app_iff. right. left. reflexivity.
  - exists w', row. rewrite He. split; [reflexivity|]. split; [exact W'|].
    split; [|split; [exact Cr | split; [exact Lr | exact Lw]]].
    destruct Cr as [<- _]. apply rows_with_tmdb_id_unique; [apply W'|].
    rewrite M'. apply in_app_iff. right. left. reflexivity.
Qed.

Lemma calls_succeed_steps (w w' : World) (evs : list Event) (it : TMDBMovieResponse.t) :
  steps w w' evs -> calls_succeed w it -> calls_succeed w' it.
Proof. intros S H t. rewrite (steps_fault _ _ _ S). apply H. Qed.

Lemma kept_external_ids (l l' : list Movie.t) (x : Z) :
  (exists added, map identity l' = map identity l ++ added) ->
  In x (map Movie.TMDBID l) -> In x (map Movie.TMDBID l').
Proof.
  intros (added & H) Hx. rewrite (identity_external_ids _ _ _ H).
  apply in_app_iff. left. exact Hx.
Qed.

Lemma syncMovie_stores_ok (it : TMDBMovieResponse.t) (c c' : Z * Z) (w w' : World) :
  wf_db (db w) -> calls_succeed w it ->
  movieService.syncMovie it c w = (c', w') ->
  In (TMDBMovieResponse.ID it) (map Movie.TMDBID (movies (db w'))).
Proof.
  intros W H E.
  destruct (syncMovie_written it c w W) as (w1 & row & E1 & _ & R & _).
  - apply H.
  - apply H.
  - intros _. apply H.
  - intros e _. apply H.
  - rewrite E in E1. injection E1 as _ <-.
    assert (Hr : In row (rows_with_tmdb_id (TMDBMovieResponse.ID it) (db w')))
      by (rewrite R; left; reflexivity).
    unfold rows_with_tmdb_id in Hr. apply filter_In in Hr as [Hin Hx].
    apply in_map_iff. exists row. split; [lia | exact Hin].
Qed.

Lemma syncMovies_stores_ok (its : list TMDBMovieResponse.t) (it : TMDBMovieResponse.t)
      (c c' : Z * Z) (w w' : World) :
  wf_db (db w) -> calls_succeed w it -> In it its ->
  movieService.syncMovies its c w = (c', w') ->
  In (TMDBMovieResponse.ID it) (map Movie.TMDBID (movies (db w'))).
Proof.
  revert c w. induction its as [|a its IH]; simpl; intros c w W H Hin E; [destruct Hin|].
  unfold bind in E. destruct (movieService.syncMovie a c w) as [c1 w1] eqn:E1.
  destruct (syncMovie_identity _ _ _ _ _ W E1) as (W1 & _).
  destruct (syncMovie_frame _ _ _ _ _ E1) as (e1 & S1 & _).
  destruct Hin as [->|Hin].
  - destruct (syncMovies_identity _ _ _ _ _ W1 E) as (_ & K).
    apply (kept_external_ids _ _ _ K). exact (syncMovie_stores_ok _ _ _ _ _ W H E1).
  - apply (IH c1 w1 W1 (calls_succeed_steps _ _ _ _ S1 H) Hin E).
Qed.

Lemma syncPages_stores_ok (pages : list Z) (log : SyncLog.t) (c : Z * Z) (w w' : World) r
      (it : TMDBMovieResponse.t) (p : Z) (ms : list TMDBMovieResponse.t) :
  wf_db (db w) -> calls_succeed w it ->
  (forall q, In q pages -> exists ms', tmdb w q = Ok ms') ->
  In p pages -> tmdb w p = Ok ms -> In it ms ->
  movieService.syncPages pages log c w = (r, w') ->
  In (TMDBMovieResponse.ID it) (map Movie.TMDBID (movies (db w'))).
Proof.
  revert c w. induction pages as [|q pages IH]; intros c w W H Hall Hp Hms Hit;
    [destruct Hp|].
  simpl. unfold bind. rewrite GetPopular_eq.
  destruct (Hall q (or_introl eq_refl)) as (ms0 & Hq). rewrite Hq.
  destruct (movieService.syncMovies ms0 c _) as [c1 w1] eqn:E1.
  pose proof (syncMovies_frame _ _ _ _ _ E1) as (e1 & S1 & _).
  pose proof (steps_trans _ _ _ _ _ (steps_fetch q w) S1) as S01.
  assert (W0 : wf_db (db (emit (EvFetch q) (tick w)))) by exact W.
  destruct (syncMovies_identity _ _ _ _ _ W0 E1) as (W1 & _).
  intros E. destruct Hp as [->|Hp].
  - destruct (syncPages_identity _ _ _ _ _ _ W1 E) as (_ & K).
    apply (kept_external_ids _ _ _ K).
    assert (ms0 = ms) as -> by congruence.
    apply (syncMovies_stores_ok ms it c c1 _ w1 W0); [|exact Hit|exact E1].
    exact (calls_succeed_steps _ _ _ _ (steps_fetch p w) H).
  - apply (IH c1 w1 W1 (calls_succeed_steps _ _ _ _ S01 H)); [|exact Hp| |exact Hit|exact E].
    + intros q' Hq'. rewrite (steps_tmdb _ _ _ S01). apply Hall. right. exact Hq'.
    + rewrite (steps_tmdb _ _ _ S01). exact Hms.
Qed.

Lemma Sync_stores_ok (s : movieService.t) (pages : Z) (w : World)
      (it : TMDBMovieResponse.t) (p : Z) (ms : list TMDBMovieResponse.t) :
  wf_db (db w) -> calls_succeed w it ->
  (forall q, 1 <= q <= Z.min 10 (Z.max 1 pages) -> exists ms', tmdb w q = Ok ms') ->
  1 <= p <= Z.min 10 (Z.max 1 pages) -> tmdb w p = Ok ms -> In it ms ->
  In (TMDBMovieResponse.ID it)
     (map Movie.TMDBID (movies (db (snd (movieService.SyncMoviesFromTMDB s pages w))))).
Proof.
  intros W H Hall Hp Hms Hit.
  unfold movieService.SyncMoviesFromTMDB, bind, Now. rewrite clamp_pages.
  destruct (movieService.syncPages _ _ _ (tick w)) as [r w1] eqn:E.
  assert (K : In (TMDBMovieResponse.ID it) (map Movie.TMDBID (movies (db w1)))).
  { eapply (syncPages_stores_ok _ _ _ (tick w) w1 r it p ms); [exact W | exact H | | |
                                                                exact Hms | exact Hit | exact E].
    - intros q Hq. apply list_elem_of_In, elem_of_seqZ in Hq. apply Hall. lia.
    - apply list_elem_of_In, elem_of_seqZ. lia. }
  destruct r as [[l e]|[a u]]; [exact K|].
  destruct (movieRepository.CreateSyncLog _ w1) as [[l x] w2] eqn:E2.
  apply CreateSyncLog_movies in E2 as [M _]. simpl. rewrite M. exact K.
Qed.

(** C3 (as amended). The calls for one item are made at fixed instants:
    the language at the item's start, one genre per instant after it, then
    the lookup by external id and the write.  A failure of the language
    call, of the lookup (with an error other than "record not found"), of
    the insert of an item that is not stored or of the save of one that is,
    each at its instant, leaves the counters, the [movies] table and the
    trace as they were: the item is skipped.  A failure in resolving a
    genre only leaves that genre out: when the item's other calls succeed,
    the item is written and counted as added or updated whatever the genre
    calls do, every genre that resolves is linked to it and no other link
    is added.  No failure of a store call ends the run: when every page
    comes back, the run fetches every page and returns a log with status
    "success" and no error, and every served item whose own calls succeed
    is stored after the run, whatever fails for the items before it. *)
Theorem sync_item_failures_are_skipped :
  (forall (it : TMDBMovieResponse.t) (c : Z * Z) (w : World) (e : error),
      fault w (OpLanguageFirstOrCreate (TMDBMovieResponse.OriginalLanguage it)) (clock w)
      = Some e ->
      exists w', movieService.syncMovie it c w = (c, w') /\ quiet w w')
  /\ (forall (it : TMDBMovieResponse.t) (c c' : Z * Z) (w w' : World) (e : error),
         e <> Gorm.ErrRecordNotFound ->
         fault w (OpMovieFirstByTMDBID (TMDBMovieResponse.ID it)) (lookup_time it w) = Some e ->
         movieService.syncMovie it c w = (c', w') ->
         c' = c /\ quiet w w')
  /\ (forall (it : TMDBMovieResponse.t) (c c' : Z * Z) (w w' : World),
         wf_db (db w) ->
         Gorm.first_by_tmdb_id (TMDBMovieResponse.ID it) (movies (db w)) = None ->
         fault w (OpMovieCreate (TMDBMovieResponse.ID it)) (lookup_time it w + 1) <> None ->
         movieService.syncMovie it c w = (c', w') ->
         c' = c /\ quiet w w')
  /\ (forall (it : TMDBMovieResponse.t) (c c' : Z * Z) (w w' : World) (existing : Movie.t),
         wf_db (db w) ->
         Gorm.first_by_tmdb_id (TMDBMovieResponse.ID it) (movies (db w)) = Some existing ->
         fault w (OpMovieSave (Movie.ID existing)) (lookup_time it w + 1) <> None ->
         movieService.syncMovie it c w = (c', w') ->
         c' = c /\ quiet w w')
  /\ (forall (genreID : Z) (rest : list Z) (genres : list Genre.t) (w : World) (e : error),
         fault w (OpGenreFirstOrCreate genreID) (clock w) = Some e ->
         movieService.resolveGenres (genreID :: rest) genres w
         = movieService.resolveGenres rest genres (tick w))
  /\ (forall (it : TMDBMovieResponse.t) (c : Z * Z) (w : World),
         wf_db (db w) ->
         fault w (OpLanguageFirstOrCreate (TMDBMovieResponse.OriginalLanguage it)) (clock w)
         = None ->
         fault w (OpMovieFirstByTMDBID (TMDBMovieResponse.ID it)) (lookup_time it w) = None ->
         (Gorm.first_by_tmdb_id (TMDBMovieResponse.ID it) (movies (db w)) = None ->
          fault w (OpMovieCreate (TMDBMovieResponse.ID it)) (lookup_time it w + 1) = None) ->
         (forall e, Gorm.first_by_tmdb_id (TMDBMovieResponse.ID it) (movies (db w)) = Some e ->
                    fault w (OpMovieSave (Movie.ID e)) (lookup_time it w + 1) = None) ->
         exists w' row,
           movieService.syncMovie it c w
           = (match Gorm.first_by_tmdb_id (TMDBMovieResponse.ID it) (movies (db w)) with
              | Some _ => (fst c, snd c + 1)
              | None => (fst c + 1, snd c)
              end, w')
           /\ rows_with_tmdb_id (TMDBMovieResponse.ID it) (db w') = [row]
           /\ carries_item row it
           /\ language_resolved row it (db w')
           /\ links_written row it w (db w'))
  /\ (forall (s : movieService.t) (pages : Z) (w : World),
         (forall j, 1 <= j <= Z.min 10 (Z.max 1 pages) -> exists ms, tmdb w j = Ok ms) ->
         exists log w' evs,
           movieService.SyncMoviesFromTMDB s pages w = ((log, None), w')
           /\ SyncLog.Status log = "success"%string
           /\ trace w' = trace w ++ evs
           /\ fetched_pages evs = seqZ 1 (Z.min 10 (Z.max 1 pages)))
  /\ (forall (s : movieService.t) (pages : Z) (w : World) (j : Z)
             (ms : list TMDBMovieResponse.t) (it : TMDBMovieResponse.t),
         wf_db (db w) ->
         (forall k, 1 <= k <= Z.min 10 (Z.max 1 pages) -> exists ms', tmdb w k = Ok ms') ->
         1 <= j <= Z.min 10 (Z.max 1 pages) -> tmdb w j = Ok ms -> In it ms ->
         calls_succeed w it ->
         In (TMDBMovieResponse.ID it)
            (map Movie.TMDBID
                 (movies (db (snd (movieService.SyncMoviesFromTMDB s pages w)))))).
Proof.
  split; [|split; [|split; [|split; [|split; [|split; [|split]]]]]].
  - intros it c w e F. exists (tick w).
    split; [eapply syncMovie_language_fault, F | apply quiet_tick].
  - intros it c c' w w' e. apply syncMovie_lookup_fault_at.
  - intros it c c' w w'. apply syncMovie_create_fault_at.
  - intros it c c' w w' existing. apply syncMovie_save_fault_at.
  - intros genreID rest genres w e F. simpl. unfold bind.
    unfold genreRepository.FindOrCreate, Gorm.FirstOrCreateGenre.
    rewrite (call_fault _ _ _ _ F). reflexivity.
  - intros it c w W Hl Hk Hc Hs.
    destruct (syncMovie_written it c w W Hl Hk Hc Hs) as (w' & row & E & _ & H).
    exists w', row. split; [exact E | exact H].
  - intros s pages w Hall.
    unfold movieService.SyncMoviesFromTMDB, bind, Now. rewrite clamp_pages.
    destruct (syncPages_all (seqZ 1 (Z.min 10 (Z.max 1 pages)))
                (SyncLog.mk 0 "manual" "failed" 0 0 "" (clock w) 0) (0, 0) (tick w))
      as ([a u] & w1 & e1 & E & S1 & _ & F1 & _).
    { intros p Hp. apply list_elem_of_In, elem_of_seqZ in Hp. apply Hall. lia. }
    rewrite E.
    destruct (CreateSyncLog_any
                (movieService.set_success a u
                   (SyncLog.mk 0 "manual" "failed" 0 0 "" (clock w) 0)) w1)
      as (log & err & w' & e2 & E' & S2 & F2 & St & _).
    rewrite E'. exists log, w', (e1 ++ e2). split; [reflexivity|].
    split; [exact St|]. split; [exact (proj1 (steps_trans _ _ _ _ _ S1 S2))|].
    unfold fetched_pages in *. rewrite omap_app, F1, F2, app_nil_r. reflexivity.
  - intros s pages w j ms it W Hall Hj Hms Hit H.
    exact (Sync_stores_ok s pages w it j ms W H Hall Hj Hms Hit).
Qed.

Lemma sync_item_failures_are_skipped_witness :
  (exists w', movieService.syncMovie Examples.fight_club (0, 0)
                (Examples.world Examples.empty_db Examples.language_fails) = ((0, 0), w')
              /\ quiet (Examples.world Examples.empty_db Examples.language_fails) w')
  /\ (fst (movieService.syncMovie Examples.fight_club (0, 0)
             (Examples.world Examples.empty_db Examples.lookup_fails)) = (0, 0)
      /\ quiet (Examples.world Examples.empty_db Examples.lookup_fails)
               (snd (movieService.syncMovie Examples.fight_club (0, 0)
                       (Examples.world Examples.empty_db Examples.lookup_fails))))
  /\ (fst (movieService.syncMovie Examples.fight_club (0, 0)
             (Examples.world Examples.empty_db Examples.writes_fail)) = (0, 0)
      /\ quiet (Examples.world Examples.empty_db Examples.writes_fail)
               (snd (movieService.syncMovie Examples.fight_club (0, 0)
                       (Examples.world Examples.empty_db Examples.writes_fail))))
  /\ (fst (movieService.syncMovie Examples.fight_club_again (0, 0)
             (Examples.world Examples.stocked_db Examples.writes_fail)) = (0, 0)
      /\ quiet (Examples.world Examples.stocked_db Examples.writes_fail)
               (snd (movieService.syncMovie Examples.fight_club_again (0, 0)
                       (Examples.world Examples.stocked_db Examples.writes_fail))))
  /\ movieService.resolveGenres [18; 53] []
       (Examples.world Examples.empty_db Examples.genre_18_fails)
     = movieService.resolveGenres [53] []
         (tick (Examples.world Examples.empty_db Examples.genre_18_fails))
  /\ (exists w' row,
         movieService.syncMovie Examples.fight_club (0, 0)
           (Examples.world Examples.empty_db Examples.genre_18_fails) = ((1, 0), w')
         /\ rows_with_tmdb_id 550 (db w') = [row]
         /\ carries_item row Examples.fight_club
         /\ language_resolved row Examples.fight_club (db w')
         /\ links_written row Examples.fight_club
              (Examples.world Examples.empty_db Examples.genre_18_fails) (db w'))
  /\ (exists log w' evs,
         movieService.SyncMoviesFromTMDB Examples.svc 1
           (Examples.world Examples.empty_db Examples.writes_fail) = ((log, None), w')
         /\ SyncLog.Status log = "success"%string
         /\ trace w' = trace (Examples.world Examples.empty_db Examples.writes_fail) ++ evs
         /\ fetched_pages evs = seqZ 1 (Z.min 10 (Z.max 1 1)))
  /\ In 693134
        (map Movie.TMDBID
             (movies (db (snd (movieService.SyncMoviesFromTMDB Examples.svc 1
                                 (Examples.world Examples.empty_db
                                    Examples.fight_club_lookup_fails)))))).
Proof.
  split; [|split; [|split; [|split; [|split; [|split; [|split]]]]]].
  - apply (proj1 sync_item_failures_are_skipped Examples.fight_club (0, 0)
                 (Examples.world Examples.empty_db Examples.language_fails)
                 "connection reset"%string).
    reflexivity.
  - apply (proj1 (proj2 sync_item_failures_are_skipped) Examples.fight_club (0, 0) _
                 (Examples.world Examples.empty_db Examples.lookup_fails) _
                 "connection reset"%string).
    + discriminate.
    + reflexivity.
    + apply surjective_pairing.
  - apply (proj1 (proj2 (proj2 sync_item_failures_are_skipped)) Examples.fight_club (0, 0) _
                 (Examples.world Examples.empty_db Examples.writes_fail) _).
    + exact wf_empty_db.
    + reflexivity.
    + discriminate.
    + apply surjective_pairing.
  - apply (proj1 (proj2 (proj2 (proj2 sync_item_failures_are_skipped)))
                 Examples.fight_club_again (0, 0) _
                 (Examples.world Examples.stocked_db Examples.writes_fail) _
                 Examples.stored_fight_club).
    + exact wf_stocked_db.
    + reflexivity.
    + discriminate.
    + apply surjective_pairing.
  - apply (proj1 (proj2 (proj2 (proj2 (proj2 sync_item_failures_are_skipped)))) 18 [53] []
                 (Examples.world Examples.empty_db Examples.genre_18_fails)
                 "connection reset"%string).
    reflexivity.
  - apply (proj1 (proj2 (proj2 (proj2 (proj2 (proj2 sync_item_failures_are_skipped)))))
                 Examples.fight_club (0, 0)
                 (Examples.world Examples.empty_db Examples.genre_18_fails)).
    + exact wf_empty_db.
    + reflexivity.
    + reflexivity.
    + intros _. reflexivity.
    + intros e _. reflexivity.
  - apply (proj1 (proj2 (proj2 (proj2 (proj2 (proj2 (proj2
                  sync_item_failures_are_skipped)))))) Examples.svc 1
                 (Examples.world Examples.empty_db Examples.writes_fail)).
    intros j Hj. assert (j = 1) as -> by lia. eexists. reflexivity.
  - apply (proj2 (proj2 (proj2 (proj2 (proj2 (proj2 (proj2
                  sync_item_failures_are_skipped)))))) Examples.svc 1
                 (Examples.world Examples.empty_db Examples.fight_club_lookup_fails) 1
                 [Examples.fight_club; Examples.dune] Examples.dune).
    + exact wf_empty_db.
    + intros k Hk. assert (k = 1) as -> by lia. eexists. reflexivity.
    + change (1 <= 1 <= 1). lia.
    + reflexivity.
    + right. left. reflexivity.
    + intros t. repeat split.
Defined.
